(** * RIFE_HD_arch: the RIFE frame-interpolation network

    A shallow embedding of [utils/architectures/RIFE_HD_arch.py] and of the
    PyTorch operations it calls.

    Conventions of the model.
    - A tensor is a 4-d NCHW array: a [Shape] and the entries as a function
      from indices to real numbers.  Entries are idealised as reals: rounding,
      infinities and NaN of the floating-point types are outside the model.
    - An operation that PyTorch or Python would abort with an exception
      returns [Raise e]; the other ones return [Ok v].
    - The shape behaviour of every PyTorch layer is written out from its
      documented formula.  The numeric action of a layer with learned
      parameters, of bilinear resizing and of [warp] is a field of the class
      [Numerics]: nothing is assumed about it.
    - [warp] is not among the sources.  The spec describes it on an image and
      a flow whose resolutions match; what it does on other inputs is a field
      of [Numerics] as well, and nothing is assumed about that either.
    - Building a layer with learned parameters allocates a fresh parameter
      id ([Init] is the allocation monad), so two layers built with the same
      arguments still own different parameters.
    - A module is built in training mode, as [nn.Module] does, and [eval]
      puts it in evaluation mode.  In training mode a batch normalisation
      refuses an input with a single value per channel; the update of its
      running statistics is part of its numeric action and not modelled. *)

From Stdlib Require Import ZArith QArith Qround Reals List String Bool Lia Lra.
Import ListNotations.

Local Open Scope Z_scope.

(** ** Exceptions and the error monad *)

Inductive exn : Type :=
| AttributeError
| TypeError
| IndexError
| ZeroDivisionError
| ValueError
| RuntimeError.

Inductive result (A : Type) : Type :=
| Ok (a : A)
| Raise (e : exn).

Arguments Ok {A} a.
Arguments Raise {A} e.

Definition bind {A B : Type} (m : result A) (k : A -> result B) : result B :=
  match m with
  | Ok a => k a
  | Raise e => Raise e
  end.

Notation "x <- m ;; k" := (bind m (fun x => k))
  (at level 61, m at next level, right associativity).

(** [returns m P]: the computation [m] raises nothing and its value
    satisfies [P]. *)
Definition returns {A : Type} (m : result A) (P : A -> Prop) : Prop :=
  match m with
  | Ok a => P a
  | Raise _ => False
  end.

(** ** Allocation of learned parameters *)

Definition Init (A : Type) : Type := nat -> A * nat.

Definition unit_ {A : Type} (a : A) : Init A := fun n => (a, n).

Definition then_ {A B : Type} (m : Init A) (k : A -> Init B) : Init B :=
  fun n => let (a, n') := m n in k a n'.

Notation "x <~ m ;; k" := (then_ m (fun x => k))
  (at level 61, m at next level, right associativity).

(** The id of a parameter set that no layer built so far owns. *)
Definition fresh : Init nat := fun n => (n, S n).

(** ** Tensors *)

Record Shape : Type := mkShape {
  batch : Z;
  channels : Z;
  height : Z;
  width : Z
}.

Definition Data : Type := Z -> Z -> Z -> Z -> R.

Record Tensor : Type := mkTensor {
  shape : Shape;
  data : Data
}.

(** Sizes of one dimension of two operands of an elementwise operation:
    equal, or one of them 1. *)
Definition broadcast_dim (a b : Z) : result Z :=
  if a =? b then Ok a
  else if a =? 1 then Ok b
  else if b =? 1 then Ok a
  else Raise RuntimeError.

Definition broadcast (s t : Shape) : result Shape :=
  n <- broadcast_dim (batch s) (batch t) ;;
  c <- broadcast_dim (channels s) (channels t) ;;
  h <- broadcast_dim (height s) (height t) ;;
  w <- broadcast_dim (width s) (width t) ;;
  Ok (mkShape n c h w).

(** The index an operand of extent [d] is read at. *)
Definition bidx (d i : Z) : Z := if d =? 1 then 0 else i.

Definition expand (x : Tensor) : Data :=
  fun n c h w =>
    data x (bidx (batch (shape x)) n) (bidx (channels (shape x)) c)
           (bidx (height (shape x)) h) (bidx (width (shape x)) w).

Definition pointwise (f : R -> R) (x : Tensor) : Tensor :=
  mkTensor (shape x) (fun n c h w => f (data x n c h w)).

Definition pointwise2 (f : R -> R -> R) (x y : Tensor) : result Tensor :=
  s <- broadcast (shape x) (shape y) ;;
  Ok (mkTensor s (fun n c h w => f (expand x n c h w) (expand y n c h w))).

(** [x + y], [x * y], [-x], [x * k], [x - k] and [k - x]. *)
Definition add : Tensor -> Tensor -> result Tensor := pointwise2 Rplus.
Definition mul : Tensor -> Tensor -> result Tensor := pointwise2 Rmult.
Definition neg : Tensor -> Tensor := pointwise Ropp.
Definition mul_scalar (x : Tensor) (k : R) : Tensor :=
  pointwise (fun v => (v * k)%R) x.
Definition sub_scalar (x : Tensor) (k : R) : Tensor :=
  pointwise (fun v => (v - k)%R) x.
Definition rsub_scalar (k : R) (x : Tensor) : Tensor :=
  pointwise (fun v => (k - v)%R) x.

(** [torch.sigmoid] and [torch.clamp]. *)
Definition sigmoid_R (v : R) : R := (1 / (1 + exp (- v)))%R.
Definition clamp_R (lo hi v : R) : R := Rmin (Rmax v lo) hi.

Definition sigmoid : Tensor -> Tensor := pointwise sigmoid_R.
Definition clamp (x : Tensor) (lo hi : R) : Tensor :=
  pointwise (clamp_R lo hi) x.

(** [x[:, start:stop]] for non-negative bounds; [stop = None] is [x[:, start:]].
    Python cuts the bounds to the extent of the dimension. *)
Definition slice_channels (x : Tensor) (start : Z) (stop : option Z) : Tensor :=
  let C := channels (shape x) in
  let lo := Z.min start C in
  let hi := match stop with Some e => Z.min e C | None => C end in
  mkTensor (mkShape (batch (shape x)) (Z.max 0 (hi - lo))
                    (height (shape x)) (width (shape x)))
           (fun n c h w => data x n (c + lo) h w).

(** [torch.cat((x, y), 1)]. *)
Definition cat2 (x y : Tensor) : result Tensor :=
  let s := shape x in
  let t := shape y in
  if (batch s =? batch t) && (height s =? height t) && (width s =? width t)
  then Ok (mkTensor (mkShape (batch s) (channels s + channels t)
                             (height s) (width s))
                    (fun n c h w =>
                       if c <? channels s then data x n c h w
                       else data y n (c - channels s) h w))
  else Raise RuntimeError.

(** [torch.cat(ts, 1)]: an empty sequence is refused. *)
Fixpoint cat_from (x : Tensor) (ts : list Tensor) : result Tensor :=
  match ts with
  | [] => Ok x
  | y :: r => xy <- cat2 x y ;; cat_from xy r
  end.

Definition cat (ts : list Tensor) : result Tensor :=
  match ts with
  | [] => Raise RuntimeError
  | x :: r => cat_from x r
  end.

(** [xs[i]] on a Python list. *)
Definition item {A : Type} (xs : list A) (i : nat) : result A :=
  match nth_error xs i with
  | Some a => Ok a
  | None => Raise IndexError
  end.

(** Sum of [f 0 .. f (n-1)]. *)
Definition sum_upto (n : Z) (f : Z -> R) : R :=
  fold_right (fun i acc => (f (Z.of_nat i) + acc)%R) 0%R (seq 0 (Z.to_nat n)).

(** [x.mean(3, True)] and [x.mean(2, True)]. *)
Definition mean3 (x : Tensor) : Tensor :=
  let s := shape x in
  mkTensor (mkShape (batch s) (channels s) (height s) 1)
           (fun n c h _ =>
              (sum_upto (width s) (fun w => data x n c h w) / IZR (width s))%R).

Definition mean2 (x : Tensor) : Tensor :=
  let s := shape x in
  mkTensor (mkShape (batch s) (channels s) 1 (width s))
           (fun n c _ w =>
              (sum_upto (height s) (fun h => data x n c h w) / IZR (height s))%R).

(** ** Layers of [torch.nn]

    [params] is the id of the learned parameters (and buffers) the layer
    owns.  [training] is the flag [self.training] of a batch normalisation,
    the only layer of this file that reads it. *)

Inductive Layer : Type :=
| Conv2d (params : nat)
         (in_channels out_channels kernel_size stride padding dilation : Z)
         (bias : bool)
| ConvTranspose2d (params : nat)
                  (in_channels out_channels kernel_size stride padding : Z)
                  (bias : bool)
| BatchNorm2d (params : nat) (num_features : Z) (training : bool)
| PReLU (params : nat) (num_parameters : Z)
| Identity
| PixelShuffle (upscale_factor : Z).

(** [nn.Sequential(...)], and a Python value that is a module or [None]. *)
Definition Sequential : Type := list Layer.
Definition PyModule : Type := option Sequential.

Definition new_Conv2d (in_channels out_channels kernel_size stride padding
                       dilation : Z) (bias : bool) : Init Layer :=
  p <~ fresh ;;
  unit_ (Conv2d p in_channels out_channels kernel_size stride padding dilation bias).

Definition new_ConvTranspose2d (in_channels out_channels kernel_size stride
                                padding : Z) (bias : bool) : Init Layer :=
  p <~ fresh ;;
  unit_ (ConvTranspose2d p in_channels out_channels kernel_size stride padding bias).

(** A new module is in training mode. *)
Definition new_BatchNorm2d (num_features : Z) : Init Layer :=
  p <~ fresh ;; unit_ (BatchNorm2d p num_features true).

Definition new_PReLU (num_parameters : Z) : Init Layer :=
  p <~ fresh ;; unit_ (PReLU p num_parameters).

(** The numeric side of the operations whose entries the model leaves open. *)
Class Numerics : Type := {
  (** entries of the output of a layer with learned parameters *)
  learned : Layer -> Tensor -> Data;
  (** entries of [F.interpolate(x, scale_factor, mode="bilinear",
      align_corners=False)] *)
  bilinear : Q -> Tensor -> Data;
  (** entries of [warp(img, flow)] *)
  resample : Tensor -> Tensor -> Data;
  (** [warp(img, flow)] on an image and a flow whose batch sizes or
      resolutions differ: [None] when it refuses them, else the batch size,
      the height and the width of what it returns (the channels of the
      shape are not read) *)
  unmatched : Tensor -> Tensor -> option Shape
}.

(** Output extent of a convolution and of a transposed convolution along one
    spatial dimension. *)
Definition conv_out (len kernel_size stride padding dilation : Z) : Z :=
  (len + 2 * padding - dilation * (kernel_size - 1) - 1) / stride + 1.

Definition deconv_out (len kernel_size stride padding : Z) : Z :=
  (len - 1) * stride - 2 * padding + (kernel_size - 1) + 1.

(** The kernel fits into the padded input. *)
Definition kernel_fits (len kernel_size padding dilation : Z) : bool :=
  dilation * (kernel_size - 1) + 1 <=? len + 2 * padding.

Definition Layer_shape (l : Layer) (s : Shape) : result Shape :=
  match l with
  | Conv2d _ cin cout k st p d _ =>
      if (channels s =? cin) && (0 <? st)
         && kernel_fits (height s) k p d && kernel_fits (width s) k p d
      then Ok (mkShape (batch s) cout
                       (conv_out (height s) k st p d)
                       (conv_out (width s) k st p d))
      else Raise RuntimeError
  | ConvTranspose2d _ cin cout k st p _ =>
      if (channels s =? cin) && (0 <? st)
         && (0 <? deconv_out (height s) k st p)
         && (0 <? deconv_out (width s) k st p)
      then Ok (mkShape (batch s) cout
                       (deconv_out (height s) k st p)
                       (deconv_out (width s) k st p))
      else Raise RuntimeError
  | BatchNorm2d _ n training =>
      if training && (batch s * (height s * width s) =? 1)
      then Raise ValueError
      else if channels s =? n then Ok s else Raise RuntimeError
  | PReLU _ n =>
      if (n =? 1) || (channels s =? n) then Ok s else Raise RuntimeError
  | Identity => Ok s
  | PixelShuffle r =>
      if (0 <? r) && (channels s mod (r * r) =? 0)
      then Ok (mkShape (batch s) (channels s / (r * r))
                       (height s * r) (width s * r))
      else Raise RuntimeError
  end.

(** [m.train(mode)] on a layer, on a [Sequential] and on a value that may be
    [None]; [m.eval()] is [m.train(False)]. *)
Definition Layer_train (mode : bool) (l : Layer) : Layer :=
  match l with
  | BatchNorm2d p n _ => BatchNorm2d p n mode
  | _ => l
  end.

Definition Sequential_train (mode : bool) (m : Sequential) : Sequential :=
  List.map (Layer_train mode) m.

Definition PyModule_train (mode : bool) (m : PyModule) : PyModule :=
  option_map (Sequential_train mode) m.

Section Forward.

Context {numerics : Numerics}.

Definition Layer_data (l : Layer) (x : Tensor) : Data :=
  match l with
  | Identity => data x
  | PixelShuffle r =>
      fun n c h w => data x n (c * (r * r) + (h mod r) * r + w mod r) (h / r) (w / r)
  | _ => learned l x
  end.

(** [l(x)] for a layer [l]. *)
Definition run (l : Layer) (x : Tensor) : result Tensor :=
  match l with
  | Identity => Ok x
  | _ => s <- Layer_shape l (shape x) ;; Ok (mkTensor s (Layer_data l x))
  end.

Fixpoint run_seq (m : Sequential) (x : Tensor) : result Tensor :=
  match m with
  | [] => Ok x
  | l :: r => y <- run l x ;; run_seq r y
  end.

(** [self.attr(x)]: [attr = None] is an attribute that was never assigned,
    [Some None] one that holds Python's [None]. *)
Definition call (attr : option PyModule) (x : Tensor) : result Tensor :=
  match attr with
  | None => Raise AttributeError
  | Some None => Raise TypeError
  | Some (Some m) => run_seq m x
  end.

(** Extent of a resized dimension: [floor(len * scale_factor)].  Every scale
    factor that the networks of this file use is a power of two, so the
    floating-point product is the exact one; for any other factor the model
    takes the exact product as well. *)
Definition resized (len : Z) (scale_factor : Q) : Z :=
  Qfloor (inject_Z len * scale_factor).

(** [F.interpolate(x, scale_factor=s, mode="bilinear", align_corners=False)]:
    a tensor without channels, rows or columns is refused, and so is an
    output without rows or columns. *)
Definition interpolate (x : Tensor) (scale_factor : Q) : result Tensor :=
  let s := shape x in
  let h := resized (height s) scale_factor in
  let w := resized (width s) scale_factor in
  if (0 <? channels s) && (0 <? height s) && (0 <? width s)
     && (0 <? h) && (0 <? w)
  then Ok (mkTensor (mkShape (batch s) (channels s) h w) (bilinear scale_factor x))
  else Raise RuntimeError.

(** Modelled from the spec: [warp] is imported from utils/architectures/video.py,
    which is not among the sources.  The spec describes it as
    [warp(image, flow) -> image'], a resampling of [image] by the per-pixel
    displacement [flow], on inputs whose spatial resolutions match: there the
    result is an image of the shape of [image].  On an image and a flow that
    do not match the spec states neither a result nor an error: whether
    [warp] refuses them, and the batch size and the extents of what it
    returns if it does not, are left open ([unmatched]); what it returns is
    still a resampling of [image], with the channels of [image]. *)
Definition warp (img flow : Tensor) : result Tensor :=
  let s := shape img in
  let t := shape flow in
  if (batch s =? batch t) && (height s =? height t) && (width s =? width t)
  then Ok (mkTensor s (resample img flow))
  else match unmatched img flow with
       | Some u =>
           Ok (mkTensor (mkShape (batch u) (channels s) (height u) (width u))
                        (resample img flow))
       | None => Raise RuntimeError
       end.

End Forward.

(** ** The factory functions

    The keyword defaults of the source ([kernel_size=3, stride=1, padding=1,
    dilation=1, mode=None]) are passed by the caller here. *)

(** [mode == tag], for a mode that is a string or [None]. *)
Definition mode_is (mode : option string) (tag : string) : bool :=
  match mode with
  | Some m => String.eqb m tag
  | None => false
  end.

Definition conv (in_planes out_planes kernel_size stride padding dilation : Z)
                (mode : option string) : Init PyModule :=
  if mode_is mode "rife" then
    c <~ new_Conv2d in_planes out_planes kernel_size stride padding dilation true ;;
    a <~ new_PReLU out_planes ;;
    unit_ (Some [c; a])
  else if mode_is mode "ifnet" then
    c <~ new_Conv2d in_planes out_planes kernel_size stride padding dilation false ;;
    b <~ new_BatchNorm2d out_planes ;;
    a <~ new_PReLU out_planes ;;
    unit_ (Some [c; b; a])
  else unit_ None.

(** The body fixes kernel size 4, stride 2 and padding 1 whatever the
    arguments are. *)
Definition deconv (in_planes out_planes kernel_size stride padding : Z)
  : Init Sequential :=
  c <~ new_ConvTranspose2d in_planes out_planes 4 2 1 true ;;
  a <~ new_PReLU out_planes ;;
  unit_ [c; a].

Definition conv_woact (in_planes out_planes kernel_size stride padding dilation : Z)
                      (mode : option string) : Init PyModule :=
  if mode_is mode "rife" then
    c <~ new_Conv2d in_planes out_planes kernel_size stride padding dilation true ;;
    unit_ (Some [c])
  else if mode_is mode "ifnet" then
    c <~ new_Conv2d in_planes out_planes kernel_size stride padding dilation false ;;
    b <~ new_BatchNorm2d out_planes ;;
    unit_ (Some [c; b])
  else unit_ None.

(** ** ResBlock *)

Module ResBlock.

(** [conv1 = None]: [__init__] assigned no attribute [conv1]. *)
Record t : Type := mk {
  conv0 : Layer;
  conv1 : option PyModule;
  conv2 : PyModule;
  relu1 : Layer;
  relu2 : Layer;
  fc1 : Layer;
  fc2 : Layer
}.

Definition init (in_planes out_planes stride : Z) (mode : option string) : Init t :=
  conv0 <~ (if (in_planes =? out_planes) && (stride =? 1)
            then unit_ Identity
            else new_Conv2d in_planes out_planes 3 stride 1 1 false) ;;
  conv1 <~ (if mode_is mode "rife"
            then m <~ conv in_planes out_planes 3 stride 1 1 mode ;; unit_ (Some m)
            else if mode_is mode "ifnet"
            then m <~ conv in_planes out_planes 5 stride 2 1 mode ;; unit_ (Some m)
            else unit_ None) ;;
  conv2 <~ conv_woact out_planes out_planes 3 1 1 1 mode ;;
  relu1 <~ new_PReLU 1 ;;
  relu2 <~ new_PReLU out_planes ;;
  fc1 <~ new_Conv2d out_planes 16 1 1 0 1 false ;;
  fc2 <~ new_Conv2d 16 out_planes 1 1 0 1 false ;;
  unit_ (mk conv0 conv1 conv2 relu1 relu2 fc1 fc2).

Definition train (mode : bool) (self : t) : t :=
  mk (Layer_train mode (conv0 self))
     (option_map (PyModule_train mode) (conv1 self))
     (PyModule_train mode (conv2 self))
     (Layer_train mode (relu1 self)) (Layer_train mode (relu2 self))
     (Layer_train mode (fc1 self)) (Layer_train mode (fc2 self)).

Section Forward.
Context {numerics : Numerics}.

Definition forward (self : t) (x : Tensor) : result Tensor :=
  y <- run (conv0 self) x ;;
  x <- call (conv1 self) x ;;
  x <- call (Some (conv2 self)) x ;;
  let w := mean2 (mean3 x) in
  w <- run (fc1 self) w ;;
  w <- run (relu1 self) w ;;
  w <- run (fc2 self) w ;;
  let w := sigmoid w in
  xw <- mul x w ;;
  s <- add xw y ;;
  run (relu2 self) s.
End Forward.

End ResBlock.

(** ** IFBlock *)

Module IFBlock.

Record t : Type := mk {
  scale : Z;
  conv0 : PyModule;
  res0 : ResBlock.t;
  res1 : ResBlock.t;
  res2 : ResBlock.t;
  res3 : ResBlock.t;
  res4 : ResBlock.t;
  res5 : ResBlock.t;
  conv1 : Layer;
  up : Layer
}.

(** The defaults [scale=1, c=64] of the source are passed by the caller. *)
Definition init (in_planes scale c : Z) : Init t :=
  conv0 <~ conv in_planes c 5 2 2 1 (Some "ifnet"%string) ;;
  res0 <~ ResBlock.init c c 1 (Some "ifnet"%string) ;;
  res1 <~ ResBlock.init c c 1 (Some "ifnet"%string) ;;
  res2 <~ ResBlock.init c c 1 (Some "ifnet"%string) ;;
  res3 <~ ResBlock.init c c 1 (Some "ifnet"%string) ;;
  res4 <~ ResBlock.init c c 1 (Some "ifnet"%string) ;;
  res5 <~ ResBlock.init c c 1 (Some "ifnet"%string) ;;
  conv1 <~ new_Conv2d c 8 3 1 1 1 true ;;
  unit_ (mk scale conv0 res0 res1 res2 res3 res4 res5 conv1 (PixelShuffle 2)).

Definition train (mode : bool) (self : t) : t :=
  mk (scale self) (PyModule_train mode (conv0 self))
     (ResBlock.train mode (res0 self)) (ResBlock.train mode (res1 self))
     (ResBlock.train mode (res2 self)) (ResBlock.train mode (res3 self))
     (ResBlock.train mode (res4 self)) (ResBlock.train mode (res5 self))
     (Layer_train mode (conv1 self)) (Layer_train mode (up self)).

Section Forward.
Context {numerics : Numerics}.

Definition forward (self : t) (x : Tensor) : result Tensor :=
  x <- (if negb (scale self =? 1)
        then if scale self =? 0 then Raise ZeroDivisionError
             else interpolate x (1 / inject_Z (scale self))%Q
        else Ok x) ;;
  x <- call (Some (conv0 self)) x ;;
  x <- ResBlock.forward (res0 self) x ;;
  x <- ResBlock.forward (res1 self) x ;;
  x <- ResBlock.forward (res2 self) x ;;
  x <- ResBlock.forward (res3 self) x ;;
  x <- ResBlock.forward (res4 self) x ;;
  x <- ResBlock.forward (res5 self) x ;;
  x <- run (conv1 self) x ;;
  flow <- run (up self) x ;;
  if negb (scale self =? 1)
  then interpolate flow (inject_Z (scale self))
  else Ok flow.
End Forward.

End IFBlock.

(** ** IFNet *)

Module IFNet.

Record t : Type := mk {
  block0 : IFBlock.t;
  block1 : IFBlock.t;
  block2 : IFBlock.t;
  block3 : IFBlock.t
}.

Definition init : Init t :=
  block0 <~ IFBlock.init 6 8 192 ;;
  block1 <~ IFBlock.init 8 4 128 ;;
  block2 <~ IFBlock.init 8 2 96 ;;
  block3 <~ IFBlock.init 8 1 48 ;;
  unit_ (mk block0 block1 block2 block3).

Definition train (mode : bool) (self : t) : t :=
  mk (IFBlock.train mode (block0 self)) (IFBlock.train mode (block1 self))
     (IFBlock.train mode (block2 self)) (IFBlock.train mode (block3 self)).

Definition eval : t -> t := train false.

Section Forward.
Context {numerics : Numerics}.

Definition forward (self : t) (x : Tensor) : result (Tensor * list Tensor) :=
  x <- interpolate x (1 # 2) ;;
  flow0 <- IFBlock.forward (block0 self) x ;;
  let F1 := flow0 in
  warped_img0 <- warp (slice_channels x 0 (Some 3)) F1 ;;
  warped_img1 <- warp (slice_channels x 3 None) (neg F1) ;;
  i1 <- cat [warped_img0; warped_img1; F1] ;;
  flow1 <- IFBlock.forward (block1 self) i1 ;;
  F2 <- add flow0 flow1 ;;
  warped_img0 <- warp (slice_channels x 0 (Some 3)) F2 ;;
  warped_img1 <- warp (slice_channels x 3 None) (neg F2) ;;
  i2 <- cat [warped_img0; warped_img1; F2] ;;
  flow2 <- IFBlock.forward (block2 self) i2 ;;
  s01 <- add flow0 flow1 ;;
  F3 <- add s01 flow2 ;;
  warped_img0 <- warp (slice_channels x 0 (Some 3)) F3 ;;
  warped_img1 <- warp (slice_channels x 3 None) (neg F3) ;;
  i3 <- cat [warped_img0; warped_img1; F3] ;;
  flow3 <- IFBlock.forward (block3 self) i3 ;;
  s01 <- add flow0 flow1 ;;
  s012 <- add s01 flow2 ;;
  F4 <- add s012 flow3 ;;
  Ok (F4, [F1; F2; F3; F4]).
End Forward.

End IFNet.

(** ** ContextNet *)

Module ContextNet.

Record t : Type := mk {
  conv0 : PyModule;
  conv1 : ResBlock.t;
  conv2 : ResBlock.t;
  conv3 : ResBlock.t;
  conv4 : ResBlock.t
}.

Definition init (c : Z) : Init t :=
  conv0 <~ conv 3 c 3 2 1 1 (Some "rife"%string) ;;
  conv1 <~ ResBlock.init c c 2 (Some "rife"%string) ;;
  conv2 <~ ResBlock.init c (2 * c) 2 (Some "rife"%string) ;;
  conv3 <~ ResBlock.init (2 * c) (4 * c) 2 (Some "rife"%string) ;;
  conv4 <~ ResBlock.init (4 * c) (8 * c) 2 (Some "rife"%string) ;;
  unit_ (mk conv0 conv1 conv2 conv3 conv4).

Definition train (mode : bool) (self : t) : t :=
  mk (PyModule_train mode (conv0 self))
     (ResBlock.train mode (conv1 self)) (ResBlock.train mode (conv2 self))
     (ResBlock.train mode (conv3 self)) (ResBlock.train mode (conv4 self)).

Definition eval : t -> t := train false.

Section Forward.
Context {numerics : Numerics}.

Definition forward (self : t) (x flow : Tensor) : result (list Tensor) :=
  x <- call (Some (conv0 self)) x ;;
  x <- ResBlock.forward (conv1 self) x ;;
  flow <- interpolate flow (1 # 2) ;;
  let flow := mul_scalar flow (/ 2)%R in
  f1 <- warp x flow ;;
  x <- ResBlock.forward (conv2 self) x ;;
  flow <- interpolate flow (1 # 2) ;;
  let flow := mul_scalar flow (/ 2)%R in
  f2 <- warp x flow ;;
  x <- ResBlock.forward (conv3 self) x ;;
  flow <- interpolate flow (1 # 2) ;;
  let flow := mul_scalar flow (/ 2)%R in
  f3 <- warp x flow ;;
  x <- ResBlock.forward (conv4 self) x ;;
  flow <- interpolate flow (1 # 2) ;;
  let flow := mul_scalar flow (/ 2)%R in
  f4 <- warp x flow ;;
  Ok [f1; f2; f3; f4].
End Forward.

End ContextNet.

(** ** FusionNet *)

Module FusionNet.

(** The factory function [conv], under a name that the field [conv] of
    the record does not hide. *)
Local Abbreviation conv_block := conv (only parsing).

Record t : Type := mk {
  conv0 : PyModule;
  down0 : ResBlock.t;
  down1 : ResBlock.t;
  down2 : ResBlock.t;
  down3 : ResBlock.t;
  up0 : Sequential;
  up1 : Sequential;
  up2 : Sequential;
  up3 : Sequential;
  conv : Layer;
  up4 : Layer
}.

Definition init (c : Z) : Init t :=
  conv0 <~ conv_block 8 c 3 2 1 1 (Some "rife"%string) ;;
  down0 <~ ResBlock.init c (2 * c) 2 (Some "rife"%string) ;;
  down1 <~ ResBlock.init (4 * c) (4 * c) 2 (Some "rife"%string) ;;
  down2 <~ ResBlock.init (8 * c) (8 * c) 2 (Some "rife"%string) ;;
  down3 <~ ResBlock.init (16 * c) (16 * c) 2 (Some "rife"%string) ;;
  up0 <~ deconv (32 * c) (8 * c) 4 2 1 ;;
  up1 <~ deconv (16 * c) (4 * c) 4 2 1 ;;
  up2 <~ deconv (8 * c) (2 * c) 4 2 1 ;;
  up3 <~ deconv (4 * c) c 4 2 1 ;;
  conv <~ new_Conv2d c 16 3 1 1 1 true ;;
  unit_ (mk conv0 down0 down1 down2 down3 up0 up1 up2 up3 conv (PixelShuffle 2)).

Definition train (mode : bool) (self : t) : t :=
  mk (PyModule_train mode (conv0 self))
     (ResBlock.train mode (down0 self)) (ResBlock.train mode (down1 self))
     (ResBlock.train mode (down2 self)) (ResBlock.train mode (down3 self))
     (Sequential_train mode (up0 self)) (Sequential_train mode (up1 self))
     (Sequential_train mode (up2 self)) (Sequential_train mode (up3 self))
     (Layer_train mode (conv self)) (Layer_train mode (up4 self)).

Definition eval : t -> t := train false.

(** What [forward] returns: [x, warped_img0, warped_img1, warped_img0_gt,
    warped_img1_gt]. *)
Record output : Type := mkOutput {
  refine_output : Tensor;
  warped_img0 : Tensor;
  warped_img1 : Tensor;
  warped_img0_gt : option Tensor;
  warped_img1_gt : option Tensor
}.

Section Forward.
Context {numerics : Numerics}.

Definition forward (self : t) (img0 img1 flow : Tensor) (c0 c1 : list Tensor)
                   (flow_gt : option Tensor) : result output :=
  warped_img0 <- warp img0 flow ;;
  warped_img1 <- warp img1 (neg flow) ;;
  gt <- match flow_gt with
        | None => Ok (None, None)
        | Some flow_gt =>
            g0 <- warp img0 (slice_channels flow_gt 0 (Some 2)) ;;
            g1 <- warp img1 (slice_channels flow_gt 2 (Some 4)) ;;
            Ok (Some g0, Some g1)
        end ;;
  let '(warped_img0_gt, warped_img1_gt) := gt in
  i <- cat [warped_img0; warped_img1; flow] ;;
  x <- call (Some (conv0 self)) i ;;
  s0 <- ResBlock.forward (down0 self) x ;;
  c00 <- item c0 0 ;;
  c10 <- item c1 0 ;;
  i <- cat [s0; c00; c10] ;;
  s1 <- ResBlock.forward (down1 self) i ;;
  c01 <- item c0 1 ;;
  c11 <- item c1 1 ;;
  i <- cat [s1; c01; c11] ;;
  s2 <- ResBlock.forward (down2 self) i ;;
  c02 <- item c0 2 ;;
  c12 <- item c1 2 ;;
  i <- cat [s2; c02; c12] ;;
  s3 <- ResBlock.forward (down3 self) i ;;
  c03 <- item c0 3 ;;
  c13 <- item c1 3 ;;
  i <- cat [s3; c03; c13] ;;
  x <- run_seq (up0 self) i ;;
  i <- cat [x; s2] ;;
  x <- run_seq (up1 self) i ;;
  i <- cat [x; s1] ;;
  x <- run_seq (up2 self) i ;;
  i <- cat [x; s0] ;;
  x <- run_seq (up3 self) i ;;
  x <- run (conv self) x ;;
  x <- run (up4 self) x ;;
  Ok (mkOutput x warped_img0 warped_img1 warped_img0_gt warped_img1_gt).
End Forward.

End FusionNet.

(** ** RIFE *)

Module RIFE.

Record t : Type := mk {
  flownet : IFNet.t;
  contextnet : ContextNet.t;
  fusionnet : FusionNet.t
}.

(** The three sub-networks are put in evaluation mode; [.to(device)] changes
    neither the layers nor their shapes; the default [c = 32] of the two
    last sub-networks is written out. *)
Definition init (device : string) : Init t :=
  flownet <~ IFNet.init ;;
  contextnet <~ ContextNet.init 32 ;;
  fusionnet <~ FusionNet.init 32 ;;
  unit_ (mk (IFNet.eval flownet) (ContextNet.eval contextnet)
            (FusionNet.eval fusionnet)).

(** The two forms of the result of [forward]. *)
Inductive output : Type :=
| Training (pred mask merged_img warped_img0 warped_img1 : Tensor)
           (warped_img0_gt warped_img1_gt : option Tensor)
| Inference (pred : Tensor).

Section Forward.
Context {numerics : Numerics}.

(** An argument that is [None] stands for Python's [None]
    ([img0=None, img1=None, imgs=None, flow=None, flow_gt=None] are the
    defaults). *)
Definition forward (self : t) (img0 img1 imgs flow : option Tensor)
                   (training : bool) (flow_gt : option Tensor)
  : result output :=
  imgs <- match img0, img1 with
          | Some a, Some b => cat [a; b]
          | _, _ => Raise TypeError
          end ;;
  r <- IFNet.forward (flownet self) imgs ;;
  let flow := fst r in
  let img0 := slice_channels imgs 0 (Some 3) in
  let img1 := slice_channels imgs 3 None in
  c0 <- ContextNet.forward (contextnet self) img0 flow ;;
  c1 <- ContextNet.forward (contextnet self) img1 (neg flow) ;;
  flow <- interpolate flow (2 # 1) ;;
  let flow := mul_scalar flow 2%R in
  o <- FusionNet.forward (fusionnet self) img0 img1 flow c0 c1 flow_gt ;;
  let refine_output := FusionNet.refine_output o in
  let warped_img0 := FusionNet.warped_img0 o in
  let warped_img1 := FusionNet.warped_img1 o in
  let res := sub_scalar (mul_scalar (sigmoid (slice_channels refine_output 0 (Some 3))) 2%R) 1%R in
  let mask := sigmoid (slice_channels refine_output 3 (Some 4)) in
  a <- mul warped_img0 mask ;;
  b <- mul warped_img1 (rsub_scalar 1%R mask) ;;
  merged_img <- add a b ;;
  pred <- add merged_img res ;;
  let pred := clamp pred 0%R 1%R in
  if training
  then Ok (Training pred mask merged_img warped_img0 warped_img1
                    (FusionNet.warped_img0_gt o) (FusionNet.warped_img1_gt o))
  else Ok (Inference pred).
End Forward.

End RIFE.

(** * Vocabulary of the properties *)

(** The two modes the factory functions know. *)
Definition known_mode (mode : option string) : Prop :=
  mode = Some "rife"%string \/ mode = Some "ifnet"%string.

(** An index within a shape. *)
Definition inside (s : Shape) (n c h w : Z) : Prop :=
  0 <= n < batch s /\ 0 <= c < channels s /\
  0 <= h < height s /\ 0 <= w < width s.

(** A flow has the batch size and the resolution of the image it warps. *)
Definition matched (img flow : Tensor) : Prop :=
  batch (shape flow) = batch (shape img) /\
  height (shape flow) = height (shape img) /\
  width (shape flow) = width (shape img).

(** The sum of a non-empty list of tensors, taken from the left as Python
    evaluates [t0 + t1 + t2 + ...]. *)
Fixpoint sum_from (acc : Tensor) (ts : list Tensor) : result Tensor :=
  match ts with
  | [] => Ok acc
  | t :: r => s <- add acc t ;; sum_from s r
  end.

Definition sum_of (ts : list Tensor) : result Tensor :=
  match ts with
  | [] => Raise TypeError
  | t :: r => sum_from t r
  end.

(** The shapes of the four levels of a pyramid over an image of extents
    [32 h] and [32 w], for a network of width [c]. *)
Definition pyramid_shapes (fs : list Tensor) (N c h w : Z) : Prop :=
  exists f1 f2 f3 f4,
    fs = [f1; f2; f3; f4] /\
    shape f1 = mkShape N c (8 * h) (8 * w) /\
    shape f2 = mkShape N (2 * c) (4 * h) (4 * w) /\
    shape f3 = mkShape N (4 * c) (2 * h) (2 * w) /\
    shape f4 = mkShape N (8 * c) h w.

(** A ground-truth flow, when there is one, has the batch size and the
    resolution of the images. *)
Definition flow_gt_fits (flow_gt : option Tensor) (N H W : Z) : Prop :=
  match flow_gt with
  | None => True
  | Some g =>
      batch (shape g) = N /\ height (shape g) = H /\ width (shape g) = W
  end.

(** The prediction a result of [RIFE.forward] carries. *)
Definition prediction (o : RIFE.output) : Tensor :=
  match o with
  | RIFE.Training pred _ _ _ _ _ _ => pred
  | RIFE.Inference pred => pred
  end.

(** Whether a result is the seven-component one of training mode. *)
Definition is_training (o : RIFE.output) : bool :=
  match o with
  | RIFE.Training _ _ _ _ _ _ _ => true
  | RIFE.Inference _ => false
  end.

Section Vocabulary.

Context {numerics : Numerics}.

(** [i] is the concatenation of frame 0 of [x] warped by [F], frame 1 of [x]
    warped by [-F], and [F]. *)
Definition stage_input (x F i : Tensor) : Prop :=
  exists w0 w1,
    warp (slice_channels x 0 (Some 3)) F = Ok w0 /\
    warp (slice_channels x 3 None) (neg F) = Ok w1 /\
    cat [w0; w1; F] = Ok i.

(** [flow'] is [flow] resized bilinearly by the factor 0.5, with every entry
    multiplied by 0.5. *)
Definition halved (flow flow' : Tensor) : Prop :=
  exists g,
    interpolate flow (1 # 2) = Ok g /\
    shape flow' = shape g /\
    forall n c h w, data flow' n c h w = (data g n c h w * / 2)%R.

End Vocabulary.

(** ** Sample inputs *)

Definition zeros : Data := fun _ _ _ _ => 0%R.

(** Operations that return all-zero entries, with a [warp] that returns at
    the batch size and the resolution of the flow when they are not those of
    the image. *)
Definition zero_numerics : Numerics :=
  {| learned := fun _ _ => zeros;
     bilinear := fun _ _ => zeros;
     resample := fun _ _ => zeros;
     unmatched := fun _ flow => Some (shape flow) |}.

(** The all-zero tensor of a shape. *)
Definition blank (N C H W : Z) : Tensor := mkTensor (mkShape N C H W) zeros.

(** A blank context pyramid over a 32 x 32 image, for networks of width 32. *)
Definition blank_pyramid : list Tensor :=
  [blank 1 32 8 8; blank 1 64 4 4; blank 1 128 2 2; blank 1 256 1 1].

(** * Properties *)

(** ** The error monad *)

Lemma returns_bind {A B : Type} (m : result A) (k : A -> result B)
      (Q : A -> Prop) (P : B -> Prop) :
  returns m Q ->
  (forall a, m = Ok a -> Q a -> returns (k a) P) ->
  returns (bind m k) P.
Proof.
  destruct m as [a|e]; cbn; intros HQ Hk; [ apply Hk; auto | contradiction ].
Qed.

Lemma returns_ex {A : Type} (m : result A) (P : A -> Prop) :
  returns m P <-> exists a, m = Ok a /\ P a.
Proof.
  destruct m as [a|e]; cbn; split.
  - intros H; exists a; auto.
  - intros (b & E & H); congruence.
  - contradiction.
  - intros (b & E & _); discriminate.
Qed.

Lemma returns_weaken {A : Type} (m : result A) (P Q : A -> Prop) :
  returns m P -> (forall a, P a -> Q a) -> returns m Q.
Proof. destruct m; cbn; auto. Qed.

Lemma returns_eq {A : Type} (m : result A) (P : A -> Prop) (a : A) :
  returns m P -> m = Ok a -> P a.
Proof. intros H E; rewrite E in H; exact H. Qed.

Lemma bind_Ok {A B : Type} (m : result A) (k : A -> result B) (b : B) :
  bind m k = Ok b <-> exists a, m = Ok a /\ k a = Ok b.
Proof.
  destruct m as [a|e]; cbn; split.
  - intros H; exists a; auto.
  - intros (a' & E & H); congruence.
  - discriminate.
  - intros (a' & E & _); discriminate.
Qed.

(** One step of a successful run: [H : (x <- m ;; k) = Ok b] becomes
    [E : m = Ok v] and [H : k v = Ok b]. *)
Ltac bind_inv H :=
  let v := fresh "v" in
  let E := fresh "E" in
  apply bind_Ok in H; destruct H as (v & E & H); cbv beta in H.

(** ** Arithmetic of the output extents *)

Lemma conv_out_stride1 (len k p d : Z) :
  2 * p = d * (k - 1) -> conv_out len k 1 p d = len.
Proof. intros E. unfold conv_out. rewrite Z.div_1_r. lia. Qed.

Lemma conv_out_stride2 (a k p d : Z) :
  2 * p = d * (k - 1) -> conv_out (2 * a) k 2 p d = a.
Proof.
  intros E. unfold conv_out.
  replace (2 * a + 2 * p - d * (k - 1) - 1) with (1 + (a - 1) * 2) by lia.
  rewrite Z.div_add by lia. change (1 / 2) with 0. lia.
Qed.

Lemma conv_out_half (len a k p d : Z) :
  len = 2 * a -> 2 * p = d * (k - 1) -> conv_out len k 2 p d = a.
Proof. intros ->. apply conv_out_stride2. Qed.

Lemma conv_out_same_padding (len k st p d : Z) :
  2 * p = d * (k - 1) -> conv_out len k st p d = (len - 1) / st + 1.
Proof. intros E. unfold conv_out. do 2 f_equal. lia. Qed.

Lemma conv_out_pos (len k st p d : Z) :
  2 * p = d * (k - 1) -> 0 < st -> 1 <= len -> 1 <= conv_out len k st p d.
Proof.
  intros E Hst Hlen. rewrite conv_out_same_padding by exact E.
  assert (0 <= (len - 1) / st) by (apply Z.div_pos; lia). lia.
Qed.

Lemma deconv_out_double (len : Z) : deconv_out len 4 2 1 = 2 * len.
Proof. unfold deconv_out. lia. Qed.

Lemma resized_half (len : Z) : resized len (1 # 2) = len / 2.
Proof.
  unfold resized, Qfloor, Qmult, inject_Z; cbn [Qnum Qden].
  rewrite Z.mul_1_r. reflexivity.
Qed.

Lemma resized_half_even (a : Z) : resized (2 * a) (1 # 2) = a.
Proof. rewrite resized_half, Z.mul_comm. apply Z.div_mul. lia. Qed.

Lemma resized_half_of (len a : Z) : len = 2 * a -> resized len (1 # 2) = a.
Proof. intros ->. apply resized_half_even. Qed.

Lemma resized_times (len s : Z) : resized len (inject_Z s) = len * s.
Proof.
  unfold resized, Qfloor, Qmult, inject_Z; cbn [Qnum Qden].
  change (Z.pos (1 * 1)) with 1. apply Z.div_1_r.
Qed.

Lemma resized_double (len : Z) : resized len (2 # 1) = 2 * len.
Proof. change (2 # 1) with (inject_Z 2). rewrite resized_times. lia. Qed.

Lemma resized_over (a s : Z) :
  0 < s -> resized (s * a) (1 / inject_Z s) = a.
Proof.
  intros Hs. destruct s as [|p|p]; try lia.
  unfold resized, Qfloor, Qdiv, Qmult, Qinv, inject_Z; cbn [Qnum Qden].
  change (1 * 1) with 1. change (Z.pos (1 * (1 * p))) with (Z.pos p).
  rewrite Z.mul_1_r, Z.mul_comm. apply Z.div_mul. lia.
Qed.

(** ** Shapes of the primitive operations *)

Lemma broadcast_dim_same (a : Z) : broadcast_dim a a = Ok a.
Proof. unfold broadcast_dim. rewrite Z.eqb_refl. reflexivity. Qed.

Lemma broadcast_dim_one (a : Z) : broadcast_dim a 1 = Ok a.
Proof.
  unfold broadcast_dim. destruct (a =? 1) eqn:E.
  - apply Z.eqb_eq in E. subst a. reflexivity.
  - reflexivity.
Qed.

Lemma broadcast_same (s : Shape) : broadcast s s = Ok s.
Proof.
  destruct s as [n c h w]. unfold broadcast; cbn [batch channels height width].
  rewrite !broadcast_dim_same. reflexivity.
Qed.

(** A per-channel gate of extent 1 x 1 against a feature map. *)
Lemma broadcast_gate (n c h w : Z) :
  broadcast (mkShape n c h w) (mkShape n c 1 1) = Ok (mkShape n c h w).
Proof.
  unfold broadcast; cbn [batch channels height width].
  rewrite !broadcast_dim_same, !broadcast_dim_one. reflexivity.
Qed.

(** A one-channel mask against an image. *)
Lemma broadcast_mask (n c h w : Z) :
  broadcast (mkShape n c h w) (mkShape n 1 h w) = Ok (mkShape n c h w).
Proof.
  unfold broadcast; cbn [batch channels height width].
  rewrite !broadcast_dim_same, !broadcast_dim_one. reflexivity.
Qed.

Lemma pointwise2_returns (f : R -> R -> R) (x y : Tensor) (s : Shape) :
  broadcast (shape x) (shape y) = Ok s ->
  returns (pointwise2 f x y) (fun z => shape z = s).
Proof. intros E. unfold pointwise2. rewrite E. reflexivity. Qed.

Lemma cat2_returns (x y : Tensor) :
  batch (shape y) = batch (shape x) ->
  height (shape y) = height (shape x) ->
  width (shape y) = width (shape x) ->
  returns (cat2 x y)
    (fun z => shape z = mkShape (batch (shape x))
                                (channels (shape x) + channels (shape y))
                                (height (shape x)) (width (shape x))).
Proof.
  intros En Eh Ew. unfold cat2. rewrite En, Eh, Ew, !Z.eqb_refl. reflexivity.
Qed.

Lemma cat_pair_returns (x y : Tensor) :
  batch (shape y) = batch (shape x) ->
  height (shape y) = height (shape x) ->
  width (shape y) = width (shape x) ->
  returns (cat [x; y])
    (fun z => shape z = mkShape (batch (shape x))
                                (channels (shape x) + channels (shape y))
                                (height (shape x)) (width (shape x))).
Proof.
  intros En Eh Ew. cbn [cat cat_from].
  eapply returns_bind; [ apply cat2_returns; assumption | ].
  intros z _ Sz. exact Sz.
Qed.

Lemma cat_triple_returns (x y z : Tensor) :
  batch (shape y) = batch (shape x) ->
  height (shape y) = height (shape x) ->
  width (shape y) = width (shape x) ->
  batch (shape z) = batch (shape x) ->
  height (shape z) = height (shape x) ->
  width (shape z) = width (shape x) ->
  returns (cat [x; y; z])
    (fun t => shape t = mkShape (batch (shape x))
                                (channels (shape x) + channels (shape y)
                                 + channels (shape z))
                                (height (shape x)) (width (shape x))).
Proof.
  intros En Eh Ew En' Eh' Ew'. cbn [cat cat_from].
  eapply returns_bind; [ apply cat2_returns; assumption | ].
  intros xy _ Sxy.
  eapply returns_bind;
    [ apply cat2_returns; rewrite Sxy; cbn [batch height width]; assumption | ].
  intros t _ St. cbn [returns]. rewrite St, Sxy. reflexivity.
Qed.

Section Primitives.

Context {numerics : Numerics}.

Lemma run_shape (l : Layer) (x y : Tensor) :
  run l x = Ok y -> Layer_shape l (shape x) = Ok (shape y).
Proof.
  destruct l; cbn [run];
    try (intros H; bind_inv H; injection H as <-; assumption).
  intros [= <-]. reflexivity.
Qed.

Lemma run_returns (l : Layer) (x : Tensor) (s : Shape) :
  Layer_shape l (shape x) = Ok s -> returns (run l x) (fun y => shape y = s).
Proof.
  destruct l; cbn [run]; intros E; try (rewrite E; reflexivity).
  cbn in E. injection E as <-. reflexivity.
Qed.

Lemma run_Conv2d (p : nat) (cin cout k st pad d : Z) (b : bool) (x : Tensor) :
  channels (shape x) = cin -> 0 < st ->
  d * (k - 1) + 1 <= height (shape x) + 2 * pad ->
  d * (k - 1) + 1 <= width (shape x) + 2 * pad ->
  returns (run (Conv2d p cin cout k st pad d b) x)
    (fun y => shape y = mkShape (batch (shape x)) cout
                                (conv_out (height (shape x)) k st pad d)
                                (conv_out (width (shape x)) k st pad d)).
Proof.
  intros Ec Hst Hh Hw. apply run_returns. cbn [Layer_shape]. unfold kernel_fits.
  apply Z.eqb_eq in Ec. apply Z.ltb_lt in Hst.
  apply Z.leb_le in Hh. apply Z.leb_le in Hw.
  rewrite Ec, Hst, Hh, Hw. reflexivity.
Qed.

Lemma run_Conv2d_inv (p : nat) (cin cout k st pad d : Z) (b : bool) (x y : Tensor) :
  run (Conv2d p cin cout k st pad d b) x = Ok y ->
  channels (shape x) = cin /\ 0 < st /\
  d * (k - 1) + 1 <= height (shape x) + 2 * pad /\
  d * (k - 1) + 1 <= width (shape x) + 2 * pad.
Proof.
  intros H. apply run_shape in H. cbn [Layer_shape] in H. unfold kernel_fits in H.
  destruct (channels (shape x) =? cin) eqn:Ec; [ | discriminate ].
  destruct (0 <? st) eqn:Hst; [ | discriminate ].
  destruct (_ <=? height (shape x) + _) eqn:Hh; [ | discriminate ].
  destruct (_ <=? width (shape x) + _) eqn:Hw; [ | discriminate ].
  apply Z.eqb_eq in Ec. apply Z.ltb_lt in Hst.
  apply Z.leb_le in Hh. apply Z.leb_le in Hw. auto.
Qed.

Lemma run_ConvTranspose2d (p : nat) (cin cout k st pad : Z) (b : bool) (x : Tensor) :
  channels (shape x) = cin -> 0 < st ->
  0 < deconv_out (height (shape x)) k st pad ->
  0 < deconv_out (width (shape x)) k st pad ->
  returns (run (ConvTranspose2d p cin cout k st pad b) x)
    (fun y => shape y = mkShape (batch (shape x)) cout
                                (deconv_out (height (shape x)) k st pad)
                                (deconv_out (width (shape x)) k st pad)).
Proof.
  intros Ec Hst Hh Hw. apply run_returns. cbn [Layer_shape].
  apply Z.eqb_eq in Ec. apply Z.ltb_lt in Hst.
  apply Z.ltb_lt in Hh. apply Z.ltb_lt in Hw.
  rewrite Ec, Hst, Hh, Hw. reflexivity.
Qed.

Lemma run_BatchNorm2d (p : nat) (n : Z) (tr : bool) (x : Tensor) :
  channels (shape x) = n ->
  (tr = true ->
   batch (shape x) * (height (shape x) * width (shape x)) <> 1) ->
  returns (run (BatchNorm2d p n tr) x) (fun y => shape y = shape x).
Proof.
  intros Ec Hbn. apply run_returns. cbn [Layer_shape].
  apply Z.eqb_eq in Ec. rewrite Ec.
  destruct tr; [ | reflexivity ].
  apply Z.eqb_neq in Hbn; [ | reflexivity ]. rewrite Hbn. reflexivity.
Qed.

Lemma run_PReLU (p : nat) (n : Z) (x : Tensor) :
  n = 1 \/ channels (shape x) = n ->
  returns (run (PReLU p n) x) (fun y => shape y = shape x).
Proof.
  intros Ec. apply run_returns. cbn [Layer_shape].
  replace ((n =? 1) || (channels (shape x) =? n))%bool with true; [ reflexivity | ].
  symmetry. apply orb_true_iff. rewrite !Z.eqb_eq. exact Ec.
Qed.

Lemma run_PixelShuffle (r : Z) (x : Tensor) :
  0 < r -> channels (shape x) mod (r * r) = 0 ->
  returns (run (PixelShuffle r) x)
    (fun y => shape y = mkShape (batch (shape x)) (channels (shape x) / (r * r))
                                (height (shape x) * r) (width (shape x) * r)).
Proof.
  intros Hr Ec. apply run_returns. cbn [Layer_shape].
  apply Z.ltb_lt in Hr. apply Z.eqb_eq in Ec. rewrite Hr, Ec. reflexivity.
Qed.

Lemma interpolate_returns (x : Tensor) (s : Q) :
  0 < channels (shape x) ->
  0 < height (shape x) -> 0 < width (shape x) ->
  0 < resized (height (shape x)) s -> 0 < resized (width (shape x)) s ->
  returns (interpolate x s)
    (fun y => shape y = mkShape (batch (shape x)) (channels (shape x))
                                (resized (height (shape x)) s)
                                (resized (width (shape x)) s)).
Proof.
  intros Hc Hh Hw Hh' Hw'. unfold interpolate.
  apply Z.ltb_lt in Hc, Hh, Hw, Hh', Hw'.
  rewrite Hc, Hh, Hw, Hh', Hw'. reflexivity.
Qed.

Lemma interpolate_inv (x y : Tensor) (s : Q) :
  interpolate x s = Ok y ->
  shape y = mkShape (batch (shape x)) (channels (shape x))
                    (resized (height (shape x)) s)
                    (resized (width (shape x)) s) /\
  y = mkTensor (shape y) (bilinear s x).
Proof.
  unfold interpolate. destruct (_ && _)%bool; [ | discriminate ].
  intros [= <-]. split; reflexivity.
Qed.

Lemma warp_returns (img flow : Tensor) :
  batch (shape flow) = batch (shape img) ->
  height (shape flow) = height (shape img) ->
  width (shape flow) = width (shape img) ->
  returns (warp img flow) (fun y => shape y = shape img).
Proof.
  intros En Eh Ew. unfold warp. rewrite En, Eh, Ew, !Z.eqb_refl. reflexivity.
Qed.

(** Whatever [warp] returns has the channels of the image. *)
Lemma warp_inv (img flow y : Tensor) :
  warp img flow = Ok y -> channels (shape y) = channels (shape img).
Proof.
  unfold warp. destruct (_ && _)%bool.
  - intros [= <-]. reflexivity.
  - destruct (unmatched img flow); [ | discriminate ].
    intros [= <-]. reflexivity.
Qed.

(** On matching inputs it has the shape of the image. *)
Lemma warp_matched (img flow y : Tensor) :
  batch (shape flow) = batch (shape img) ->
  height (shape flow) = height (shape img) ->
  width (shape flow) = width (shape img) ->
  warp img flow = Ok y -> shape y = shape img.
Proof.
  intros En Eh Ew E.
  exact (returns_eq _ _ _ (warp_returns img flow En Eh Ew) E).
Qed.

End Primitives.

(** ** Tactics for runs of [forward] *)

(** Rewrites the shapes already known into [Sy]. *)
Ltac known_shapes_in Sy :=
  repeat progress
    (cbn [batch channels height width shape neg pointwise sigmoid mean2 mean3
          mul_scalar sub_scalar rsub_scalar clamp slice_channels] in Sy;
     repeat match goal with
            | H : shape ?x = _ |- _ =>
                lazymatch H with
                | Sy => fail
                | _ => rewrite H in Sy
                end
            end).

Ltac known_shapes :=
  repeat progress
    (cbn [batch channels height width shape neg pointwise sigmoid mean2 mean3
          mul_scalar sub_scalar rsub_scalar clamp slice_channels];
     repeat match goal with
            | H : shape ?x = _ |- _ => rewrite H
            end).

Ltac side :=
  known_shapes;
  try reflexivity; try lia;
  try apply broadcast_same; try apply broadcast_gate; try apply broadcast_mask;
  try (f_equal; lia);
  try (intros; discriminate);
  try (intros _; assumption);
  auto.

(** The next operation succeeds by [lem]; its value is [y], with [Ey] the
    equation of the run and [Sy] its shape. *)
Ltac next lem y Ey Sy :=
  eapply returns_bind;
  [ eapply lem; side
  | cbv beta; intros y Ey Sy; known_shapes_in Sy; cbn [bind item nth_error] ].

(** Unfolds a constructor applied to a parameter counter. *)
Ltac init_eq E :=
  cbv [ResBlock.init then_ unit_ fresh conv conv_woact deconv
       new_Conv2d new_ConvTranspose2d new_PReLU new_BatchNorm2d mode_is] in E;
  cbn [String.eqb Ascii.eqb Bool.eqb] in E.

(** ** The blocks the factory functions build *)

Section Blocks.

Context {numerics : Numerics}.

Lemma conv_rife_returns (p q : nat) (cin cout k st pad d : Z) (x : Tensor) :
  channels (shape x) = cin -> 0 < st ->
  d * (k - 1) + 1 <= height (shape x) + 2 * pad ->
  d * (k - 1) + 1 <= width (shape x) + 2 * pad ->
  returns (run_seq [Conv2d p cin cout k st pad d true; PReLU q cout] x)
    (fun y => shape y = mkShape (batch (shape x)) cout
                                (conv_out (height (shape x)) k st pad d)
                                (conv_out (width (shape x)) k st pad d)).
Proof.
  intros Ec Hst Hh Hw. cbn [run_seq].
  next run_Conv2d y Ey Sy.
  next run_PReLU z Ez Sz.
  exact Sz.
Qed.

Lemma conv_ifnet_returns (p q r : nat) (cin cout k st pad d : Z) (tr : bool)
      (x : Tensor) :
  channels (shape x) = cin -> 0 < st ->
  d * (k - 1) + 1 <= height (shape x) + 2 * pad ->
  d * (k - 1) + 1 <= width (shape x) + 2 * pad ->
  (tr = true ->
   batch (shape x) * (conv_out (height (shape x)) k st pad d
                      * conv_out (width (shape x)) k st pad d) <> 1) ->
  returns (run_seq [Conv2d p cin cout k st pad d false; BatchNorm2d q cout tr;
                    PReLU r cout] x)
    (fun y => shape y = mkShape (batch (shape x)) cout
                                (conv_out (height (shape x)) k st pad d)
                                (conv_out (width (shape x)) k st pad d)).
Proof.
  intros Ec Hst Hh Hw Hbn. cbn [run_seq].
  next run_Conv2d y Ey Sy.
  next run_BatchNorm2d z Ez Sz.
  next run_PReLU t Et St.
  exact St.
Qed.

Lemma conv_woact_rife_returns (p : nat) (cin cout k st pad d : Z) (x : Tensor) :
  channels (shape x) = cin -> 0 < st ->
  d * (k - 1) + 1 <= height (shape x) + 2 * pad ->
  d * (k - 1) + 1 <= width (shape x) + 2 * pad ->
  returns (run_seq [Conv2d p cin cout k st pad d true] x)
    (fun y => shape y = mkShape (batch (shape x)) cout
                                (conv_out (height (shape x)) k st pad d)
                                (conv_out (width (shape x)) k st pad d)).
Proof.
  intros Ec Hst Hh Hw. cbn [run_seq].
  next run_Conv2d y Ey Sy.
  exact Sy.
Qed.

Lemma conv_woact_ifnet_returns (p q : nat) (cin cout k st pad d : Z) (tr : bool)
      (x : Tensor) :
  channels (shape x) = cin -> 0 < st ->
  d * (k - 1) + 1 <= height (shape x) + 2 * pad ->
  d * (k - 1) + 1 <= width (shape x) + 2 * pad ->
  (tr = true ->
   batch (shape x) * (conv_out (height (shape x)) k st pad d
                      * conv_out (width (shape x)) k st pad d) <> 1) ->
  returns (run_seq [Conv2d p cin cout k st pad d false; BatchNorm2d q cout tr] x)
    (fun y => shape y = mkShape (batch (shape x)) cout
                                (conv_out (height (shape x)) k st pad d)
                                (conv_out (width (shape x)) k st pad d)).
Proof.
  intros Ec Hst Hh Hw Hbn. cbn [run_seq].
  next run_Conv2d y Ey Sy.
  next run_BatchNorm2d z Ez Sz.
  exact Sz.
Qed.

Lemma deconv_returns (p q : nat) (cin cout : Z) (x : Tensor) :
  channels (shape x) = cin ->
  0 < height (shape x) -> 0 < width (shape x) ->
  returns (run_seq [ConvTranspose2d p cin cout 4 2 1 true; PReLU q cout] x)
    (fun y => shape y = mkShape (batch (shape x)) cout
                                (2 * height (shape x)) (2 * width (shape x))).
Proof.
  intros Ec Hh Hw. cbn [run_seq].
  next run_ConvTranspose2d y Ey Sy; try (rewrite deconv_out_double; lia).
  rewrite !deconv_out_double in Sy.
  next run_PReLU z Ez Sz.
  exact Sz.
Qed.

(** What the first layer of a block checks, read off a successful run. *)
Lemma run_seq_Conv2d_inv (p : nat) (cin cout k st pad d : Z) (b : bool)
      (rest : Sequential) (x y : Tensor) :
  run_seq (Conv2d p cin cout k st pad d b :: rest) x = Ok y ->
  channels (shape x) = cin /\ 0 < st /\
  d * (k - 1) + 1 <= height (shape x) + 2 * pad /\
  d * (k - 1) + 1 <= width (shape x) + 2 * pad.
Proof.
  cbn [run_seq]. intros H. bind_inv H. eapply run_Conv2d_inv. eassumption.
Qed.

End Blocks.

(** ** ResBlock *)

Section ResBlockShapes.

Context {numerics : Numerics}.

Lemma run_Identity (x : Tensor) : returns (run Identity x) (fun y => y = x).
Proof. reflexivity. Qed.

(** The channel gate, the sum with the shortcut and the last activation. *)
Ltac gate_and_sum :=
  let w1 := fresh "w" in let Ew1 := fresh "Ew" in let Sw1 := fresh "Sw" in
  next run_Conv2d w1 Ew1 Sw1; change (conv_out 1 1 1 0 1) with 1 in Sw1;
  let w2 := fresh "w" in let Ew2 := fresh "Ew" in let Sw2 := fresh "Sw" in
  next run_PReLU w2 Ew2 Sw2;
  let w3 := fresh "w" in let Ew3 := fresh "Ew" in let Sw3 := fresh "Sw" in
  next run_Conv2d w3 Ew3 Sw3; change (conv_out 1 1 1 0 1) with 1 in Sw3;
  let xw := fresh "xw" in let Exw := fresh "Exw" in let Sxw := fresh "Sxw" in
  next pointwise2_returns xw Exw Sxw;
  let s := fresh "s" in let Es := fresh "Es" in let Ss := fresh "Ss" in
  next pointwise2_returns s Es Ss;
  let y := fresh "y" in let Ey := fresh "Ey" in let Sy := fresh "Sy" in
  eapply returns_weaken; [ eapply run_PReLU; side | ];
  cbv beta; intros y Sy; known_shapes_in Sy; exact Sy.

(** A block built with a known mode, in either mode of operation, maps
    [cin] channels to [cout] channels and divides the resolution by its
    stride; in training mode the batch normalisations of mode 'ifnet' need
    more than one value per channel. *)
Lemma ResBlock_forward_returns (cin cout st : Z) (mode : option string)
      (n n' : nat) (self : ResBlock.t) (tr : bool) (x : Tensor) :
  known_mode mode ->
  ResBlock.init cin cout st mode n = (self, n') ->
  channels (shape x) = cin -> 0 < st ->
  1 <= height (shape x) -> 1 <= width (shape x) ->
  (mode = Some "ifnet"%string -> tr = true ->
   batch (shape x) * (conv_out (height (shape x)) 3 st 1 1
                      * conv_out (width (shape x)) 3 st 1 1) <> 1) ->
  returns (ResBlock.forward (ResBlock.train tr self) x)
    (fun y => shape y = mkShape (batch (shape x)) cout
                                (conv_out (height (shape x)) 3 st 1 1)
                                (conv_out (width (shape x)) 3 st 1 1)).
Proof.
  intros Hm E Ec Hst Hh Hw Hbn.
  destruct (shape x) as [N C H W] eqn:Sx. cbn [batch channels height width] in *.
  subst C.
  assert (Hh' : 1 <= conv_out H 3 st 1 1) by (apply conv_out_pos; lia).
  assert (Hw' : 1 <= conv_out W 3 st 1 1) by (apply conv_out_pos; lia).
  assert (E5 : forall len, conv_out len 5 st 2 1 = conv_out len 3 st 1 1)
    by (intros len; rewrite !conv_out_same_padding by lia; reflexivity).
  unfold ResBlock.forward.
  destruct Hm as [-> | ->]; init_eq E;
    destruct ((cin =? cout) && (st =? 1))%bool eqn:Eid;
    injection E as <- <-;
    cbn [ResBlock.train Layer_train PyModule_train Sequential_train option_map
         List.map ResBlock.conv0 ResBlock.conv1 ResBlock.conv2 ResBlock.relu1
         ResBlock.relu2 ResBlock.fc1 ResBlock.fc2 call];
    try (apply andb_true_iff in Eid; destruct Eid as [Eio Est];
         apply Z.eqb_eq in Eio, Est; subst cout st;
         rewrite !(conv_out_stride1 _ 3 1 1) in * by lia).
  - next run_Identity y Ey Sy. subst y.
    next conv_rife_returns x1 Ex1 Sx1.
    rewrite !(conv_out_stride1 _ 3 1 1) in Sx1 by lia.
    next conv_woact_rife_returns x2 Ex2 Sx2.
    rewrite !(conv_out_stride1 _ 3 1 1) in Sx2 by lia.
    gate_and_sum.
  - next run_Conv2d y Ey Sy.
    next conv_rife_returns x1 Ex1 Sx1.
    next conv_woact_rife_returns x2 Ex2 Sx2.
    rewrite !(conv_out_stride1 _ 3 1 1) in Sx2 by lia.
    gate_and_sum.
  - specialize (Hbn eq_refl).
    next run_Identity y Ey Sy. subst y.
    next conv_ifnet_returns x1 Ex1 Sx1;
      [ rewrite !(conv_out_stride1 _ 5 2 1) by lia; exact Hbn | ].
    rewrite !(conv_out_stride1 _ 5 2 1) in Sx1 by lia.
    next conv_woact_ifnet_returns x2 Ex2 Sx2;
      [ rewrite !(conv_out_stride1 _ 3 1 1) by lia; exact Hbn | ].
    rewrite !(conv_out_stride1 _ 3 1 1) in Sx2 by lia.
    gate_and_sum.
  - specialize (Hbn eq_refl).
    next run_Conv2d y Ey Sy.
    next conv_ifnet_returns x1 Ex1 Sx1; [ rewrite !E5; exact Hbn | ].
    rewrite !E5 in Sx1.
    next conv_woact_ifnet_returns x2 Ex2 Sx2;
      [ rewrite !(conv_out_stride1 _ 3 1 1) by lia; exact Hbn | ].
    rewrite !(conv_out_stride1 _ 3 1 1) in Sx2 by lia.
    gate_and_sum.
Qed.

(** What a successful run of a block says about its input. *)
Lemma ResBlock_forward_input (cin cout st : Z) (mode : option string)
      (n n' : nat) (self : ResBlock.t) (tr : bool) (x y : Tensor) :
  known_mode mode ->
  ResBlock.init cin cout st mode n = (self, n') ->
  ResBlock.forward (ResBlock.train tr self) x = Ok y ->
  channels (shape x) = cin /\ 0 < st /\
  1 <= height (shape x) /\ 1 <= width (shape x).
Proof.
  intros Hm E Hrun. unfold ResBlock.forward in Hrun.
  bind_inv Hrun. bind_inv Hrun. clear Hrun E0.
  destruct Hm as [-> | ->]; init_eq E;
    destruct ((cin =? cout) && (st =? 1))%bool;
    injection E as <- <-;
    cbn [ResBlock.train PyModule_train Sequential_train option_map List.map
         Layer_train ResBlock.conv1 call] in E1;
    apply run_seq_Conv2d_inv in E1; lia.
Qed.

(** The shape of the result of every successful run of a block of mode
    'rife', which has no batch normalisation. *)
Lemma ResBlock_forward_shape (cin cout st : Z) (n n' : nat)
      (self : ResBlock.t) (tr : bool) (x y : Tensor) :
  ResBlock.init cin cout st (Some "rife"%string) n = (self, n') ->
  ResBlock.forward (ResBlock.train tr self) x = Ok y ->
  shape y = mkShape (batch (shape x)) cout
                    (conv_out (height (shape x)) 3 st 1 1)
                    (conv_out (width (shape x)) 3 st 1 1).
Proof.
  intros E Hrun.
  assert (Hm : known_mode (Some "rife"%string)) by (left; reflexivity).
  destruct (ResBlock_forward_input _ _ _ _ _ _ _ _ _ _ Hm E Hrun)
    as (Ec & Hst & Hh & Hw).
  refine (returns_eq _ _ _
            (ResBlock_forward_returns _ _ _ _ _ _ _ tr _ Hm E Ec Hst Hh Hw _)
            Hrun).
  discriminate.
Qed.

(** On what [__init__] builds, [train(True)] changes nothing. *)
Lemma ResBlock_train_true (cin cout st : Z) (mode : option string)
      (n n' : nat) (self : ResBlock.t) :
  ResBlock.init cin cout st mode n = (self, n') ->
  ResBlock.train true self = self.
Proof.
  intros E. init_eq E.
  destruct ((cin =? cout) && (st =? 1))%bool;
    destruct mode as [m|]; cbn [mode_is] in E;
    try (destruct (String.eqb m "rife"); [ | destruct (String.eqb m "ifnet") ]);
    injection E as <- <-; reflexivity.
Qed.

(** A block of mode 'rife' has no batch normalisation: it is the same in
    training and in evaluation mode. *)
Lemma ResBlock_rife_train (cin cout st : Z) (n n' : nat) (self : ResBlock.t)
      (tr : bool) :
  ResBlock.init cin cout st (Some "rife"%string) n = (self, n') ->
  ResBlock.train tr self = self.
Proof.
  intros E. init_eq E.
  destruct ((cin =? cout) && (st =? 1))%bool;
    injection E as <- <-; reflexivity.
Qed.

End ResBlockShapes.

(** [known_mode] of the two literal modes. *)
Lemma known_rife : known_mode (Some "rife"%string).
Proof. left; reflexivity. Qed.

Lemma known_ifnet : known_mode (Some "ifnet"%string).
Proof. right; reflexivity. Qed.

(** Names the blocks that a constructor builds by [ResBlock.init]. *)
Ltac name_blocks E :=
  repeat match type of E with
         | context [ResBlock.init ?a ?b ?c ?d ?n] =>
             let r := fresh "r" in
             let k := fresh "k" in
             let R := fresh "Rb" in
             destruct (ResBlock.init a b c d n) as [r k] eqn:R
         end.

Section BlockCorollaries.

Context {numerics : Numerics}.

(** Mode 'ifnet', stride 1: the resolution is kept. *)
Lemma ResBlock_ifnet_stride1 (cin cout : Z) (n n' : nat) (self : ResBlock.t) :
  ResBlock.init cin cout 1 (Some "ifnet"%string) n = (self, n') ->
  forall (tr : bool) (x : Tensor),
  channels (shape x) = cin ->
  1 <= height (shape x) -> 1 <= width (shape x) ->
  (tr = true ->
   batch (shape x) * (height (shape x) * width (shape x)) <> 1) ->
  returns (ResBlock.forward (ResBlock.train tr self) x)
    (fun y => shape y = mkShape (batch (shape x)) cout
                                (height (shape x)) (width (shape x))).
Proof.
  intros E tr x Ec Hh Hw Hbn.
  eapply returns_weaken;
    [ eapply ResBlock_forward_returns; eauto using known_ifnet; try lia | ].
  - intros _. rewrite !(conv_out_stride1 _ 3 1 1) by lia. exact Hbn.
  - cbv beta. intros y Sy.
    rewrite !(conv_out_stride1 _ 3 1 1) in Sy by lia. exact Sy.
Qed.

(** Mode 'rife', stride 2, even extents: the resolution is halved. *)
Lemma ResBlock_rife_stride2 (cin cout : Z) (n n' : nat) (self : ResBlock.t) :
  ResBlock.init cin cout 2 (Some "rife"%string) n = (self, n') ->
  forall (tr : bool) (a b : Z) (x : Tensor),
  channels (shape x) = cin ->
  height (shape x) = 2 * a -> width (shape x) = 2 * b ->
  0 < a -> 0 < b ->
  returns (ResBlock.forward (ResBlock.train tr self) x)
    (fun y => shape y = mkShape (batch (shape x)) cout a b).
Proof.
  intros E tr a b x Ec Eh Ew Ha Hb.
  eapply returns_weaken;
    [ eapply ResBlock_forward_returns; eauto using known_rife; try lia;
      discriminate | ].
  cbv beta. intros y Sy.
  rewrite Eh, Ew, !(conv_out_stride2 _ 3 1 1) in Sy by lia. exact Sy.
Qed.

(** ** IFBlock *)

(** On an input whose extents are multiples of twice the scale, a block
    returns a two-channel flow of the resolution of its input. *)
Lemma IFBlock_forward_returns (cin s c : Z) (n n' : nat) (self : IFBlock.t) :
  IFBlock.init cin s c n = (self, n') ->
  forall (tr : bool) (a b : Z) (x : Tensor),
  0 < cin -> 0 < s -> 0 < a -> 0 < b ->
  channels (shape x) = cin ->
  height (shape x) = s * (2 * a) ->
  width (shape x) = s * (2 * b) ->
  (tr = true -> batch (shape x) * (a * b) <> 1) ->
  returns (IFBlock.forward (IFBlock.train tr self) x)
    (fun y => shape y = mkShape (batch (shape x)) 2
                                (height (shape x)) (width (shape x))).
Proof.
  intros E tr a b x Hcin Hs Ha Hb Ec Eh Ew Hbn.
  destruct (shape x) as [N C H W] eqn:Sx. cbn [batch channels height width] in *.
  subst C H W.
  cbv [IFBlock.init then_ unit_ fresh conv new_Conv2d new_PReLU
       new_BatchNorm2d mode_is] in E.
  cbn [String.eqb Ascii.eqb Bool.eqb] in E.
  name_blocks E. injection E as <- <-.
  unfold IFBlock.forward.
  cbn [IFBlock.train PyModule_train Sequential_train option_map List.map
       Layer_train IFBlock.scale IFBlock.conv0 IFBlock.res0 IFBlock.res1
       IFBlock.res2 IFBlock.res3 IFBlock.res4 IFBlock.res5 IFBlock.conv1
       IFBlock.up call].
  eapply returns_bind with
    (Q := fun y => shape y = mkShape N cin (2 * a) (2 * b)).
  { destruct (s =? 1) eqn:Es; cbn [negb].
    - apply Z.eqb_eq in Es. subst s. cbn [returns]. rewrite Sx. f_equal; lia.
    - replace (s =? 0) with false by (symmetry; apply Z.eqb_neq; lia).
      eapply returns_weaken;
        [ apply interpolate_returns; rewrite Sx;
          cbn [channels height width];
          rewrite ?resized_over by lia; lia | ].
      cbv beta. intros y Sy. rewrite Sx in Sy.
      cbn [batch channels height width] in Sy.
      rewrite !resized_over in Sy by lia. exact Sy. }
  cbv beta. intros x0 Ex0 Sx0.
  next conv_ifnet_returns x1 Ex1 Sx1;
    [ rewrite !conv_out_stride2 by lia; exact Hbn | ].
  rewrite !conv_out_stride2 in Sx1 by lia.
  next (ResBlock_ifnet_stride1 _ _ _ _ _ Rb tr) x2 Ex2 Sx2.
  next (ResBlock_ifnet_stride1 _ _ _ _ _ Rb0 tr) x3 Ex3 Sx3.
  next (ResBlock_ifnet_stride1 _ _ _ _ _ Rb1 tr) x4 Ex4 Sx4.
  next (ResBlock_ifnet_stride1 _ _ _ _ _ Rb2 tr) x5 Ex5 Sx5.
  next (ResBlock_ifnet_stride1 _ _ _ _ _ Rb3 tr) x6 Ex6 Sx6.
  next (ResBlock_ifnet_stride1 _ _ _ _ _ Rb4 tr) x7 Ex7 Sx7.
  next run_Conv2d x8 Ex8 Sx8. rewrite !(conv_out_stride1 _ 3 1 1) in Sx8 by lia.
  next run_PixelShuffle flow Eflow Sflow. change (8 / (2 * 2)) with 2 in Sflow.
  destruct (s =? 1) eqn:Es; cbn [negb].
  - apply Z.eqb_eq in Es. subst s. cbn [returns]. rewrite Sflow. f_equal; lia.
  - eapply returns_weaken;
      [ apply interpolate_returns; rewrite Sflow;
        cbn [channels height width];
        rewrite ?resized_times; nia | ].
    cbv beta. intros y Sy. rewrite Sflow in Sy.
    cbn [batch channels height width] in Sy.
    rewrite !resized_times in Sy. rewrite Sy. f_equal; lia.
Qed.

(** On what [__init__] builds, [train(True)] changes nothing. *)
Lemma IFBlock_train_true (cin s c : Z) (n n' : nat) (self : IFBlock.t) :
  IFBlock.init cin s c n = (self, n') -> IFBlock.train true self = self.
Proof.
  intros E.
  cbv [IFBlock.init then_ unit_ fresh conv new_Conv2d new_PReLU
       new_BatchNorm2d mode_is] in E.
  cbn [String.eqb Ascii.eqb Bool.eqb] in E.
  name_blocks E. injection E as <- <-.
  unfold IFBlock.train.
  cbn [IFBlock.scale IFBlock.conv0 IFBlock.res0 IFBlock.res1 IFBlock.res2
       IFBlock.res3 IFBlock.res4 IFBlock.res5 IFBlock.conv1 IFBlock.up].
  rewrite (ResBlock_train_true _ _ _ _ _ _ _ Rb),
    (ResBlock_train_true _ _ _ _ _ _ _ Rb0),
    (ResBlock_train_true _ _ _ _ _ _ _ Rb1),
    (ResBlock_train_true _ _ _ _ _ _ _ Rb2),
    (ResBlock_train_true _ _ _ _ _ _ _ Rb3),
    (ResBlock_train_true _ _ _ _ _ _ _ Rb4).
  reflexivity.
Qed.

(** In training mode the first block of the flow estimator raises on a single
    16 x 16 frame pair: its first convolution leaves one value per channel,
    which the batch normalisation refuses. *)
Lemma IFBlock_training_raises (n n' : nat) (self : IFBlock.t) (x : Tensor) :
  IFBlock.init 6 8 192 n = (self, n') ->
  shape x = mkShape 1 6 16 16 ->
  IFBlock.forward (IFBlock.train true self) x = Raise ValueError.
Proof.
  intros E Sx.
  cbv [IFBlock.init then_ unit_ fresh conv new_Conv2d new_PReLU
       new_BatchNorm2d mode_is] in E.
  cbn [String.eqb Ascii.eqb Bool.eqb] in E.
  name_blocks E. injection E as <- <-.
  destruct x as [sh d]. cbn [shape] in Sx. subst sh.
  reflexivity.
Qed.

End BlockCorollaries.

(** ** IFNet *)

Ltac name_ifblocks E :=
  repeat match type of E with
         | context [IFBlock.init ?a ?b ?c ?n] =>
             let r := fresh "blk" in
             let k := fresh "k" in
             let R := fresh "B" in
             destruct (IFBlock.init a b c n) as [r k] eqn:R
         end.

Section IFNetShapes.

Context {numerics : Numerics}.

(** On a frame pair whose extents are multiples of 32 the cascade runs
    through and returns a two-channel flow at half the resolution. *)
Lemma IFNet_forward_returns (n n' : nat) (self : IFNet.t) :
  IFNet.init n = (self, n') ->
  forall (tr : bool) (N h w : Z) (x : Tensor),
  0 < h -> 0 < w ->
  shape x = mkShape N 6 (32 * h) (32 * w) ->
  (tr = true -> N * (h * w) <> 1) ->
  returns (IFNet.forward (IFNet.train tr self) x)
    (fun r => shape (fst r) = mkShape N 2 (16 * h) (16 * w)).
Proof.
  intros E tr N h w x Hh Hw Sx Hbn.
  cbv [IFNet.init then_ unit_] in E. name_ifblocks E. injection E as <- <-.
  unfold IFNet.forward.
  cbn [IFNet.train IFNet.block0 IFNet.block1 IFNet.block2 IFNet.block3].
  next interpolate_returns x' Ex' Sx';
    try (rewrite resized_half; Z.div_mod_to_equations; lia).
  rewrite (resized_half_of _ (16 * h)), (resized_half_of _ (16 * w)) in Sx' by lia.
  next (IFBlock_forward_returns _ _ _ _ _ _ B tr h w) flow0 Ef0 Sf0.
  next warp_returns w0 Ew0 Sw0.
  next warp_returns w1 Ew1 Sw1.
  next cat_triple_returns i1 Ei1 Si1.
  next (IFBlock_forward_returns _ _ _ _ _ _ B0 tr (2 * h) (2 * w)) flow1 Ef1 Sf1.
  next pointwise2_returns F2 EF2 SF2.
  next warp_returns w2 Ew2 Sw2.
  next warp_returns w3 Ew3 Sw3.
  next cat_triple_returns i2 Ei2 Si2.
  next (IFBlock_forward_returns _ _ _ _ _ _ B1 tr (4 * h) (4 * w)) flow2 Ef2 Sf2.
  next pointwise2_returns s01 Es01 Ss01.
  next pointwise2_returns F3 EF3 SF3.
  next warp_returns w4 Ew4 Sw4.
  next warp_returns w5 Ew5 Sw5.
  next cat_triple_returns i3 Ei3 Si3.
  next (IFBlock_forward_returns _ _ _ _ _ _ B2 tr (8 * h) (8 * w)) flow3 Ef3 Sf3.
  next pointwise2_returns s01' Es01' Ss01'.
  next pointwise2_returns s012 Es012 Ss012.
  next pointwise2_returns F4 EF4 SF4.
  exact SF4.
Qed.

(** On what [__init__] builds, [train(True)] changes nothing. *)
Lemma IFNet_train_true (n n' : nat) (self : IFNet.t) :
  IFNet.init n = (self, n') -> IFNet.train true self = self.
Proof.
  intros E.
  cbv [IFNet.init then_ unit_] in E. name_ifblocks E. injection E as <- <-.
  unfold IFNet.train.
  cbn [IFNet.block0 IFNet.block1 IFNet.block2 IFNet.block3].
  rewrite (IFBlock_train_true _ _ _ _ _ _ B), (IFBlock_train_true _ _ _ _ _ _ B0),
    (IFBlock_train_true _ _ _ _ _ _ B1), (IFBlock_train_true _ _ _ _ _ _ B2).
  reflexivity.
Qed.

End IFNetShapes.

(** ** ContextNet *)

Section ContextNetShapes.

Context {numerics : Numerics}.

Lemma ContextNet_forward_returns (c : Z) (n n' : nat) (self : ContextNet.t) :
  ContextNet.init c n = (self, n') ->
  forall (tr : bool) (N Cf h w : Z) (x flow : Tensor),
  0 < h -> 0 < w -> 0 < Cf ->
  shape x = mkShape N 3 (32 * h) (32 * w) ->
  shape flow = mkShape N Cf (16 * h) (16 * w) ->
  returns (ContextNet.forward (ContextNet.train tr self) x flow)
    (fun fs => pyramid_shapes fs N c h w).
Proof.
  intros E tr N Cf h w x flow Hh Hw HCf Sx Sflow.
  cbv [ContextNet.init then_ unit_ fresh conv new_Conv2d new_PReLU mode_is] in E.
  cbn [String.eqb Ascii.eqb Bool.eqb] in E.
  name_blocks E. injection E as <- <-.
  unfold ContextNet.forward.
  cbn [ContextNet.train PyModule_train Sequential_train option_map List.map
       Layer_train ContextNet.conv0 ContextNet.conv1 ContextNet.conv2
       ContextNet.conv3 ContextNet.conv4 call].
  next conv_rife_returns x0 Ex0 Sx0.
  rewrite (conv_out_half _ (16 * h)), (conv_out_half _ (16 * w)) in Sx0 by lia.
  next (ResBlock_rife_stride2 _ _ _ _ _ Rb tr (8 * h) (8 * w)) x1 Ex1 Sx1.
  next interpolate_returns g1 Eg1 Sg1;
    try (rewrite resized_half; Z.div_mod_to_equations; lia).
  rewrite (resized_half_of _ (8 * h)), (resized_half_of _ (8 * w)) in Sg1 by lia.
  next warp_returns f1 Ef1 Sf1.
  next (ResBlock_rife_stride2 _ _ _ _ _ Rb0 tr (4 * h) (4 * w)) x2 Ex2 Sx2.
  next interpolate_returns g2 Eg2 Sg2;
    try (rewrite resized_half; Z.div_mod_to_equations; lia).
  rewrite (resized_half_of _ (4 * h)), (resized_half_of _ (4 * w)) in Sg2 by lia.
  next warp_returns f2 Ef2 Sf2.
  next (ResBlock_rife_stride2 _ _ _ _ _ Rb1 tr (2 * h) (2 * w)) x3 Ex3 Sx3.
  next interpolate_returns g3 Eg3 Sg3;
    try (rewrite resized_half; Z.div_mod_to_equations; lia).
  rewrite (resized_half_of _ (2 * h)), (resized_half_of _ (2 * w)) in Sg3 by lia.
  next warp_returns f3 Ef3 Sf3.
  next (ResBlock_rife_stride2 _ _ _ _ _ Rb2 tr h w) x4 Ex4 Sx4.
  next interpolate_returns g4 Eg4 Sg4;
    try (rewrite resized_half; Z.div_mod_to_equations; lia).
  rewrite (resized_half_of _ h), (resized_half_of _ w) in Sg4 by lia.
  next warp_returns f4 Ef4 Sf4.
  exists f1, f2, f3, f4. auto 6.
Qed.

(** The context extractor has no batch normalisation. *)
Lemma ContextNet_train_any (c : Z) (n n' : nat) (self : ContextNet.t)
      (tr : bool) :
  ContextNet.init c n = (self, n') -> ContextNet.train tr self = self.
Proof.
  intros E.
  cbv [ContextNet.init then_ unit_ fresh conv new_Conv2d new_PReLU mode_is] in E.
  cbn [String.eqb Ascii.eqb Bool.eqb] in E.
  name_blocks E. injection E as <- <-.
  unfold ContextNet.train.
  cbn [ContextNet.conv0 ContextNet.conv1 ContextNet.conv2 ContextNet.conv3
       ContextNet.conv4].
  rewrite (ResBlock_rife_train _ _ _ _ _ _ tr Rb),
    (ResBlock_rife_train _ _ _ _ _ _ tr Rb0),
    (ResBlock_rife_train _ _ _ _ _ _ tr Rb1),
    (ResBlock_rife_train _ _ _ _ _ _ tr Rb2).
  reflexivity.
Qed.

End ContextNetShapes.

(** ** FusionNet *)

Section FusionNetShapes.

Context {numerics : Numerics}.

Lemma FusionNet_forward_returns (c : Z) (n n' : nat) (self : FusionNet.t) :
  FusionNet.init c n = (self, n') ->
  forall (tr : bool) (N h w : Z) (img0 img1 flow : Tensor)
         (c0 c1 : list Tensor) (flow_gt : option Tensor),
  0 < h -> 0 < w ->
  shape img0 = mkShape N 3 (32 * h) (32 * w) ->
  shape img1 = mkShape N 3 (32 * h) (32 * w) ->
  shape flow = mkShape N 2 (32 * h) (32 * w) ->
  pyramid_shapes c0 N c h w ->
  pyramid_shapes c1 N c h w ->
  flow_gt_fits flow_gt N (32 * h) (32 * w) ->
  returns (FusionNet.forward (FusionNet.train tr self) img0 img1 flow c0 c1
             flow_gt)
    (fun o =>
       shape (FusionNet.refine_output o) = mkShape N 4 (32 * h) (32 * w) /\
       shape (FusionNet.warped_img0 o) = mkShape N 3 (32 * h) (32 * w) /\
       shape (FusionNet.warped_img1 o) = mkShape N 3 (32 * h) (32 * w)).
Proof.
  intros E tr N h w img0 img1 flow c0 c1 flow_gt Hh Hw S0 S1 Sflow P0 P1 Hgt.
  destruct P0 as (a1 & a2 & a3 & a4 & -> & Sa1 & Sa2 & Sa3 & Sa4).
  destruct P1 as (b1 & b2 & b3 & b4 & -> & Sb1 & Sb2 & Sb3 & Sb4).
  cbv [FusionNet.init then_ unit_ fresh conv deconv new_Conv2d
       new_ConvTranspose2d new_PReLU mode_is] in E.
  cbn [String.eqb Ascii.eqb Bool.eqb] in E.
  name_blocks E. apply pair_equal_spec in E. destruct E as [<- <-].
  unfold FusionNet.forward.
  cbn [FusionNet.train PyModule_train Sequential_train option_map List.map
       Layer_train FusionNet.conv0 FusionNet.down0 FusionNet.down1
       FusionNet.down2 FusionNet.down3 FusionNet.up0 FusionNet.up1
       FusionNet.up2 FusionNet.up3 FusionNet.conv FusionNet.up4 call item
       nth_error].
  next warp_returns w0 Ew0 Sw0.
  next warp_returns w1 Ew1 Sw1.
  eapply returns_bind with (Q := fun _ => True).
  { destruct flow_gt as [g|]; [ | exact I ].
    destruct Hgt as (Gn & Gh & Gw).
    next warp_returns g0 Eg0 Sg0.
    next warp_returns g1 Eg1 Sg1.
    exact I. }
  intros [g0 g1] _ _. cbn [bind item nth_error].
  next cat_triple_returns i0 Ei0 Si0.
  next conv_rife_returns x0 Ex0 Sx0.
  rewrite (conv_out_half _ (16 * h)), (conv_out_half _ (16 * w)) in Sx0 by lia.
  next (ResBlock_rife_stride2 _ _ _ _ _ Rb tr (8 * h) (8 * w)) s0 Es0 Ss0.
  next cat_triple_returns i1 Ei1 Si1.
  next (ResBlock_rife_stride2 _ _ _ _ _ Rb0 tr (4 * h) (4 * w)) s1 Es1 Ss1.
  next cat_triple_returns i2 Ei2 Si2.
  next (ResBlock_rife_stride2 _ _ _ _ _ Rb1 tr (2 * h) (2 * w)) s2 Es2 Ss2.
  next cat_triple_returns i3 Ei3 Si3.
  next (ResBlock_rife_stride2 _ _ _ _ _ Rb2 tr h w) s3 Es3 Ss3.
  next cat_triple_returns i4 Ei4 Si4.
  next deconv_returns u0 Eu0 Su0.
  next cat_pair_returns i5 Ei5 Si5.
  next deconv_returns u1 Eu1 Su1.
  next cat_pair_returns i6 Ei6 Si6.
  next deconv_returns u2 Eu2 Su2.
  next cat_pair_returns i7 Ei7 Si7.
  next deconv_returns u3 Eu3 Su3.
  next run_Conv2d x1 Ex1 Sx1. rewrite !(conv_out_stride1 _ 3 1 1) in Sx1 by lia.
  next run_PixelShuffle x2 Ex2 Sx2. change (16 / (2 * 2)) with 4 in Sx2.
  cbn [returns FusionNet.refine_output FusionNet.warped_img0 FusionNet.warped_img1].
  rewrite Sx2, Sw0, Sw1. repeat split; f_equal; lia.
Qed.

(** The fusion network has no batch normalisation. *)
Lemma FusionNet_train_any (c : Z) (n n' : nat) (self : FusionNet.t)
      (tr : bool) :
  FusionNet.init c n = (self, n') -> FusionNet.train tr self = self.
Proof.
  intros E.
  cbv [FusionNet.init then_ unit_ fresh conv deconv new_Conv2d
       new_ConvTranspose2d new_PReLU mode_is] in E.
  cbn [String.eqb Ascii.eqb Bool.eqb] in E.
  name_blocks E. injection E as <- <-.
  unfold FusionNet.train.
  cbn [FusionNet.conv0 FusionNet.down0 FusionNet.down1 FusionNet.down2
       FusionNet.down3 FusionNet.up0 FusionNet.up1 FusionNet.up2
       FusionNet.up3 FusionNet.conv FusionNet.up4].
  rewrite (ResBlock_rife_train _ _ _ _ _ _ tr Rb),
    (ResBlock_rife_train _ _ _ _ _ _ tr Rb0),
    (ResBlock_rife_train _ _ _ _ _ _ tr Rb1),
    (ResBlock_rife_train _ _ _ _ _ _ tr Rb2).
  reflexivity.
Qed.

End FusionNetShapes.

(** ** RIFE *)

(** Values of [torch.sigmoid] and of [torch.clamp(., 0, 1)]. *)
Lemma sigmoid_R_range (v : R) : (0 < sigmoid_R v < 1)%R.
Proof.
  unfold sigmoid_R. pose proof (exp_pos (- v)) as He.
  split.
  - apply Rdiv_lt_0_compat; lra.
  - apply Rmult_lt_reg_r with (1 + exp (- v))%R; [ lra | ].
    unfold Rdiv. rewrite Rmult_assoc, Rinv_l by lra. lra.
Qed.

Lemma clamp_R_range (v : R) : (0 <= clamp_R 0 1 v <= 1)%R.
Proof.
  unfold clamp_R. split.
  - apply Rmin_glb; [ apply Rmax_r | lra ].
  - apply Rmin_r.
Qed.

Section RIFEShapes.

Context {numerics : Numerics}.

Lemma RIFE_forward_returns (device : string) (n n' : nat) (self : RIFE.t) :
  RIFE.init device n = (self, n') ->
  forall (N h w : Z) (img0 img1 : Tensor) (imgs flow : option Tensor)
         (training : bool) (flow_gt : option Tensor),
  0 < h -> 0 < w ->
  shape img0 = mkShape N 3 (32 * h) (32 * w) ->
  shape img1 = mkShape N 3 (32 * h) (32 * w) ->
  flow_gt_fits flow_gt N (32 * h) (32 * w) ->
  returns (RIFE.forward self (Some img0) (Some img1) imgs flow training flow_gt)
    (fun o =>
       is_training o = training /\
       shape (prediction o) = mkShape N 3 (32 * h) (32 * w) /\
       forall i c y x, (0 <= data (prediction o) i c y x <= 1)%R).
Proof.
  intros E N h w img0 img1 imgs flow training flow_gt Hh Hw S0 S1 Hgt.
  cbv [RIFE.init then_ unit_] in E.
  destruct (IFNet.init n) as [fl k0] eqn:Efl.
  destruct (ContextNet.init 32 k0) as [cx k1] eqn:Ecx.
  destruct (FusionNet.init 32 k1) as [fu k2] eqn:Efu.
  apply pair_equal_spec in E. destruct E as [<- <-].
  unfold RIFE.forward, IFNet.eval, ContextNet.eval, FusionNet.eval.
  cbn [RIFE.flownet RIFE.contextnet RIFE.fusionnet].
  next cat_pair_returns imgs' Eimgs Simgs.
  next (IFNet_forward_returns _ _ _ Efl false N h w) r Er Sr.
  next (ContextNet_forward_returns _ _ _ _ Ecx false N 2 h w) pyr0 Epyr0 Spyr0.
  next (ContextNet_forward_returns _ _ _ _ Ecx false N 2 h w) pyr1 Epyr1 Spyr1.
  next interpolate_returns flow' Eflow Sflow;
    try (rewrite resized_double; lia).
  rewrite !resized_double in Sflow.
  eapply returns_bind;
    [ eapply (FusionNet_forward_returns _ _ _ _ Efu false N h w);
      try eassumption; side | ].
  cbv beta. intros o Eo (So & Sw0 & Sw1).
  next pointwise2_returns a Ea Sa.
  next pointwise2_returns b Eb Sb.
  next pointwise2_returns merged Emerged Smerged.
  next pointwise2_returns s Es Ss.
  assert (Hrange : forall i c y x, (0 <= data (clamp s 0 1) i c y x <= 1)%R)
    by (intros; apply clamp_R_range).
  destruct training; cbn [returns is_training prediction];
    (split; [ reflexivity | split; [ | exact Hrange ] ]);
    cbn [clamp pointwise shape]; exact Ss.
Qed.
End RIFEShapes.

Section IFNetRuns.

Context {numerics : Numerics}.

(** Every successful run of the cascade, stage by stage. *)
Lemma IFNet_forward_inv (self : IFNet.t) (x F4 : Tensor) (Fs : list Tensor) :
  IFNet.forward self x = Ok (F4, Fs) ->
  exists x' flow0 flow1 flow2 flow3 i1 i2 i3 F2 F3,
    interpolate x (1 # 2) = Ok x' /\
    IFBlock.forward (IFNet.block0 self) x' = Ok flow0 /\
    stage_input x' flow0 i1 /\
    IFBlock.forward (IFNet.block1 self) i1 = Ok flow1 /\
    add flow0 flow1 = Ok F2 /\
    stage_input x' F2 i2 /\
    IFBlock.forward (IFNet.block2 self) i2 = Ok flow2 /\
    add F2 flow2 = Ok F3 /\
    stage_input x' F3 i3 /\
    IFBlock.forward (IFNet.block3 self) i3 = Ok flow3 /\
    add F3 flow3 = Ok F4 /\
    Fs = [flow0; F2; F3; F4].
Proof.
  intros H. unfold IFNet.forward in H.
  repeat bind_inv H.
  injection H as <- <-.
  repeat match goal with
         | A : ?m = Ok ?a, B : ?m = Ok ?b |- _ =>
             assert (a = b) by congruence; subst b; clear B
         end.
  exists v, v0, v4, v9, v15, v3, v8, v14, v5, v11.
  unfold stage_input. repeat split; eauto.
Qed.

End IFNetRuns.

Section OtherRuns.

Context {numerics : Numerics}.

Lemma halved_mul_scalar (flow g : Tensor) :
  interpolate flow (1 # 2) = Ok g -> halved flow (mul_scalar g (/ 2)%R).
Proof. intros E. exists g. repeat split; auto. Qed.

Lemma halved_shape (flow flow' : Tensor) :
  halved flow flow' ->
  height (shape flow') = height (shape flow) / 2 /\
  width (shape flow') = width (shape flow) / 2.
Proof.
  intros (g & Eg & Sg & _). apply interpolate_inv in Eg. destruct Eg as (Eg & _).
  rewrite Sg, Eg. cbn [height width]. rewrite !resized_half. auto.
Qed.

(** Every successful run of the context network, level by level. *)
Lemma ContextNet_forward_inv (self : ContextNet.t) (x flow : Tensor)
      (fs : list Tensor) :
  ContextNet.forward self x flow = Ok fs ->
  exists x0 x1 x2 x3 x4 flow1 flow2 flow3 flow4 f1 f2 f3 f4,
    call (Some (ContextNet.conv0 self)) x = Ok x0 /\
    ResBlock.forward (ContextNet.conv1 self) x0 = Ok x1 /\
    ResBlock.forward (ContextNet.conv2 self) x1 = Ok x2 /\
    ResBlock.forward (ContextNet.conv3 self) x2 = Ok x3 /\
    ResBlock.forward (ContextNet.conv4 self) x3 = Ok x4 /\
    halved flow flow1 /\ halved flow1 flow2 /\
    halved flow2 flow3 /\ halved flow3 flow4 /\
    warp x1 flow1 = Ok f1 /\ warp x2 flow2 = Ok f2 /\
    warp x3 flow3 = Ok f3 /\ warp x4 flow4 = Ok f4 /\
    fs = [f1; f2; f3; f4].
Proof.
  intros H. unfold ContextNet.forward in H.
  repeat bind_inv H. injection H as <-.
  do 5 eexists. do 4 eexists. do 4 eexists.
  repeat split; eauto using halved_mul_scalar.
Qed.

(** Every successful run of the fusion network: the two warps, the optional
    ground-truth warps, and the last two layers. *)
Lemma FusionNet_forward_inv (self : FusionNet.t) (img0 img1 flow : Tensor)
      (c0 c1 : list Tensor) (flow_gt : option Tensor) (o : FusionNet.output) :
  FusionNet.forward self img0 img1 flow c0 c1 flow_gt = Ok o ->
  warp img0 flow = Ok (FusionNet.warped_img0 o) /\
  warp img1 (neg flow) = Ok (FusionNet.warped_img1 o) /\
  match flow_gt with
  | None =>
      FusionNet.warped_img0_gt o = None /\ FusionNet.warped_img1_gt o = None
  | Some g =>
      exists g0 g1,
        warp img0 (slice_channels g 0 (Some 2)) = Ok g0 /\
        warp img1 (slice_channels g 2 (Some 4)) = Ok g1 /\
        FusionNet.warped_img0_gt o = Some g0 /\
        FusionNet.warped_img1_gt o = Some g1
  end /\
  exists u x16,
    run (FusionNet.conv self) u = Ok x16 /\
    run (FusionNet.up4 self) x16 = Ok (FusionNet.refine_output o).
Proof.
  intros H. unfold FusionNet.forward in H.
  do 3 bind_inv H. destruct v1 as [gt0 gt1].
  repeat bind_inv H. injection H as <-.
  cbn [FusionNet.warped_img0 FusionNet.warped_img1 FusionNet.warped_img0_gt
       FusionNet.warped_img1_gt FusionNet.refine_output].
  repeat split; eauto.
  destruct flow_gt as [g|].
  - repeat bind_inv E1. injection E1 as <- <-.
    do 2 eexists. repeat split; eassumption.
  - injection E1 as <- <-. auto.
Qed.

End OtherRuns.

(** * The claims *)

(** ** The factory functions *)

(** C5: for every mode other than 'rife' and 'ifnet' (the default [None]
    included) [conv] and [conv_woact] return [None] and build no layer, so
    nothing can raise; for 'rife' [conv] returns a convolution with bias
    followed by a PReLU and [conv_woact] the convolution alone; for 'ifnet'
    [conv] returns a convolution without bias, a batch normalisation and a
    PReLU, and [conv_woact] the first two of them (the batch normalisation,
    as every new module, in training mode). *)
Theorem conv_by_mode (in_planes out_planes kernel_size stride padding dilation : Z)
        (mode : option string) (n : nat) :
  (mode <> Some "rife"%string -> mode <> Some "ifnet"%string ->
   conv in_planes out_planes kernel_size stride padding dilation mode n
     = (None, n) /\
   conv_woact in_planes out_planes kernel_size stride padding dilation mode n
     = (None, n)) /\
  (mode = Some "rife"%string ->
   conv in_planes out_planes kernel_size stride padding dilation mode n
     = (Some [Conv2d n in_planes out_planes kernel_size stride padding
                     dilation true;
              PReLU (S n) out_planes], S (S n)) /\
   conv_woact in_planes out_planes kernel_size stride padding dilation mode n
     = (Some [Conv2d n in_planes out_planes kernel_size stride padding
                     dilation true], S n)) /\
  (mode = Some "ifnet"%string ->
   conv in_planes out_planes kernel_size stride padding dilation mode n
     = (Some [Conv2d n in_planes out_planes kernel_size stride padding
                     dilation false;
              BatchNorm2d (S n) out_planes true;
              PReLU (S (S n)) out_planes], S (S (S n))) /\
   conv_woact in_planes out_planes kernel_size stride padding dilation mode n
     = (Some [Conv2d n in_planes out_planes kernel_size stride padding
                     dilation false;
              BatchNorm2d (S n) out_planes true], S (S n))).
Proof.
  split; [ | split ].
  - intros Hr Hi.
    assert (Er : mode_is mode "rife" = false).
    { destruct mode as [m|]; cbn [mode_is]; [ | reflexivity ].
      apply String.eqb_neq. congruence. }
    assert (Ei : mode_is mode "ifnet" = false).
    { destruct mode as [m|]; cbn [mode_is]; [ | reflexivity ].
      apply String.eqb_neq. congruence. }
    unfold conv, conv_woact. rewrite Er, Ei. split; reflexivity.
  - intros ->. split; reflexivity.
  - intros ->. split; reflexivity.
Qed.

(** The default mode: no module. *)
Lemma conv_by_mode_witness :
  conv 3 32 3 1 1 1 None 0%nat = (None, 0%nat) /\
  conv_woact 3 32 3 1 1 1 None 0%nat = (None, 0%nat).
Proof.
  apply (conv_by_mode 3 32 3 1 1 1 None 0%nat); discriminate.
Defined.

(** ** ResBlock *)

(** The shortcut that [__init__] builds, in either mode of operation. *)
Lemma ResBlock_init_conv0 (cin cout st : Z) (mode : option string) (n : nat)
      (tr : bool) :
  ResBlock.conv0 (ResBlock.train tr (fst (ResBlock.init cin cout st mode n))) =
  if ((cin =? cout) && (st =? 1))%bool then Identity
  else Conv2d n cin cout 3 st 1 1 false.
Proof.
  unfold ResBlock.init, then_ at 1.
  destruct ((cin =? cout) && (st =? 1))%bool;
    cbv [unit_ new_Conv2d then_ fresh];
    repeat match goal with
           | |- context [let (_, _) := ?m in _] => destruct m
           end;
    reflexivity.
Qed.

(** C9, as stated, fails.  With [in_planes = out_planes = 4] and
    [stride = 1] the shortcut is the identity, but [forward] raises on an
    input of 4 channels instead of returning a tensor of its shape
    - when the block is built with the default mode: it has no [conv1];
    - when the block has mode 'ifnet', is in the training mode it is built
      in, and the input has a single value per channel, which the batch
      normalisation refuses;
    - when the input has no row and no column: the kernel of [conv1] does
      not fit. *)
Lemma ResBlock_forward_raises :
  let x := blank 1 4 8 8 in
  let x1 := blank 1 4 1 1 in
  let x0 := blank 1 4 0 0 in
  let default := fst (ResBlock.init 4 4 1 None 0%nat) in
  let ifnet := fst (ResBlock.init 4 4 1 (Some "ifnet"%string) 0%nat) in
  let rife := fst (ResBlock.init 4 4 1 (Some "rife"%string) 0%nat) in
  ResBlock.conv0 default = Identity /\
  ResBlock.conv0 ifnet = Identity /\
  ResBlock.conv0 rife = Identity /\
  channels (shape x) = 4 /\ channels (shape x1) = 4 /\
  channels (shape x0) = 4 /\
  @ResBlock.forward zero_numerics default x = Raise AttributeError /\
  @ResBlock.forward zero_numerics ifnet x1 = Raise ValueError /\
  @ResBlock.forward zero_numerics rife x0 = Raise RuntimeError /\
  ~ (exists y, @ResBlock.forward zero_numerics default x = Ok y
               /\ shape y = shape x).
Proof.
  cbv zeta. repeat split.
  intros (y & E & _). discriminate E.
Qed.

(** C9 (amended): a block built with [in_planes = out_planes] and
    [stride = 1], in training mode ([tr = true], as it is built) or in
    evaluation mode, has the identity as its shortcut, and when its mode is
    'rife' or 'ifnet' it returns, for every input of [in_planes] channels
    with at least one row and one column, a tensor of the shape of the input,
    unless the mode is 'ifnet', the block is in training mode and the input
    has a single value per channel; a block built with
    [in_planes <> out_planes] or [stride <> 1] has as its shortcut a 3x3
    convolution without bias, of the block's stride and padding 1. *)
Theorem ResBlock_shortcut_and_shape {numerics : Numerics}
        (in_planes out_planes stride : Z) (mode : option string) (n : nat)
        (tr : bool) :
  let self :=
    ResBlock.train tr (fst (ResBlock.init in_planes out_planes stride mode n)) in
  (in_planes = out_planes /\ stride = 1 ->
   ResBlock.conv0 self = Identity /\
   (known_mode mode ->
    forall x : Tensor,
      channels (shape x) = in_planes ->
      1 <= height (shape x) -> 1 <= width (shape x) ->
      (mode = Some "ifnet"%string -> tr = true ->
       batch (shape x) * (height (shape x) * width (shape x)) <> 1) ->
      exists y, ResBlock.forward self x = Ok y /\ shape y = shape x)) /\
  (in_planes <> out_planes \/ stride <> 1 ->
   ResBlock.conv0 self = Conv2d n in_planes out_planes 3 stride 1 1 false).
Proof.
  cbv zeta. rewrite ResBlock_init_conv0. split.
  - intros [<- ->]. rewrite !Z.eqb_refl. split; [ reflexivity | ].
    intros Hm x Ec Hh Hw Hbn.
    destruct (ResBlock.init in_planes in_planes 1 mode n) as [self n'] eqn:E.
    cbn [fst]. apply returns_ex.
    eapply returns_weaken;
      [ eapply (ResBlock_forward_returns _ _ _ _ _ _ _ tr x Hm E Ec);
        try lia;
        rewrite !(conv_out_stride1 _ 3 1 1) by lia; exact Hbn | ].
    cbv beta. intros y Sy.
    rewrite !(conv_out_stride1 _ 3 1 1) in Sy by lia. rewrite Sy, <- Ec.
    destruct (shape x); reflexivity.
  - intros Hne.
    replace ((in_planes =? out_planes) && (stride =? 1))%bool with false;
      [ reflexivity | ].
    symmetry. apply andb_false_iff. rewrite !Z.eqb_neq. exact Hne.
Qed.

(** A block of the flow estimator as it is built: 64 channels, mode
    'ifnet', on an 8 x 8 input. *)
Lemma ResBlock_shortcut_and_shape_witness :
  let self :=
    ResBlock.train true (fst (ResBlock.init 64 64 1 (Some "ifnet"%string) 0%nat)) in
  ResBlock.conv0 self = Identity /\
  exists y, @ResBlock.forward zero_numerics self (blank 1 64 8 8) = Ok y /\
            shape y = shape (blank 1 64 8 8).
Proof.
  cbv zeta.
  destruct (@ResBlock_shortcut_and_shape zero_numerics 64 64 1
              (Some "ifnet"%string) 0%nat true) as [Hsame _].
  destruct (Hsame (conj eq_refl eq_refl)) as [Hid Hshape].
  split; [ exact Hid | ].
  apply Hshape;
    [ right; reflexivity | reflexivity | cbn; lia | cbn; lia
    | intros _ _; cbn; lia ].
Defined.

(** ** Entries of sums *)

Lemma bidx_inside (d i : Z) : 0 <= i < d -> bidx d i = i.
Proof.
  intros Hi. unfold bidx. destruct (d =? 1) eqn:E; [ | reflexivity ].
  apply Z.eqb_eq in E. lia.
Qed.

Lemma expand_inside (x : Tensor) (n c h w : Z) :
  inside (shape x) n c h w -> expand x n c h w = data x n c h w.
Proof.
  intros (Hn & Hc & Hh & Hw). unfold expand.
  rewrite !bidx_inside by assumption. reflexivity.
Qed.

(** [x + y] of two tensors of one shape has that shape and, at every index
    within it, the sum of the two entries. *)
Lemma add_entry (x y z : Tensor) :
  add x y = Ok z -> shape y = shape x ->
  shape z = shape x /\
  forall n c h w, inside (shape x) n c h w ->
    data z n c h w = (data x n c h w + data y n c h w)%R.
Proof.
  unfold add, pointwise2. intros H Sy. rewrite Sy, broadcast_same in H.
  cbn [bind] in H. injection H as <-. cbn [shape data]. split; [ reflexivity | ].
  intros n c h w Hin. rewrite !expand_inside; [ reflexivity | | ]; congruence.
Qed.

(** ** RIFE *)

(** C10: [RIFE.forward] does not depend on its arguments [imgs] and [flow]:
    both names are bound anew before they are read. *)
Theorem RIFE_forward_ignores_imgs_and_flow {numerics : Numerics}
        (self : RIFE.t) (img0 img1 imgs imgs' flow flow' : option Tensor)
        (training : bool) (flow_gt : option Tensor) :
  RIFE.forward self img0 img1 imgs flow training flow_gt =
  RIFE.forward self img0 img1 imgs' flow' training flow_gt.
Proof. reflexivity. Qed.

(** C1: for two three-channel images of one shape whose height and width are
    positive multiples of 32, [RIFE.forward] with [training=False] returns a
    single tensor, of the shape of [img0], with every entry in [0, 1].  A
    ground-truth flow, if one is passed, has the batch size and the resolution
    of the images. *)
Theorem RIFE_forward_inference {numerics : Numerics} (device : string) (n : nat)
        (N h w : Z) (img0 img1 : Tensor) (imgs flow flow_gt : option Tensor) :
  0 < h -> 0 < w ->
  shape img0 = mkShape N 3 (32 * h) (32 * w) ->
  shape img1 = shape img0 ->
  flow_gt_fits flow_gt N (32 * h) (32 * w) ->
  exists pred,
    RIFE.forward (fst (RIFE.init device n)) (Some img0) (Some img1) imgs flow
                 false flow_gt = Ok (RIFE.Inference pred) /\
    shape pred = shape img0 /\
    forall i c y x, (0 <= data pred i c y x <= 1)%R.
Proof.
  intros Hh Hw S0 S1 Hgt. rewrite S0 in S1.
  destruct (RIFE.init device n) as [self n'] eqn:E. cbn [fst].
  pose proof (RIFE_forward_returns _ _ _ _ E N h w img0 img1 imgs flow false
                flow_gt Hh Hw S0 S1 Hgt) as Hrun.
  apply returns_ex in Hrun. destruct Hrun as (o & Eo & Ht & So & Hrange).
  destruct o as [pred mask merged w0 w1 g0 g1 | pred]; [ discriminate Ht | ].
  exists pred. cbn [prediction] in So, Hrange. rewrite S0. auto.
Qed.

(** Two blank 32 x 32 frames, default arguments otherwise. *)
Lemma RIFE_forward_inference_witness :
  exists pred,
    @RIFE.forward zero_numerics (fst (RIFE.init "cpu" 0%nat))
                  (Some (blank 1 3 32 32)) (Some (blank 1 3 32 32))
                  None None false None = Ok (RIFE.Inference pred) /\
    shape pred = shape (blank 1 3 32 32) /\
    forall i c y x, (0 <= data pred i c y x <= 1)%R.
Proof.
  apply (@RIFE_forward_inference zero_numerics "cpu" 0%nat 1 1 1
           (blank 1 3 32 32) (blank 1 3 32 32) None None None);
    [ lia | lia | reflexivity | reflexivity | exact I ].
Defined.

(** Entries of an elementwise operation, read off a successful run. *)
Lemma pointwise2_inv (f : R -> R -> R) (x y z : Tensor) :
  pointwise2 f x y = Ok z ->
  broadcast (shape x) (shape y) = Ok (shape z) /\
  forall n c h w, data z n c h w = f (expand x n c h w) (expand y n c h w).
Proof.
  unfold pointwise2. intros H. bind_inv H. injection H as <-.
  split; [ assumption | reflexivity ].
Qed.

(** A one-channel tensor is read at channel 0 wherever it is broadcast. *)
Lemma expand_one_channel (m : Tensor) (N C H W n c h w : Z) :
  shape m = mkShape N 1 H W ->
  inside (mkShape N C H W) n c h w ->
  expand m n c h w = data m n 0 h w.
Proof.
  intros Sm (Hn & _ & Hh & Hw). unfold expand. rewrite Sm.
  cbn [batch channels height width] in *.
  rewrite (bidx_inside N n), (bidx_inside H h), (bidx_inside W w)
    by assumption.
  reflexivity.
Qed.

(** C6: [RIFE.forward] returns on well-shaped frames, and in every run that
    returns, with [o] what the fusion network returned: the residual is the
    sigmoid of the first three channels of the refine output, times 2 minus
    1, so its entries lie in [-1, 1]; the mask is the sigmoid of channel 3,
    so its entries lie in [0, 1]; the blended image is
    [warped_img0 * mask + warped_img1 * (1 - mask)], the one channel of the
    mask being used for every channel of the images; and the prediction is
    the blend plus the residual, clamped entry by entry to [0, 1].  Training
    mode returns the prediction with the mask, the blend and the four warped
    images, inference mode the prediction alone. *)
Theorem RIFE_forward_blend {numerics : Numerics} (device : string) (n : nat)
        (img0 img1 imgs flow : option Tensor) (training : bool)
        (flow_gt : option Tensor) :
  let self := fst (RIFE.init device n) in
  (forall f0 f1 N h w,
     img0 = Some f0 -> img1 = Some f1 ->
     0 < h -> 0 < w ->
     shape f0 = mkShape N 3 (32 * h) (32 * w) ->
     shape f1 = mkShape N 3 (32 * h) (32 * w) ->
     flow_gt_fits flow_gt N (32 * h) (32 * w) ->
     exists out,
       RIFE.forward self img0 img1 imgs flow training flow_gt = Ok out) /\
  (forall out,
     RIFE.forward self img0 img1 imgs flow training flow_gt = Ok out ->
     exists (o : FusionNet.output) (res mask a b merged_img s pred : Tensor),
       (exists i0 i1 fl c0 c1,
          FusionNet.forward (RIFE.fusionnet self) i0 i1 fl c0 c1 flow_gt
            = Ok o) /\
       res = sub_scalar
               (mul_scalar
                  (sigmoid (slice_channels (FusionNet.refine_output o) 0 (Some 3)))
                  2%R) 1%R /\
       mask = sigmoid (slice_channels (FusionNet.refine_output o) 3 (Some 4)) /\
       (forall i c y x, (-1 <= data res i c y x <= 1)%R) /\
       (forall i c y x, (0 <= data mask i c y x <= 1)%R) /\
       mul (FusionNet.warped_img0 o) mask = Ok a /\
       mul (FusionNet.warped_img1 o) (rsub_scalar 1%R mask) = Ok b /\
       add a b = Ok merged_img /\
       add merged_img res = Ok s /\
       pred = clamp s 0%R 1%R /\
       (forall i c y x, (0 <= data pred i c y x <= 1)%R) /\
       (forall N H W,
          shape (FusionNet.warped_img0 o) = mkShape N 3 H W ->
          shape (FusionNet.warped_img1 o) = mkShape N 3 H W ->
          shape (FusionNet.refine_output o) = mkShape N 4 H W ->
          forall i c y x, inside (mkShape N 3 H W) i c y x ->
            data merged_img i c y x =
              (data (FusionNet.warped_img0 o) i c y x * data mask i 0%Z y x
               + data (FusionNet.warped_img1 o) i c y x
                 * (1 - data mask i 0%Z y x))%R /\
            data pred i c y x =
              (Rmin (Rmax (data merged_img i c y x + data res i c y x) 0) 1)%R) /\
       out = if training
             then RIFE.Training pred mask merged_img
                    (FusionNet.warped_img0 o) (FusionNet.warped_img1 o)
                    (FusionNet.warped_img0_gt o) (FusionNet.warped_img1_gt o)
             else RIFE.Inference pred).
Proof.
  cbv zeta.
  destruct (RIFE.init device n) as [self n'] eqn:E. cbn [fst].
  split.
  - intros f0 f1 N h w -> -> Hh Hw S0 S1 Hgt.
    pose proof (RIFE_forward_returns _ _ _ _ E N h w f0 f1 imgs flow training
                  flow_gt Hh Hw S0 S1 Hgt) as Hrun.
    apply returns_ex in Hrun. destruct Hrun as (out & Er & _). eauto.
  - clear E. intros out Hout. unfold RIFE.forward in Hout.
    repeat bind_inv Hout.
    match goal with
    | Eo : FusionNet.forward _ _ _ _ _ _ _ = Ok ?o,
      Ea : mul (FusionNet.warped_img0 ?o) _ = Ok ?a,
      Eb : mul (FusionNet.warped_img1 ?o) _ = Ok ?b,
      Em : add ?a ?b = Ok ?m,
      Es : add ?m _ = Ok ?s |- _ =>
        rename o into fused, a into xa, b into xb, m into merged, s into total;
        rename Eo into Efused, Ea into Exa, Eb into Exb, Em into Emerged,
               Es into Etotal
    end.
    exists fused,
      (sub_scalar
         (mul_scalar
            (sigmoid (slice_channels (FusionNet.refine_output fused) 0 (Some 3)))
            2%R) 1%R),
      (sigmoid (slice_channels (FusionNet.refine_output fused) 3 (Some 4))),
      xa, xb, merged, total, (clamp total 0%R 1%R).
    repeat match goal with |- _ /\ _ => split end;
      try reflexivity; try assumption.
    + eauto 6.
    + intros i c y x. cbn [data sub_scalar mul_scalar sigmoid pointwise].
      match goal with
      | |- context [sigmoid_R ?v] => pose proof (sigmoid_R_range v)
      end.
      lra.
    + intros i c y x. cbn [data sigmoid pointwise].
      match goal with
      | |- context [sigmoid_R ?v] => pose proof (sigmoid_R_range v)
      end.
      lra.
    + intros i c y x. apply clamp_R_range.
    + intros N H W S0 S1 Sr i c y x Hin.
      set (mask := sigmoid (slice_channels (FusionNet.refine_output fused) 3
                              (Some 4))) in *.
      set (res := sub_scalar _ 1%R) in *.
      assert (Smask : shape mask = mkShape N 1 H W)
        by (subst mask; cbn [shape sigmoid pointwise slice_channels];
            rewrite Sr; reflexivity).
      assert (Sres : shape res = mkShape N 3 H W)
        by (subst res;
            cbn [shape sub_scalar mul_scalar sigmoid pointwise slice_channels];
            rewrite Sr; reflexivity).
      apply pointwise2_inv in Exa, Exb, Emerged, Etotal.
      destruct Exa as (Sxa & Dxa). destruct Exb as (Sxb & Dxb).
      destruct Emerged as (Sm & Dm). destruct Etotal as (St & Dt).
      cbn [shape rsub_scalar pointwise] in Sxb.
      rewrite S0, Smask, broadcast_mask in Sxa. injection Sxa as Sxa.
      rewrite S1, Smask, broadcast_mask in Sxb. injection Sxb as Sxb.
      rewrite <- Sxa, <- Sxb, broadcast_same in Sm. injection Sm as Sm.
      assert (Hxa : data xa i c y x =
                    (data (FusionNet.warped_img0 fused) i c y x
                     * data mask i 0%Z y x)%R).
      { rewrite Dxa, expand_inside by (rewrite S0; exact Hin).
        rewrite (expand_one_channel mask N 3 H W) by assumption. reflexivity. }
      assert (Hxb : data xb i c y x =
                    (data (FusionNet.warped_img1 fused) i c y x
                     * (1 - data mask i 0%Z y x))%R).
      { rewrite Dxb, expand_inside by (rewrite S1; exact Hin).
        rewrite (expand_one_channel (rsub_scalar 1%R mask) N 3 H W)
          by assumption.
        reflexivity. }
      assert (Hm : data merged i c y x = (data xa i c y x + data xb i c y x)%R).
      { rewrite Dm, !expand_inside; [ reflexivity | | ];
          [ rewrite <- Sxb | rewrite <- Sxa ]; exact Hin. }
      assert (Ht : data total i c y x
                   = (data merged i c y x + data res i c y x)%R).
      { rewrite Dt, !expand_inside; [ reflexivity | | ];
          [ rewrite Sres | rewrite <- Sm ]; exact Hin. }
      split.
      * rewrite Hm, Hxa, Hxb. reflexivity.
      * cbn [data clamp pointwise]. unfold clamp_R. rewrite Ht. reflexivity.
    + destruct training; injection Hout as <-; reflexivity.
Qed.

(** A training run on two blank 32 x 32 frames. *)
Lemma RIFE_forward_blend_witness :
  exists out mask merged_img w0 w1 g0 g1 s,
    @RIFE.forward zero_numerics (fst (RIFE.init "cpu" 0%nat))
                  (Some (blank 1 3 32 32)) (Some (blank 1 3 32 32))
                  None None true None = Ok out /\
    out = RIFE.Training (clamp s 0%R 1%R) mask merged_img w0 w1 g0 g1.
Proof.
  destruct (@RIFE_forward_blend zero_numerics "cpu" 0%nat
              (Some (blank 1 3 32 32)) (Some (blank 1 3 32 32)) None None
              true None) as [Hruns Hblend].
  destruct (Hruns (blank 1 3 32 32) (blank 1 3 32 32) 1 1 1 eq_refl eq_refl
              ltac:(lia) ltac:(lia) eq_refl eq_refl I) as (out & Hrun).
  destruct (Hblend out Hrun)
    as (o & res & mask & a & b & merged & s & pred & _ & _ & _ & _ & _ & _
        & _ & _ & _ & -> & _ & _ & ->).
  exists (RIFE.Training (clamp s 0%R 1%R) mask merged
            (FusionNet.warped_img0 o) (FusionNet.warped_img1 o)
            (FusionNet.warped_img0_gt o) (FusionNet.warped_img1_gt o)),
    mask, merged, (FusionNet.warped_img0 o), (FusionNet.warped_img1 o),
    (FusionNet.warped_img0_gt o), (FusionNet.warped_img1_gt o), s.
  split; [ exact Hrun | reflexivity ].
Defined.

(** ** IFNet *)

(** From a run [E : m = Ok a] and the lemma [lem] on the shape of what [m]
    returns: the shape of [a], as [Sa]. *)
Ltac shape_from E lem Sa :=
  match type of E with
  | ?m = Ok ?a =>
      eassert (Sa : returns m _) by (eapply lem; side);
      rewrite E in Sa; cbn [returns] in Sa; known_shapes_in Sa
  end.

Section IFNetClaims.

Context {numerics : Numerics}.

Lemma stage_input_shape (x F i : Tensor) (N H W : Z) :
  stage_input x F i ->
  shape x = mkShape N 6 H W -> shape F = mkShape N 2 H W ->
  shape i = mkShape N 8 H W.
Proof.
  intros (w0 & w1 & E0 & E1 & Ei) Sx SF.
  shape_from E0 warp_returns S0.
  shape_from E1 warp_returns S1.
  shape_from Ei cat_triple_returns Si.
  exact Si.
Qed.

(** On a well-shaped frame pair all four flows of a run have one shape. *)
Lemma IFNet_flow_shapes (n : nat) (tr : bool) (N h w : Z)
      (x x' flow0 flow1 flow2 flow3 i1 i2 i3 F2 F3 : Tensor) :
  let self := IFNet.train tr (fst (IFNet.init n)) in
  0 < h -> 0 < w ->
  shape x = mkShape N 6 (32 * h) (32 * w) ->
  interpolate x (1 # 2) = Ok x' ->
  IFBlock.forward (IFNet.block0 self) x' = Ok flow0 ->
  stage_input x' flow0 i1 ->
  IFBlock.forward (IFNet.block1 self) i1 = Ok flow1 ->
  add flow0 flow1 = Ok F2 ->
  stage_input x' F2 i2 ->
  IFBlock.forward (IFNet.block2 self) i2 = Ok flow2 ->
  add F2 flow2 = Ok F3 ->
  stage_input x' F3 i3 ->
  IFBlock.forward (IFNet.block3 self) i3 = Ok flow3 ->
  let s := mkShape N 2 (16 * h) (16 * w) in
  shape flow0 = s /\ shape flow1 = s /\ shape flow2 = s /\ shape flow3 = s /\
  shape F2 = s /\ shape F3 = s.
Proof.
  cbv zeta. intros Hh Hw Sx Ex' E0 I1 E1 EF2 I2 E2 EF3 I3 E3.
  destruct (IFNet.init n) as [self n'] eqn:E. cbn [fst] in *.
  cbv [IFNet.init then_ unit_] in E. name_ifblocks E.
  apply pair_equal_spec in E. destruct E as [<- <-].
  cbn [IFNet.train IFNet.block0 IFNet.block1 IFNet.block2 IFNet.block3] in *.
  assert (Sx' : shape x' = mkShape N 6 (16 * h) (16 * w)).
  { apply interpolate_inv in Ex'. destruct Ex' as (Sx' & _).
    rewrite Sx in Sx'. cbn [batch channels height width] in Sx'.
    rewrite (resized_half_of _ (16 * h)), (resized_half_of _ (16 * w)) in Sx'
      by lia. exact Sx'. }
  assert (Hbn : tr = true -> N * (h * w) <> 1).
  { intros -> Hone.
    assert (Hhw : h * w = 1) by (apply (Z.eq_mul_1_nonneg' N); nia).
    assert (h = 1 /\ w = 1) as (-> & ->) by nia.
    assert (N = 1) as -> by lia.
    rewrite (IFBlock_training_raises _ _ _ _ B Sx') in E0. discriminate E0. }
  shape_from E0 (IFBlock_forward_returns _ _ _ _ _ _ B tr h w) S0.
  pose proof (stage_input_shape _ _ _ _ _ _ I1 Sx' S0) as Si1.
  shape_from E1 (IFBlock_forward_returns _ _ _ _ _ _ B0 tr (2 * h) (2 * w)) S1.
  assert (SF2 : shape F2 = mkShape N 2 (16 * h) (16 * w)).
  { apply add_entry in EF2; [ | congruence ]. destruct EF2 as (SF2 & _).
    congruence. }
  pose proof (stage_input_shape _ _ _ _ _ _ I2 Sx' SF2) as Si2.
  shape_from E2 (IFBlock_forward_returns _ _ _ _ _ _ B1 tr (4 * h) (4 * w)) S2.
  assert (SF3 : shape F3 = mkShape N 2 (16 * h) (16 * w)).
  { apply add_entry in EF3; [ | congruence ]. destruct EF3 as (SF3 & _).
    congruence. }
  pose proof (stage_input_shape _ _ _ _ _ _ I3 Sx' SF3) as Si3.
  shape_from E3 (IFBlock_forward_returns _ _ _ _ _ _ B2 tr (8 * h) (8 * w)) S3.
  auto 7.
Qed.

End IFNetClaims.

(** C2: [IFNet.forward] returns on every frame pair whose extents are positive
    multiples of 32 (in training mode, [tr = true], in which the network is
    built, unless the pair is a single one of 32 x 32 frames, which the batch
    normalisation of the first block refuses), and whenever it returns, its
    result is the pair of [F4] and the list [[F1, F2, F3, F4]], where
    [flow0 .. flow3] are what the four blocks returned and [F_k] is the sum
    of [flow0 .. flow_(k-1)]; on a well-shaped frame pair every entry of
    [F4] is the sum of the entries of the four flows at its index. *)
Theorem IFNet_forward_cumulative_flows {numerics : Numerics} (n : nat)
        (tr : bool) (x : Tensor) :
  let self := IFNet.train tr (fst (IFNet.init n)) in
  (forall N h w,
     0 < h -> 0 < w -> shape x = mkShape N 6 (32 * h) (32 * w) ->
     (tr = true -> N * (h * w) <> 1) ->
     exists F4 Fs, IFNet.forward self x = Ok (F4, Fs)) /\
  (forall F4 Fs,
     IFNet.forward self x = Ok (F4, Fs) ->
     exists i0 i1 i2 i3 flow0 flow1 flow2 flow3 F1 F2 F3,
       IFBlock.forward (IFNet.block0 self) i0 = Ok flow0 /\
       IFBlock.forward (IFNet.block1 self) i1 = Ok flow1 /\
       IFBlock.forward (IFNet.block2 self) i2 = Ok flow2 /\
       IFBlock.forward (IFNet.block3 self) i3 = Ok flow3 /\
       Fs = [F1; F2; F3; F4] /\
       sum_of [flow0] = Ok F1 /\
       sum_of [flow0; flow1] = Ok F2 /\
       sum_of [flow0; flow1; flow2] = Ok F3 /\
       sum_of [flow0; flow1; flow2; flow3] = Ok F4 /\
       (forall N h w,
          0 < h -> 0 < w -> shape x = mkShape N 6 (32 * h) (32 * w) ->
          forall i c y z, inside (shape F4) i c y z ->
            data F4 i c y z =
            (data flow0 i c y z + data flow1 i c y z
             + data flow2 i c y z + data flow3 i c y z)%R)).
Proof.
  cbv zeta. split.
  - intros N h w Hh Hw Sx Hbn.
    destruct (IFNet.init n) as [self n'] eqn:E. cbn [fst].
    pose proof (IFNet_forward_returns _ _ _ E tr N h w x Hh Hw Sx Hbn) as Hrun.
    apply returns_ex in Hrun. destruct Hrun as ([F4 Fs] & Er & _). eauto.
  - intros F4 Fs Hrun.
    destruct (IFNet_forward_inv _ _ _ _ Hrun)
      as (x' & flow0 & flow1 & flow2 & flow3 & i1 & i2 & i3 & F2 & F3
          & Ex' & E0 & I1 & E1 & EF2 & I2 & E2 & EF3 & I3 & E3 & EF4 & ->).
    exists x', i1, i2, i3, flow0, flow1, flow2, flow3, flow0, F2, F3.
    repeat match goal with |- _ /\ _ => split end; try assumption;
      try reflexivity.
    + cbn [sum_of sum_from]. rewrite EF2. reflexivity.
    + cbn [sum_of sum_from]. rewrite EF2. cbn [bind]. rewrite EF3. reflexivity.
    + cbn [sum_of sum_from]. rewrite EF2. cbn [bind]. rewrite EF3. cbn [bind].
      rewrite EF4. reflexivity.
    + intros N h w Hh Hw Sx i c y z Hin.
      destruct (IFNet_flow_shapes n tr N h w x x' flow0 flow1 flow2 flow3
                  i1 i2 i3 F2 F3 Hh Hw Sx Ex' E0 I1 E1 EF2 I2 E2 EF3 I3 E3)
        as (S0 & S1 & S2 & S3 & SF2 & SF3).
      apply add_entry in EF2; [ | congruence ]. destruct EF2 as (_ & D2).
      apply add_entry in EF3; [ | congruence ]. destruct EF3 as (_ & D3).
      apply add_entry in EF4; [ | congruence ]. destruct EF4 as (SF4 & D4).
      assert (Hin' : inside (mkShape N 2 (16 * h) (16 * w)) i c y z)
        by (rewrite SF4, SF3 in Hin; exact Hin).
      rewrite D4 by (rewrite SF3; exact Hin').
      rewrite D3 by (rewrite SF2; exact Hin').
      rewrite D2 by (rewrite S0; exact Hin').
      reflexivity.
Qed.

(** The network as it is built, in training mode, on a blank pair of 64 x 64
    frames. *)
Lemma IFNet_forward_cumulative_flows_witness :
  exists F1 F2 F3 F4,
    @IFNet.forward zero_numerics (IFNet.train true (fst (IFNet.init 0%nat)))
      (blank 1 6 64 64) = Ok (F4, [F1; F2; F3; F4]).
Proof.
  destruct (@IFNet_forward_cumulative_flows zero_numerics 0%nat true
              (blank 1 6 64 64)) as [Hruns Hsums].
  destruct (Hruns 1 2 2 ltac:(lia) ltac:(lia) eq_refl ltac:(lia))
    as (F4 & Fs & Hrun).
  destruct (Hsums F4 Fs Hrun)
    as (_ & _ & _ & _ & _ & _ & _ & _ & F1 & F2 & F3 & _ & _ & _ & _ & HFs & _).
  exists F1, F2, F3, F4. rewrite Hrun, HFs. reflexivity.
Defined.

(** C8, as stated, fails: the first block is not run on the frame pair that
    [forward] receives.  On a blank pair of 64 x 64 frames the flow of
    stage 0 comes from the first block run on a 32 x 32 tensor, and the
    first block run on the frame pair itself returns something else. *)
Lemma IFNet_stage0_input_is_downsampled :
  let self := fst (IFNet.init 0%nat) in
  let x := blank 1 6 64 64 in
  exists F4 F1 rest x',
    @IFNet.forward zero_numerics self x = Ok (F4, F1 :: rest) /\
    @IFBlock.forward zero_numerics (IFNet.block0 self) x' = Ok F1 /\
    shape x' = mkShape 1 6 32 32 /\
    shape x' <> shape x /\
    @IFBlock.forward zero_numerics (IFNet.block0 self) x <> Ok F1.
Proof.
  cbv zeta.
  change (fst (IFNet.init 0%nat))
    with (IFNet.train true (fst (IFNet.init 0%nat))).
  destruct (IFNet.init 0%nat) as [self n'] eqn:E. cbn [fst].
  pose proof (@IFNet_forward_returns zero_numerics _ _ _ E true 1 2 2
                (blank 1 6 64 64) ltac:(lia) ltac:(lia) eq_refl ltac:(lia))
    as Hrun.
  apply returns_ex in Hrun. destruct Hrun as ([F4 Fs] & Er & _).
  destruct (@IFNet_forward_inv zero_numerics _ _ _ _ Er)
    as (x' & flow0 & flow1 & flow2 & flow3 & i1 & i2 & i3 & F2 & F3
        & Ex' & E0 & _ & _ & _ & _ & _ & _ & _ & _ & _ & ->).
  assert (Sx' : shape x' = mkShape 1 6 32 32).
  { apply (@interpolate_inv zero_numerics) in Ex'. destruct Ex' as (Sx' & _).
    exact Sx'. }
  exists F4, flow0, [F2; F3; F4], x'.
  repeat match goal with |- _ /\ _ => split end;
    [ exact Er | exact E0 | exact Sx' | rewrite Sx'; discriminate | ].
  cbv [IFNet.init then_ unit_] in E. name_ifblocks E.
  apply pair_equal_spec in E. destruct E as [<- <-].
  cbn [IFNet.train IFNet.block0] in *.
  shape_from E0
    (@IFBlock_forward_returns zero_numerics _ _ _ _ _ _ B true 2 2) S0.
  intros Eraw.
  shape_from Eraw
    (@IFBlock_forward_returns zero_numerics _ _ _ _ _ _ B true 4 4) S0'.
  vm_compute in S0'. discriminate S0'.
Qed.

(** C8 (amended): the cascade has exactly four stages.  Stage 0 runs its
    block on the concatenated frame pair resized bilinearly by the factor
    0.5, not warped; each of the stages 1, 2 and 3 runs its block on the
    concatenation of frame 0 of the resized pair warped by the flow
    accumulated through the previous stage, frame 1 of the resized pair
    warped by the negated accumulated flow, and the accumulated flow.  The
    run returns on every frame pair whose extents are positive multiples of
    32, in training mode ([tr = true]) unless the pair is a single one of
    32 x 32 frames. *)
Theorem IFNet_forward_stage_inputs {numerics : Numerics} (n : nat)
        (tr : bool) (x : Tensor) :
  let self := IFNet.train tr (fst (IFNet.init n)) in
  (forall N h w,
     0 < h -> 0 < w -> shape x = mkShape N 6 (32 * h) (32 * w) ->
     (tr = true -> N * (h * w) <> 1) ->
     exists F4 Fs, IFNet.forward self x = Ok (F4, Fs)) /\
  (forall F4 Fs,
     IFNet.forward self x = Ok (F4, Fs) ->
     exists x' i1 i2 i3 flow0 flow1 flow2 flow3 F1 F2 F3,
       interpolate x (1 # 2) = Ok x' /\
       IFBlock.forward (IFNet.block0 self) x' = Ok flow0 /\
       F1 = flow0 /\
       stage_input x' F1 i1 /\
       IFBlock.forward (IFNet.block1 self) i1 = Ok flow1 /\
       add F1 flow1 = Ok F2 /\
       stage_input x' F2 i2 /\
       IFBlock.forward (IFNet.block2 self) i2 = Ok flow2 /\
       add F2 flow2 = Ok F3 /\
       stage_input x' F3 i3 /\
       IFBlock.forward (IFNet.block3 self) i3 = Ok flow3 /\
       add F3 flow3 = Ok F4 /\
       Fs = [F1; F2; F3; F4]).
Proof.
  cbv zeta. split.
  - intros N h w Hh Hw Sx Hbn.
    destruct (IFNet.init n) as [self n'] eqn:E. cbn [fst].
    pose proof (IFNet_forward_returns _ _ _ E tr N h w x Hh Hw Sx Hbn) as Hrun.
    apply returns_ex in Hrun. destruct Hrun as ([F4 Fs] & Er & _). eauto.
  - intros F4 Fs Hrun.
    destruct (IFNet_forward_inv _ _ _ _ Hrun)
      as (x' & flow0 & flow1 & flow2 & flow3 & i1 & i2 & i3 & F2 & F3 & Hinv).
    exists x', i1, i2, i3, flow0, flow1, flow2, flow3, flow0, F2, F3.
    intuition.
Qed.

(** The network in evaluation mode, as [RIFE] uses it, on a blank pair of
    32 x 32 frames: the first block runs on a 16 x 16 tensor. *)
Lemma IFNet_forward_stage_inputs_witness :
  let self := IFNet.eval (fst (IFNet.init 0%nat)) in
  exists F4 Fs x' flow0,
    @IFNet.forward zero_numerics self (blank 1 6 32 32) = Ok (F4, Fs) /\
    @interpolate zero_numerics (blank 1 6 32 32) (1 # 2) = Ok x' /\
    @IFBlock.forward zero_numerics (IFNet.block0 self) x' = Ok flow0 /\
    nth_error Fs 0 = Some flow0 /\ List.length Fs = 4%nat.
Proof.
  cbv zeta. unfold IFNet.eval.
  destruct (@IFNet_forward_stage_inputs zero_numerics 0%nat false
              (blank 1 6 32 32)) as [Hruns Hstages].
  destruct (Hruns 1 1 1 ltac:(lia) ltac:(lia) eq_refl ltac:(discriminate))
    as (F4 & Fs & Hrun).
  destruct (Hstages F4 Fs Hrun)
    as (x' & _ & _ & _ & flow0 & _ & _ & _ & F1 & F2 & F3 & Ex' & E0 & HF1
        & _ & _ & _ & _ & _ & _ & _ & _ & _ & HFs).
  exists F4, Fs, x', flow0. subst Fs F1.
  repeat split; assumption.
Defined.

(** ** ContextNet *)

Section ContextNetClaims.

Context {numerics : Numerics}.

(** Two successive levels whose flows have the resolutions of the feature
    maps they warp: the second has exactly half the height and the width of
    the first. *)
Lemma level_halves (cin cout : Z) (n n' : nat) (blk : ResBlock.t)
      (x x' flow flow' f f' : Tensor) :
  ResBlock.init cin cout 2 (Some "rife"%string) n = (blk, n') ->
  warp x flow = Ok f ->
  ResBlock.forward blk x = Ok x' ->
  halved flow flow' ->
  warp x' flow' = Ok f' ->
  matched x flow -> matched x' flow' ->
  height (shape f) = 2 * height (shape f') /\
  width (shape f) = 2 * width (shape f').
Proof.
  intros E Ef Ex' Hh Ef' (Mb & Mh & Mw) (Mb' & Mh' & Mw').
  apply (warp_matched _ _ _ Mb Mh Mw) in Ef.
  apply (warp_matched _ _ _ Mb' Mh' Mw') in Ef'.
  apply halved_shape in Hh. destruct Hh as (Hh & Hw).
  rewrite <- (ResBlock_rife_train _ _ _ _ _ _ true E) in Ex'.
  pose proof (ResBlock_forward_shape _ _ _ _ _ _ _ _ _ E Ex') as Sx'.
  rewrite Ef, Ef', Sx'. rewrite Sx' in Mh', Mw'.
  cbn [height width] in *. unfold conv_out in *.
  split; Z.div_mod_to_equations; lia.
Qed.

(** The first level of every run on a 36 x 36 image with an 18 x 18 flow. *)
Lemma first_level_of_36 (self : ContextNet.t) (n' : nat) (x flow : Tensor)
      (fs : list Tensor) :
  ContextNet.init 32 0%nat = (self, n') ->
  shape x = mkShape 1 3 36 36 -> shape flow = mkShape 1 2 18 18 ->
  ContextNet.forward self x flow = Ok fs ->
  exists f1 rest, fs = f1 :: rest /\ shape f1 = mkShape 1 32 9 9.
Proof.
  intros E Sx Sflow Hrun.
  destruct (ContextNet_forward_inv _ _ _ _ Hrun)
    as (x0 & x1 & x2 & x3 & x4 & flow1 & flow2 & flow3 & flow4
        & f1 & f2 & f3 & f4 & E0 & E1 & _ & _ & _ & H1 & _ & _ & _
        & W1 & _ & _ & _ & ->).
  exists f1, [f2; f3; f4]. split; [ reflexivity | ].
  cbv [ContextNet.init then_ unit_ fresh conv new_Conv2d new_PReLU mode_is] in E.
  cbn [String.eqb Ascii.eqb Bool.eqb] in E.
  name_blocks E. apply pair_equal_spec in E. destruct E as [<- <-].
  cbn [ContextNet.conv0 ContextNet.conv1 call] in E0, E1.
  assert (S0 : shape x0 = mkShape 1 32 18 18).
  { destruct (run_seq_Conv2d_inv _ _ _ _ _ _ _ _ _ _ _ E0)
      as (Ec & Hst & Hh & Hw).
    pose proof (returns_eq _ _ _
                  (conv_rife_returns _ _ _ _ _ _ _ _ _ Ec Hst Hh Hw) E0) as S0.
    rewrite Sx in S0. exact S0. }
  rewrite <- (ResBlock_rife_train _ _ _ _ _ _ true Rb) in E1.
  pose proof (ResBlock_forward_shape _ _ _ _ _ _ _ _ _ Rb E1) as S1.
  rewrite S0 in S1. cbn [batch height width] in S1.
  change (conv_out 18 3 2 1 1) with 9 in S1.
  destruct H1 as (g & Eg & Sg & _). apply interpolate_inv in Eg.
  destruct Eg as (Eg & _). rewrite Sflow in Eg.
  cbn [batch channels height width] in Eg.
  change (resized 18 (1 # 2)) with 9 in Eg.
  assert (Sf1 : shape flow1 = mkShape 1 2 9 9) by (rewrite Sg; exact Eg).
  apply warp_matched in W1; [ | rewrite Sf1, S1; reflexivity .. ].
  rewrite W1. exact S1.
Qed.

End ContextNetClaims.

(** C7, as stated, fails: not every image and flow give levels of half the
    resolution of the one before.  On a 36 x 36 image with an 18 x 18 flow
    the feature maps have the extents 9, 5, 3 and 2 and the flows the extents
    9, 4, 2 and 1; [forward] returns four levels, the first of 9 x 9, so the
    second is not of half its height or width.  The first level is of 9 x 9
    whatever [warp] does where feature map and flow do not match. *)
Lemma ContextNet_levels_not_halved :
  let self := fst (ContextNet.init 32 0%nat) in
  let x := blank 1 3 36 36 in
  let flow := blank 1 2 18 18 in
  (exists f1 f2 f3 f4,
     @ContextNet.forward zero_numerics self x flow = Ok [f1; f2; f3; f4] /\
     height (shape f1) = 9 /\ width (shape f1) = 9 /\
     height (shape f1) <> 2 * height (shape f2) /\
     width (shape f1) <> 2 * width (shape f2)) /\
  (forall (numerics : Numerics) (fs : list Tensor),
     ContextNet.forward self x flow = Ok fs ->
     exists f1 rest,
       fs = f1 :: rest /\ height (shape f1) = 9 /\ width (shape f1) = 9 /\
       forall f2 : Tensor,
         height (shape f1) <> 2 * height (shape f2) /\
         width (shape f1) <> 2 * width (shape f2)).
Proof.
  cbv zeta. split.
  - assert (Hrun : match @ContextNet.forward zero_numerics
                           (fst (ContextNet.init 32 0%nat))
                           (blank 1 3 36 36) (blank 1 2 18 18) with
                   | Ok [f1; f2; f3; f4] =>
                       height (shape f1) = 9 /\ width (shape f1) = 9 /\
                       height (shape f1) <> 2 * height (shape f2) /\
                       width (shape f1) <> 2 * width (shape f2)
                   | _ => False
                   end)
      by (vm_compute; repeat split; discriminate).
    destruct (@ContextNet.forward zero_numerics _ _ _)
      as [[|f1 [|f2 [|f3 [|f4 [|f5 rest]]]]]|]; try contradiction.
    exists f1, f2, f3, f4. split; [ reflexivity | exact Hrun ].
  - intros numerics fs Hrun.
    destruct (ContextNet.init 32 0%nat) as [self n'] eqn:E. cbn [fst] in Hrun.
    destruct (first_level_of_36 _ _ (blank 1 3 36 36) (blank 1 2 18 18) _ E
                eq_refl eq_refl Hrun)
      as (f1 & rest & -> & S1).
    exists f1, rest. rewrite S1. cbn [height width].
    repeat split; lia.
Qed.

(** C7 (amended): on an image of 3 channels whose extents are positive
    multiples of 32, with a flow of 2 channels of half its resolution,
    [ContextNet.forward] returns a list of exactly four tensors, each of half
    the height and half the width of the one before.  Whenever it returns,
    on any image and flow, its result is a list of exactly four tensors;
    level [k] is the feature map [x_k] warped by the flow [flow_k], where
    [flow_1] is the given flow resized bilinearly by 0.5 with its entries
    multiplied by 0.5, and [flow_k] for [k > 1] is obtained in the same way
    from [flow_(k-1)], not from the given flow; and a level has half the
    height and half the width of the one before whenever the flows of the
    two levels have the resolutions of the feature maps they warp. *)
Theorem ContextNet_forward_pyramid {numerics : Numerics} (c : Z) (n : nat)
        (x flow : Tensor) :
  let self := fst (ContextNet.init c n) in
  (forall N h w,
     0 < h -> 0 < w ->
     shape x = mkShape N 3 (32 * h) (32 * w) ->
     shape flow = mkShape N 2 (16 * h) (16 * w) ->
     exists f1 f2 f3 f4,
       ContextNet.forward self x flow = Ok [f1; f2; f3; f4] /\
       height (shape f1) = 2 * height (shape f2) /\
       width (shape f1) = 2 * width (shape f2) /\
       height (shape f2) = 2 * height (shape f3) /\
       width (shape f2) = 2 * width (shape f3) /\
       height (shape f3) = 2 * height (shape f4) /\
       width (shape f3) = 2 * width (shape f4)) /\
  (forall fs,
     ContextNet.forward self x flow = Ok fs ->
     exists f1 f2 f3 f4 x1 x2 x3 x4 flow1 flow2 flow3 flow4,
       fs = [f1; f2; f3; f4] /\
       ResBlock.forward (ContextNet.conv2 self) x1 = Ok x2 /\
       ResBlock.forward (ContextNet.conv3 self) x2 = Ok x3 /\
       ResBlock.forward (ContextNet.conv4 self) x3 = Ok x4 /\
       warp x1 flow1 = Ok f1 /\ warp x2 flow2 = Ok f2 /\
       warp x3 flow3 = Ok f3 /\ warp x4 flow4 = Ok f4 /\
       halved flow flow1 /\ halved flow1 flow2 /\
       halved flow2 flow3 /\ halved flow3 flow4 /\
       (matched x1 flow1 -> matched x2 flow2 ->
        height (shape f1) = 2 * height (shape f2) /\
        width (shape f1) = 2 * width (shape f2)) /\
       (matched x2 flow2 -> matched x3 flow3 ->
        height (shape f2) = 2 * height (shape f3) /\
        width (shape f2) = 2 * width (shape f3)) /\
       (matched x3 flow3 -> matched x4 flow4 ->
        height (shape f3) = 2 * height (shape f4) /\
        width (shape f3) = 2 * width (shape f4))).
Proof.
  cbv zeta.
  destruct (ContextNet.init c n) as [self n'] eqn:E. cbn [fst].
  split.
  - intros N h w Hh Hw Sx Sflow.
    pose proof (ContextNet_forward_returns _ _ _ _ E true N 2 h w x flow
                  Hh Hw ltac:(lia) Sx Sflow) as Hrun.
    rewrite (ContextNet_train_any _ _ _ _ true E) in Hrun.
    apply returns_ex in Hrun.
    destruct Hrun as (fs & Er & f1 & f2 & f3 & f4 & -> & S1 & S2 & S3 & S4).
    exists f1, f2, f3, f4. rewrite S1, S2, S3, S4. cbn [height width].
    repeat split; try lia. exact Er.
  - intros fs Hrun.
    destruct (ContextNet_forward_inv _ _ _ _ Hrun)
      as (x0 & x1 & x2 & x3 & x4 & flow1 & flow2 & flow3 & flow4
          & f1 & f2 & f3 & f4 & E0 & E1 & E2 & E3 & E4 & H1 & H2 & H3 & H4
          & W1 & W2 & W3 & W4 & ->).
    cbv [ContextNet.init then_ unit_ fresh conv new_Conv2d new_PReLU mode_is] in E.
    cbn [String.eqb Ascii.eqb Bool.eqb] in E.
    name_blocks E. apply pair_equal_spec in E. destruct E as [<- <-].
    cbn [ContextNet.conv1 ContextNet.conv2 ContextNet.conv3 ContextNet.conv4] in *.
    exists f1, f2, f3, f4, x1, x2, x3, x4, flow1, flow2, flow3, flow4.
    repeat match goal with |- _ /\ _ => split end; auto.
    + exact (level_halves _ _ _ _ _ _ _ _ _ _ _ Rb0 W1 E2 H2 W2).
    + exact (level_halves _ _ _ _ _ _ _ _ _ _ _ Rb1 W2 E3 H3 W3).
    + exact (level_halves _ _ _ _ _ _ _ _ _ _ _ Rb2 W3 E4 H4 W4).
Qed.

(** A blank 32 x 32 image with a blank 16 x 16 flow: levels of extent 8, 4,
    2 and 1. *)
Lemma ContextNet_forward_pyramid_witness :
  exists f1 f2 f3 f4,
    @ContextNet.forward zero_numerics (fst (ContextNet.init 32 0%nat))
      (blank 1 3 32 32) (blank 1 2 16 16) = Ok [f1; f2; f3; f4] /\
    height (shape f1) = 2 * height (shape f2) /\
    height (shape f2) = 2 * height (shape f3) /\
    height (shape f3) = 2 * height (shape f4).
Proof.
  destruct (@ContextNet_forward_pyramid zero_numerics 32 0%nat
              (blank 1 3 32 32) (blank 1 2 16 16)) as [Hruns _].
  destruct (Hruns 1 1 1 ltac:(lia) ltac:(lia) eq_refl eq_refl)
    as (f1 & f2 & f3 & f4 & Hrun & A1 & _ & A2 & _ & A3 & _).
  exists f1, f2, f3, f4. auto.
Defined.

(** ** FusionNet *)

Lemma blank_pyramid_shapes : pyramid_shapes blank_pyramid 1 32 1 1.
Proof.
  exists (blank 1 32 8 8), (blank 1 64 4 4), (blank 1 128 2 2), (blank 1 256 1 1).
  repeat split.
Qed.

(** C4: [FusionNet.forward] returns on well-shaped inputs, with or without a
    ground-truth flow of the resolution of the images; and whenever it
    returns, [warped_img0_gt] and [warped_img1_gt] are both [None] exactly
    when [flow_gt] is [None], and for a given [flow_gt] they are [img0]
    warped by channels 0 and 1 of [flow_gt] and [img1] warped by its channels
    2 and 3. *)
Theorem FusionNet_forward_gt {numerics : Numerics} (c : Z) (n : nat)
        (img0 img1 flow : Tensor) (c0 c1 : list Tensor)
        (flow_gt : option Tensor) :
  let self := fst (FusionNet.init c n) in
  (forall N h w,
     0 < h -> 0 < w ->
     shape img0 = mkShape N 3 (32 * h) (32 * w) ->
     shape img1 = mkShape N 3 (32 * h) (32 * w) ->
     shape flow = mkShape N 2 (32 * h) (32 * w) ->
     pyramid_shapes c0 N c h w -> pyramid_shapes c1 N c h w ->
     flow_gt_fits flow_gt N (32 * h) (32 * w) ->
     exists o, FusionNet.forward self img0 img1 flow c0 c1 flow_gt = Ok o) /\
  (forall o,
     FusionNet.forward self img0 img1 flow c0 c1 flow_gt = Ok o ->
     ((FusionNet.warped_img0_gt o = None /\ FusionNet.warped_img1_gt o = None)
      <-> flow_gt = None) /\
     (forall g, flow_gt = Some g ->
        exists g0 g1,
          warp img0 (slice_channels g 0 (Some 2)) = Ok g0 /\
          warp img1 (slice_channels g 2 (Some 4)) = Ok g1 /\
          FusionNet.warped_img0_gt o = Some g0 /\
          FusionNet.warped_img1_gt o = Some g1)).
Proof.
  cbv zeta.
  destruct (FusionNet.init c n) as [self n'] eqn:E. cbn [fst].
  split.
  - intros N h w Hh Hw S0 S1 Sflow P0 P1 Hgt.
    pose proof (FusionNet_forward_returns _ _ _ _ E true N h w img0 img1 flow
                  c0 c1 flow_gt Hh Hw S0 S1 Sflow P0 P1 Hgt) as Hrun.
    rewrite (FusionNet_train_any _ _ _ _ true E) in Hrun.
    apply returns_ex in Hrun. destruct Hrun as (o & Er & _). eauto.
  - intros o Hrun.
    destruct (FusionNet_forward_inv _ _ _ _ _ _ _ _ Hrun) as (_ & _ & Hgt & _).
    destruct flow_gt as [g|].
    + destruct Hgt as (g0 & g1 & E0 & E1 & G0 & G1). split.
      * split; [ | discriminate ]. intros [A _]. congruence.
      * intros g' [= <-]. exists g0, g1. auto.
    + split.
      * split; auto.
      * discriminate.
Qed.

(** A supplied ground-truth flow of four channels: both outputs are
    tensors. *)
Lemma FusionNet_forward_gt_witness :
  exists o g0 g1,
    @FusionNet.forward zero_numerics (fst (FusionNet.init 32 0%nat))
      (blank 1 3 32 32) (blank 1 3 32 32) (blank 1 2 32 32)
      blank_pyramid blank_pyramid (Some (blank 1 4 32 32)) = Ok o /\
    FusionNet.warped_img0_gt o = Some g0 /\
    FusionNet.warped_img1_gt o = Some g1.
Proof.
  destruct (@FusionNet_forward_gt zero_numerics 32 0%nat
              (blank 1 3 32 32) (blank 1 3 32 32) (blank 1 2 32 32)
              blank_pyramid blank_pyramid (Some (blank 1 4 32 32)))
    as [Hruns Hgt].
  destruct (Hruns 1 1 1 ltac:(lia) ltac:(lia) eq_refl eq_refl eq_refl
              blank_pyramid_shapes blank_pyramid_shapes
              (conj eq_refl (conj eq_refl eq_refl))) as (o & Hrun).
  destruct (Hgt o Hrun) as (_ & Hsome).
  destruct (Hsome _ eq_refl) as (g0 & g1 & _ & _ & G0 & G1).
  exists o, g0, g1. auto.
Defined.

(** C3, as stated, fails: on well-shaped blank inputs the first tensor that
    [FusionNet.forward] returns has 4 channels, not 16. *)
Lemma FusionNet_refine_output_has_4_channels :
  exists o,
    @FusionNet.forward zero_numerics (fst (FusionNet.init 32 0%nat))
      (blank 1 3 32 32) (blank 1 3 32 32) (blank 1 2 32 32)
      blank_pyramid blank_pyramid None = Ok o /\
    channels (shape (FusionNet.refine_output o)) = 4 /\
    channels (shape (FusionNet.refine_output o)) <> 16.
Proof.
  destruct (FusionNet.init 32 0%nat) as [self n'] eqn:E. cbn [fst].
  pose proof (@FusionNet_forward_returns zero_numerics _ _ _ _ E true 1 1 1
                (blank 1 3 32 32) (blank 1 3 32 32) (blank 1 2 32 32)
                blank_pyramid blank_pyramid None ltac:(lia) ltac:(lia)
                eq_refl eq_refl eq_refl blank_pyramid_shapes
                blank_pyramid_shapes I) as Hrun.
  rewrite (FusionNet_train_any _ _ _ _ true E) in Hrun.
  apply returns_ex in Hrun. destruct Hrun as (o & Er & So & _).
  exists o. rewrite So. cbn [channels]. repeat split; [ exact Er | lia ].
Qed.

(** C3 (amended): [FusionNet.forward] returns on well-shaped inputs, and the
    first tensor of every result has exactly 4 channels (the three residual
    channels and the mask channel that [RIFE.forward] reads): it is the
    16-channel output of the last convolution after a pixel shuffle of
    factor 2, which divides the channels by 4 and doubles height and width. *)
Theorem FusionNet_forward_channels {numerics : Numerics} (c : Z) (n : nat)
        (img0 img1 flow : Tensor) (c0 c1 : list Tensor)
        (flow_gt : option Tensor) :
  let self := fst (FusionNet.init c n) in
  (forall N h w,
     0 < h -> 0 < w ->
     shape img0 = mkShape N 3 (32 * h) (32 * w) ->
     shape img1 = mkShape N 3 (32 * h) (32 * w) ->
     shape flow = mkShape N 2 (32 * h) (32 * w) ->
     pyramid_shapes c0 N c h w -> pyramid_shapes c1 N c h w ->
     flow_gt_fits flow_gt N (32 * h) (32 * w) ->
     exists o, FusionNet.forward self img0 img1 flow c0 c1 flow_gt = Ok o) /\
  (forall o,
     FusionNet.forward self img0 img1 flow c0 c1 flow_gt = Ok o ->
     channels (shape (FusionNet.refine_output o)) = 4 /\
     exists u x16,
       run (FusionNet.conv self) u = Ok x16 /\
       channels (shape x16) = 16 /\
       run (PixelShuffle 2) x16 = Ok (FusionNet.refine_output o) /\
       height (shape (FusionNet.refine_output o)) = 2 * height (shape x16) /\
       width (shape (FusionNet.refine_output o)) = 2 * width (shape x16)).
Proof.
  cbv zeta.
  destruct (FusionNet.init c n) as [self n'] eqn:E. cbn [fst].
  split.
  - intros N h w Hh Hw S0 S1 Sflow P0 P1 Hgt.
    pose proof (FusionNet_forward_returns _ _ _ _ E true N h w img0 img1 flow
                  c0 c1 flow_gt Hh Hw S0 S1 Sflow P0 P1 Hgt) as Hrun.
    rewrite (FusionNet_train_any _ _ _ _ true E) in Hrun.
    apply returns_ex in Hrun. destruct Hrun as (o & Er & _). eauto.
  - intros o Hrun.
    destruct (FusionNet_forward_inv _ _ _ _ _ _ _ _ Hrun)
      as (_ & _ & _ & u & x16 & Econv & Eup).
    cbv [FusionNet.init then_ unit_ fresh conv deconv new_Conv2d
         new_ConvTranspose2d new_PReLU mode_is] in E.
    cbn [String.eqb Ascii.eqb Bool.eqb] in E.
    name_blocks E. apply pair_equal_spec in E. destruct E as [<- <-].
    cbn [FusionNet.conv FusionNet.up4] in *.
    pose proof (run_shape _ _ _ Econv) as Sconv.
    pose proof (run_shape _ _ _ Eup) as Sup.
    cbn [Layer_shape] in Sconv, Sup.
    destruct (_ && _)%bool in Sconv; [ | discriminate ].
    injection Sconv as Sconv. rewrite <- Sconv in Sup.
    cbn [channels height width] in Sup.
    change ((0 <? 2) && (16 mod (2 * 2) =? 0))%bool with true in Sup.
    change (16 / (2 * 2)) with 4 in Sup.
    injection Sup as Sup.
    rewrite <- Sup. cbn [channels height width].
    split; [ reflexivity | ].
    exists u, x16. rewrite <- Sconv. cbn [channels height width].
    repeat split; auto; lia.
Qed.

(** Blank well-shaped inputs, no ground-truth flow. *)
Lemma FusionNet_forward_channels_witness :
  exists o,
    @FusionNet.forward zero_numerics (fst (FusionNet.init 32 0%nat))
      (blank 1 3 32 32) (blank 1 3 32 32) (blank 1 2 32 32)
      blank_pyramid blank_pyramid None = Ok o /\
    channels (shape (FusionNet.refine_output o)) = 4.
Proof.
  destruct (@FusionNet_forward_channels zero_numerics 32 0%nat
              (blank 1 3 32 32) (blank 1 3 32 32) (blank 1 2 32 32)
              blank_pyramid blank_pyramid None) as [Hruns Hchannels].
  destruct (Hruns 1 1 1 ltac:(lia) ltac:(lia) eq_refl eq_refl eq_refl
              blank_pyramid_shapes blank_pyramid_shapes I) as (o & Hrun).
  destruct (Hchannels o Hrun) as (H4 & _).
  exists o. auto.
Defined.

(** * Further properties of the networks *)

(** ** What a successful run of a layer says *)

Section LayerRuns.

Context {numerics : Numerics}.

Lemma run_Conv2d_shape (p : nat) (cin cout k st pad d : Z) (b : bool)
      (x y : Tensor) :
  run (Conv2d p cin cout k st pad d b) x = Ok y ->
  shape y = mkShape (batch (shape x)) cout
                    (conv_out (height (shape x)) k st pad d)
                    (conv_out (width (shape x)) k st pad d).
Proof.
  intros H. apply run_shape in H. cbn [Layer_shape] in H.
  destruct (_ && _)%bool; [ | discriminate ].
  injection H as <-. reflexivity.
Qed.

Lemma run_BatchNorm2d_inv (p : nat) (n : Z) (tr : bool) (x y : Tensor) :
  run (BatchNorm2d p n tr) x = Ok y ->
  shape y = shape x /\
  (tr = true -> batch (shape x) * (height (shape x) * width (shape x)) <> 1).
Proof.
  intros H. apply run_shape in H. cbn [Layer_shape] in H.
  destruct (tr && _)%bool eqn:Hbn; [ discriminate | ].
  destruct (channels (shape x) =? n); [ | discriminate ].
  injection H as <-. split; [ reflexivity | ].
  intros ->. cbn [andb] in Hbn. apply Z.eqb_neq. exact Hbn.
Qed.

Lemma run_PReLU_inv (p : nat) (n : Z) (x y : Tensor) :
  run (PReLU p n) x = Ok y -> shape y = shape x.
Proof.
  intros H. apply run_shape in H. cbn [Layer_shape] in H.
  destruct (_ || _)%bool; [ | discriminate ].
  injection H as <-. reflexivity.
Qed.

Lemma run_PixelShuffle_inv (r : Z) (x y : Tensor) :
  run (PixelShuffle r) x = Ok y ->
  shape y = mkShape (batch (shape x)) (channels (shape x) / (r * r))
                    (height (shape x) * r) (width (shape x) * r).
Proof.
  intros H. apply run_shape in H. cbn [Layer_shape] in H.
  destruct (_ && _)%bool; [ | discriminate ].
  injection H as <-. reflexivity.
Qed.

Lemma run_ConvTranspose2d_shape (p : nat) (cin cout k st pad : Z) (b : bool)
      (x y : Tensor) :
  run (ConvTranspose2d p cin cout k st pad b) x = Ok y ->
  shape y = mkShape (batch (shape x)) cout
                    (deconv_out (height (shape x)) k st pad)
                    (deconv_out (width (shape x)) k st pad).
Proof.
  intros H. apply run_shape in H. cbn [Layer_shape] in H.
  destruct (_ && _)%bool; [ | discriminate ].
  injection H as <-. reflexivity.
Qed.

End LayerRuns.

(** ** The factory functions *)



Lemma mode_is_true (mode : option string) (tag : string) :
  mode_is mode tag = true <-> mode = Some tag.
Proof.
  destruct mode as [m|]; cbn [mode_is].
  - rewrite String.eqb_eq. split; congruence.
  - split; discriminate.
Qed.

Section ConvModules.

Context {numerics : Numerics}.

(** What a successful run of a module of mode 'ifnet' says: the batch
    normalisation saw more than one value per channel, or was not in
    training mode. *)
Lemma conv_ifnet_inv (p q : nat) (cin cout k st pad d : Z) (tr : bool)
      (rest : Sequential) (x y : Tensor) :
  run_seq (Conv2d p cin cout k st pad d false :: BatchNorm2d q cout tr :: rest) x
    = Ok y ->
  tr = true ->
  batch (shape x) * (conv_out (height (shape x)) k st pad d
                     * conv_out (width (shape x)) k st pad d) <> 1.
Proof.
  cbn [run_seq]. intros E. bind_inv E. bind_inv E.
  apply run_Conv2d_shape in E0. apply run_BatchNorm2d_inv in E1.
  destruct E1 as (_ & Hbn). rewrite E0 in Hbn. exact Hbn.
Qed.

(** The shape of every result of a module of mode 'ifnet'. *)
Lemma conv_ifnet_result (p q r : nat) (cin cout k st pad d : Z) (tr : bool)
      (x y : Tensor) :
  run_seq [Conv2d p cin cout k st pad d false; BatchNorm2d q cout tr;
           PReLU r cout] x = Ok y ->
  shape y = mkShape (batch (shape x)) cout
                    (conv_out (height (shape x)) k st pad d)
                    (conv_out (width (shape x)) k st pad d).
Proof.
  intros E.
  destruct (run_seq_Conv2d_inv _ _ _ _ _ _ _ _ _ _ _ E) as (Ec & Hst & Hh & Hw).
  exact (returns_eq _ _ _
           (conv_ifnet_returns _ _ _ _ _ _ _ _ _ _ _ Ec Hst Hh Hw
              (conv_ifnet_inv _ _ _ _ _ _ _ _ _ _ _ _ E)) E).
Qed.


End ConvModules.


(** ** ResBlock *)

Section ResBlockRuns.

Context {numerics : Numerics}.

(** Everything that a successful run of a block says about the block and
    about its input. *)
Lemma ResBlock_forward_inv (cin cout st : Z) (mode : option string)
      (n n' : nat) (self : ResBlock.t) (tr : bool) (x y : Tensor) :
  ResBlock.init cin cout st mode n = (self, n') ->
  ResBlock.forward (ResBlock.train tr self) x = Ok y ->
  known_mode mode /\
  channels (shape x) = cin /\ 0 < st /\
  1 <= height (shape x) /\ 1 <= width (shape x) /\
  (mode = Some "ifnet"%string -> tr = true ->
   batch (shape x) * (conv_out (height (shape x)) 3 st 1 1
                      * conv_out (width (shape x)) 3 st 1 1) <> 1).
Proof.
  intros E Hrun.
  assert (Hm : known_mode mode).
  { destruct (mode_is mode "rife") eqn:M1;
      [ left; apply mode_is_true; exact M1 | ].
    destruct (mode_is mode "ifnet") eqn:M2;
      [ right; apply mode_is_true; exact M2 | ].
    exfalso. unfold ResBlock.forward in Hrun.
    bind_inv Hrun. bind_inv Hrun. clear Hrun E0.
    cbv [ResBlock.init then_ unit_ fresh conv conv_woact new_Conv2d new_PReLU]
      in E.
    rewrite M1, M2 in E.
    destruct ((cin =? cout) && (st =? 1))%bool;
      injection E as <- <-; discriminate E1. }
  split; [ exact Hm | ].
  destruct (ResBlock_forward_input _ _ _ _ _ _ _ _ _ _ Hm E Hrun)
    as (Ec & Hst & Hh & Hw).
  repeat split; try assumption.
  intros -> ->. unfold ResBlock.forward in Hrun.
  bind_inv Hrun. bind_inv Hrun. clear Hrun E0.
  init_eq E.
  destruct ((cin =? cout) && (st =? 1))%bool;
    injection E as <- <-;
    cbn [ResBlock.train PyModule_train Sequential_train option_map List.map
         Layer_train ResBlock.conv1 call] in E1;
    apply conv_ifnet_inv in E1; try reflexivity;
    rewrite !conv_out_same_padding in * by lia; exact E1.
Qed.

End ResBlockRuns.

(** X3: a block of positive widths, in training mode ([tr = true], as it is
    built) or in evaluation mode, returns exactly when its mode is 'rife' or
    'ifnet', its stride is positive and the input has [in_planes] channels
    and at least one row and one column, and, for mode 'ifnet' in training
    mode, the result has more than one value per channel.  Every result has
    [out_planes] channels and the extents [floor((len - 1) / stride) + 1]. *)
Theorem ResBlock_forward_runs {numerics : Numerics}
        (in_planes out_planes stride : Z) (mode : option string) (n : nat)
        (tr : bool) (x : Tensor) :
  0 < in_planes -> 0 < out_planes ->
  let self :=
    ResBlock.train tr (fst (ResBlock.init in_planes out_planes stride mode n)) in
  let out len := (len - 1) / stride + 1 in
  ((exists y, ResBlock.forward self x = Ok y) <->
   known_mode mode /\
   channels (shape x) = in_planes /\ 0 < stride /\
   1 <= height (shape x) /\ 1 <= width (shape x) /\
   (mode = Some "ifnet"%string -> tr = true ->
    batch (shape x) * (out (height (shape x)) * out (width (shape x))) <> 1)) /\
  (forall y,
     ResBlock.forward self x = Ok y ->
     shape y = mkShape (batch (shape x)) out_planes
                       (out (height (shape x))) (out (width (shape x)))).
Proof.
  intros _ _. cbv zeta.
  destruct (ResBlock.init in_planes out_planes stride mode n) as [self n']
    eqn:E.
  cbn [fst].
  assert (Hout : forall len, conv_out len 3 stride 1 1 = (len - 1) / stride + 1)
    by (intros len; apply conv_out_same_padding; lia).
  assert (Hshape : forall y,
            ResBlock.forward (ResBlock.train tr self) x = Ok y ->
            known_mode mode /\
            channels (shape x) = in_planes /\ 0 < stride /\
            1 <= height (shape x) /\ 1 <= width (shape x) /\
            (mode = Some "ifnet"%string -> tr = true ->
             batch (shape x) * (((height (shape x) - 1) / stride + 1)
                                * ((width (shape x) - 1) / stride + 1)) <> 1)).
  { intros y Hrun. rewrite <- !Hout.
    exact (ResBlock_forward_inv _ _ _ _ _ _ _ _ _ _ E Hrun). }
  split; [ split | ].
  - intros (y & Hrun). exact (Hshape y Hrun).
  - intros (Hm & Ec & Hst & Hh & Hw & Hbn). rewrite <- !Hout in Hbn.
    pose proof (ResBlock_forward_returns _ _ _ _ _ _ _ tr x Hm E Ec Hst Hh Hw
                  Hbn) as Hrun.
    apply returns_ex in Hrun. destruct Hrun as (y & Hrun & _). eauto.
  - intros y Hrun.
    destruct (Hshape y Hrun) as (Hm & Ec & Hst & Hh & Hw & Hbn).
    rewrite <- !Hout in *.
    exact (returns_eq _ _ _
             (ResBlock_forward_returns _ _ _ _ _ _ _ tr x Hm E Ec Hst Hh Hw Hbn)
             Hrun).
Qed.

(** The second block of [ContextNet], [ResBlock(32, 64, 2, mode='rife')], on
    a 9 x 9 input: a 5 x 5 result. *)
Lemma ResBlock_forward_runs_witness :
  exists y,
    @ResBlock.forward zero_numerics
      (ResBlock.train true
         (fst (ResBlock.init 32 64 2 (Some "rife"%string) 0%nat)))
      (blank 1 32 9 9) = Ok y /\
    shape y = mkShape 1 64 5 5.
Proof.
  destruct (@ResBlock_forward_runs zero_numerics 32 64 2 (Some "rife"%string)
              0%nat true (blank 1 32 9 9) ltac:(lia) ltac:(lia))
    as (Hruns & Hshape).
  destruct (proj2 Hruns) as (y & Hrun).
  - cbn. repeat split; try lia; try discriminate; left; reflexivity.
  - exists y. split; [ exact Hrun | exact (Hshape y Hrun) ].
Defined.

(** ** IFBlock *)

(** Resizing by [1 / s]: a division for a positive [s], nothing left for
    another one. *)
Lemma resized_inverse (len s : Z) :
  0 < s -> resized len (1 / inject_Z s) = len / s.
Proof.
  intros Hs. destruct s as [|p|p]; try lia.
  unfold resized, Qfloor, Qdiv, Qmult, Qinv, inject_Z; cbn [Qnum Qden].
  change (1 * 1) with 1. change (Z.pos (1 * (1 * p))) with (Z.pos p).
  rewrite Z.mul_1_r. reflexivity.
Qed.

Lemma resized_inverse_pos (len s : Z) :
  0 < len -> 0 < resized len (1 / inject_Z s) -> 0 < s.
Proof.
  intros Hlen. destruct s as [|p|p]; [ | lia | ].
  - unfold resized, Qfloor, Qdiv, Qmult, Qinv, inject_Z; cbn [Qnum Qden].
    rewrite Z.mul_0_r. cbn. lia.
  - unfold resized, Qfloor, Qdiv, Qmult, Qinv, inject_Z; cbn [Qnum Qden].
    change (1 * -1) with (-1). change (Z.pos (1 * (1 * p))) with (Z.pos p).
    intros H. exfalso.
    assert (len * -1 / Z.pos p < 0) by (apply Z.div_lt_upper_bound; lia).
    lia.
Qed.

Section IFBlockRuns.

Context {numerics : Numerics}.

(** The shape of every result of a block. *)
Lemma ResBlock_forward_result (cin cout st : Z) (mode : option string)
      (n n' : nat) (self : ResBlock.t) (tr : bool) (x y : Tensor) :
  ResBlock.init cin cout st mode n = (self, n') ->
  ResBlock.forward (ResBlock.train tr self) x = Ok y ->
  shape y = mkShape (batch (shape x)) cout
                    (conv_out (height (shape x)) 3 st 1 1)
                    (conv_out (width (shape x)) 3 st 1 1).
Proof.
  intros E Hrun.
  destruct (ResBlock_forward_inv _ _ _ _ _ _ _ _ _ _ E Hrun)
    as (Hm & Ec & Hst & Hh & Hw & Hbn).
  exact (returns_eq _ _ _
           (ResBlock_forward_returns _ _ _ _ _ _ _ tr x Hm E Ec Hst Hh Hw Hbn)
           Hrun).
Qed.

(** What a successful run of [IFBlock.forward] says. *)
Lemma IFBlock_forward_inv (cin s c : Z) (n n' : nat) (self : IFBlock.t)
      (tr : bool) (x y : Tensor) :
  IFBlock.init cin s c n = (self, n') ->
  IFBlock.forward (IFBlock.train tr self) x = Ok y ->
  0 < s /\ channels (shape x) = cin /\
  batch (shape y) = batch (shape x) /\ channels (shape y) = 2.
Proof.
  intros E Hrun.
  cbv [IFBlock.init then_ unit_ fresh conv new_Conv2d new_PReLU
       new_BatchNorm2d mode_is] in E.
  cbn [String.eqb Ascii.eqb Bool.eqb] in E.
  name_blocks E. injection E as <- <-.
  unfold IFBlock.forward in Hrun.
  cbn [IFBlock.train PyModule_train Sequential_train option_map List.map
       Layer_train IFBlock.scale IFBlock.conv0 IFBlock.res0 IFBlock.res1
       IFBlock.res2 IFBlock.res3 IFBlock.res4 IFBlock.res5 IFBlock.conv1
       IFBlock.up call] in Hrun.
  bind_inv Hrun. rename v into x0, E into Ex0.
  bind_inv Hrun. rename v into x1, E into Ex1.
  bind_inv Hrun. rename v into x2, E into Ex2.
  bind_inv Hrun. rename v into x3, E into Ex3.
  bind_inv Hrun. rename v into x4, E into Ex4.
  bind_inv Hrun. rename v into x5, E into Ex5.
  bind_inv Hrun. rename v into x6, E into Ex6.
  bind_inv Hrun. rename v into x7, E into Ex7.
  bind_inv Hrun. rename v into x8, E into Ex8.
  bind_inv Hrun. rename v into flow, E into Eflow.
  assert (Hin : (0 < s /\ batch (shape x0) = batch (shape x)
                 /\ channels (shape x0) = channels (shape x))).
  { destruct (s =? 1) eqn:Es; cbn [negb] in Ex0.
    - apply Z.eqb_eq in Es. injection Ex0 as <-. lia.
    - destruct (s =? 0); [ discriminate | ].
      pose proof Ex0 as Ex0'. apply interpolate_inv in Ex0'.
      destruct Ex0' as (S0 & _). rewrite S0. cbn [batch channels].
      unfold interpolate in Ex0.
      destruct (0 <? channels (shape x)); [ | discriminate ].
      destruct (0 <? height (shape x)) eqn:Hh; [ | discriminate ].
      destruct (0 <? width (shape x)); [ | discriminate ].
      destruct (0 <? resized (height (shape x)) (1 / inject_Z s)) eqn:Hh';
        [ | discriminate ].
      apply Z.ltb_lt in Hh, Hh'.
      repeat split. exact (resized_inverse_pos _ _ Hh Hh'). }
  destruct Hin as (Hs & Sb0 & Sc0).
  destruct (run_seq_Conv2d_inv _ _ _ _ _ _ _ _ _ _ _ Ex1) as (Ec & _).
  pose proof (conv_ifnet_result _ _ _ _ _ _ _ _ _ _ _ _ Ex1) as S1.
  pose proof (ResBlock_forward_result _ _ _ _ _ _ _ _ _ _ Rb Ex2) as S2.
  pose proof (ResBlock_forward_result _ _ _ _ _ _ _ _ _ _ Rb0 Ex3) as S3.
  pose proof (ResBlock_forward_result _ _ _ _ _ _ _ _ _ _ Rb1 Ex4) as S4.
  pose proof (ResBlock_forward_result _ _ _ _ _ _ _ _ _ _ Rb2 Ex5) as S5.
  pose proof (ResBlock_forward_result _ _ _ _ _ _ _ _ _ _ Rb3 Ex6) as S6.
  pose proof (ResBlock_forward_result _ _ _ _ _ _ _ _ _ _ Rb4 Ex7) as S7.
  pose proof (run_Conv2d_shape _ _ _ _ _ _ _ _ _ _ Ex8) as S8.
  pose proof (run_PixelShuffle_inv _ _ _ Eflow) as Sflow.
  assert (Sf : batch (shape flow) = batch (shape x)
               /\ channels (shape flow) = 2).
  { rewrite Sflow, S8, S7, S6, S5, S4, S3, S2, S1.
    cbn [batch channels]. split; [ exact Sb0 | reflexivity ]. }
  assert (Sy : batch (shape y) = batch (shape flow)
               /\ channels (shape y) = channels (shape flow)).
  { destruct (s =? 1); cbn [negb] in Hrun.
    - injection Hrun as <-. auto.
    - apply interpolate_inv in Hrun. destruct Hrun as (Sy & _).
      rewrite Sy. auto. }
  repeat split; try lia; congruence.
Qed.

(** In training mode the first module of a block refuses a single input of
    one or two rows and columns: its convolution of stride 2 leaves one value
    per channel. *)
Lemma conv_ifnet_single_raises (p q r : nat) (cin c : Z) (t : Tensor) :
  batch (shape t) = 1 -> channels (shape t) = cin ->
  1 <= height (shape t) <= 2 -> 1 <= width (shape t) <= 2 ->
  run_seq [Conv2d p cin c 5 2 2 1 false; BatchNorm2d q c true; PReLU r c] t
    = Raise ValueError.
Proof.
  intros Eb Ec Hh Hw. destruct t as [[N C H W] d].
  cbn [shape batch channels height width] in *. subst N C.
  cbn [run_seq run bind Layer_shape shape batch channels height width].
  rewrite Z.eqb_refl.
  assert (H = 1 \/ H = 2) as [-> | ->] by lia;
    assert (W = 1 \/ W = 2) as [-> | ->] by lia; reflexivity.
Qed.

Lemma IFBlock_single_raises (cin s c : Z) (n n' : nat) (self : IFBlock.t)
      (x : Tensor) :
  IFBlock.init cin s c n = (self, n') ->
  0 < cin -> 0 < s ->
  batch (shape x) = 1 -> channels (shape x) = cin ->
  s <= height (shape x) < 3 * s -> s <= width (shape x) < 3 * s ->
  IFBlock.forward self x = Raise ValueError.
Proof.
  intros E Hcin Hs Eb Ec Hh Hw.
  cbv [IFBlock.init then_ unit_ fresh conv new_Conv2d new_PReLU
       new_BatchNorm2d mode_is] in E.
  cbn [String.eqb Ascii.eqb Bool.eqb] in E.
  name_blocks E. injection E as <- <-.
  unfold IFBlock.forward.
  cbn [IFBlock.scale IFBlock.conv0 call].
  assert (Hq : forall len, s <= len < 3 * s -> 1 <= len / s <= 2).
  { intros len Hlen. split.
    - apply Z.div_le_lower_bound; lia.
    - assert (len / s < 3) by (apply Z.div_lt_upper_bound; lia). lia. }
  assert (E0 : exists x0,
             (if negb (s =? 1)
              then if s =? 0 then Raise ZeroDivisionError
                   else interpolate x (1 / inject_Z s)
              else Ok x) = Ok x0 /\
             batch (shape x0) = 1 /\ channels (shape x0) = cin /\
             1 <= height (shape x0) <= 2 /\ 1 <= width (shape x0) <= 2).
  { destruct (s =? 1) eqn:Es; cbn [negb].
    - apply Z.eqb_eq in Es. subst s. exists x. repeat split; auto; lia.
    - replace (s =? 0) with false by (symmetry; apply Z.eqb_neq; lia).
      specialize (Hq _ Hh) as Hh'. specialize (Hq _ Hw) as Hw'.
      apply returns_ex. eapply returns_weaken.
      + apply interpolate_returns; rewrite ?resized_inverse by lia; lia.
      + cbv beta. intros y Sy. rewrite Sy, !resized_inverse by lia.
        cbn [batch channels height width]. auto. }
  destruct E0 as (x0 & -> & Eb0 & Ec0 & Hh0 & Hw0). cbn [bind].
  rewrite (conv_ifnet_single_raises _ _ _ _ _ _ Eb0 Ec0 Hh0 Hw0).
  reflexivity.
Qed.

End IFBlockRuns.

(** X4: a block of [IFNet], for a scale that is a power of two as the four
    of [IFNet] are, in training mode ([tr = true], as it is built) or in
    evaluation mode.  On an input of [in_planes] channels whose extents are
    positive multiples of twice the scale it returns a flow of 2 channels
    with the batch size and the extents of the input (in training mode the
    features at the coarsest resolution must hold more than one value per
    channel).  Whenever it returns, the scale is positive, the input has
    [in_planes] channels, and the flow has 2 channels and the batch size of
    the input. *)
Theorem IFBlock_forward_flow {numerics : Numerics} (in_planes scale c : Z)
        (n : nat) (tr : bool) (x : Tensor) :
  0 < in_planes -> 0 < c ->
  let self := IFBlock.train tr (fst (IFBlock.init in_planes scale c n)) in
  (forall k a b,
     0 <= k -> scale = 2 ^ k -> 0 < a -> 0 < b ->
     channels (shape x) = in_planes ->
     height (shape x) = scale * (2 * a) ->
     width (shape x) = scale * (2 * b) ->
     (tr = true -> batch (shape x) * (a * b) <> 1) ->
     exists y,
       IFBlock.forward self x = Ok y /\
       shape y = mkShape (batch (shape x)) 2
                         (height (shape x)) (width (shape x))) /\
  (forall y,
     IFBlock.forward self x = Ok y ->
     0 < scale /\ channels (shape x) = in_planes /\
     batch (shape y) = batch (shape x) /\ channels (shape y) = 2).
Proof.
  intros Hin _. cbv zeta.
  destruct (IFBlock.init in_planes scale c n) as [self n'] eqn:E. cbn [fst].
  split.
  - intros k a b Hk -> Ha Hb Ec Eh Ew Hbn. apply returns_ex.
    assert (0 < 2 ^ k) by (apply Z.pow_pos_nonneg; lia).
    exact (IFBlock_forward_returns _ _ _ _ _ _ E tr a b x Hin
             ltac:(assumption) Ha Hb Ec Eh Ew Hbn).
  - intros y Hrun. exact (IFBlock_forward_inv _ _ _ _ _ _ _ _ _ E Hrun).
Qed.

(** The first block of [IFNet], [IFBlock(6, scale=8, c=192)], in training
    mode on a pair of 32 x 48 frames. *)
Lemma IFBlock_forward_flow_witness :
  exists y,
    @IFBlock.forward zero_numerics
      (IFBlock.train true (fst (IFBlock.init 6 8 192 0%nat))) (blank 1 6 32 48)
      = Ok y /\
    shape y = mkShape 1 2 32 48.
Proof.
  destruct (@IFBlock_forward_flow zero_numerics 6 8 192 0%nat true
              (blank 1 6 32 48) ltac:(lia) ltac:(lia)) as (Hruns & _).
  apply (Hruns 3 2 3); cbn; try reflexivity; lia.
Defined.

(** X5: the two ways a block of [IFNet] refuses every input of a class.
    Built with scale 0 it raises [ZeroDivisionError], in either mode, before
    it looks at the input.  Built with a scale that is a power of two, it
    raises [ValueError] in the training mode it is built in on every single
    input of [in_planes] channels whose extents are at least the scale and
    less than three times the scale: after the resizing by [1 / scale] and
    the first convolution, of stride 2, one value per channel is left, which
    the batch normalisation refuses. *)
Theorem IFBlock_forward_raises {numerics : Numerics} (in_planes scale c : Z)
        (n : nat) (x : Tensor) :
  0 < in_planes -> 0 < c ->
  let self := fst (IFBlock.init in_planes scale c n) in
  (scale = 0 ->
   forall tr,
     IFBlock.forward (IFBlock.train tr self) x = Raise ZeroDivisionError) /\
  (forall k,
     0 <= k -> scale = 2 ^ k ->
     batch (shape x) = 1 -> channels (shape x) = in_planes ->
     scale <= height (shape x) < 3 * scale ->
     scale <= width (shape x) < 3 * scale ->
     IFBlock.forward self x = Raise ValueError).
Proof.
  intros Hin _. cbv zeta.
  destruct (IFBlock.init in_planes scale c n) as [self n'] eqn:E. cbn [fst].
  split.
  - intros -> tr.
    cbv [IFBlock.init then_ unit_ fresh conv new_Conv2d new_PReLU
         new_BatchNorm2d mode_is] in E.
    cbn [String.eqb Ascii.eqb Bool.eqb] in E.
    name_blocks E. injection E as <- <-. reflexivity.
  - intros k Hk Es Eb Ec Hh Hw.
    assert (0 < scale) by (subst scale; apply Z.pow_pos_nonneg; lia).
    exact (IFBlock_single_raises _ _ _ _ _ _ _ E Hin ltac:(assumption)
             Eb Ec Hh Hw).
Qed.

(** The first block of [IFNet] as it is built, on a single pair of 16 x 16
    frames. *)
Lemma IFBlock_forward_raises_witness :
  @IFBlock.forward zero_numerics (fst (IFBlock.init 6 8 192 0%nat))
    (blank 1 6 16 16) = Raise ValueError.
Proof.
  destruct (@IFBlock_forward_raises zero_numerics 6 8 192 0%nat
              (blank 1 6 16 16) ltac:(lia) ltac:(lia)) as (_ & Hraises).
  apply (Hraises 3); cbn; try reflexivity; lia.
Defined.

(** ** IFNet *)

(** X6: the flows of [IFNet] have half the resolution of the frames.  On a
    frame pair whose extents are positive multiples of 32, in evaluation mode
    or in training mode with more than one 32 x 32 tile in the batch,
    [forward] returns four cumulative flows of 2 channels, each of half the
    height and half the width of the input, the last of them also as the
    first component; and [forward] returns on no input that has another
    number of channels than 6. *)
Theorem IFNet_forward_half_resolution {numerics : Numerics} (n : nat)
        (tr : bool) (x : Tensor) :
  let self := IFNet.train tr (fst (IFNet.init n)) in
  (forall N h w,
     0 < h -> 0 < w -> shape x = mkShape N 6 (32 * h) (32 * w) ->
     (tr = true -> N * (h * w) <> 1) ->
     exists F1 F2 F3 F4,
       IFNet.forward self x = Ok (F4, [F1; F2; F3; F4]) /\
       Forall (fun F => shape F = mkShape N 2 (16 * h) (16 * w))
              [F1; F2; F3; F4]) /\
  (forall r, IFNet.forward self x = Ok r -> channels (shape x) = 6).
Proof.
  cbv zeta. split.
  - intros N h w Hh Hw Sx Hbn.
    destruct (IFNet.init n) as [self n'] eqn:E.
    pose proof (IFNet_forward_returns _ _ _ E tr N h w x Hh Hw Sx Hbn) as Hrun.
    apply returns_ex in Hrun. destruct Hrun as ([F4 Fs] & Er & S4).
    cbn [fst] in S4 |- *.
    destruct (IFNet_forward_inv _ _ _ _ Er)
      as (x' & flow0 & flow1 & flow2 & flow3 & i1 & i2 & i3 & F2 & F3
          & Ex' & E0 & I1 & E1 & EF2 & I2 & E2 & EF3 & I3 & E3 & EF4 & ->).
    replace self with (fst (IFNet.init n)) in E0, E1, E2, E3
      by (rewrite E; reflexivity).
    destruct (IFNet_flow_shapes n tr N h w x x' flow0 flow1 flow2 flow3
                i1 i2 i3 F2 F3 Hh Hw Sx Ex' E0 I1 E1 EF2 I2 E2 EF3 I3 E3)
      as (S0 & _ & _ & _ & SF2 & SF3).
    exists flow0, F2, F3, F4. split; [ exact Er | ].
    repeat constructor; assumption.
  - intros [F4 Fs] Er.
    destruct (IFNet_forward_inv _ _ _ _ Er)
      as (x' & flow0 & _ & _ & _ & _ & _ & _ & _ & _ & Ex' & E0 & _).
    destruct (IFNet.init n) as [self n'] eqn:E. cbn [fst] in E0.
    cbv [IFNet.init then_ unit_] in E. name_ifblocks E.
    apply pair_equal_spec in E. destruct E as [<- <-].
    cbn [IFNet.train IFNet.block0] in E0.
    destruct (IFBlock_forward_inv _ _ _ _ _ _ _ _ _ B E0) as (_ & Ec & _).
    apply interpolate_inv in Ex'. destruct Ex' as (Sx' & _).
    rewrite Sx' in Ec. exact Ec.
Qed.

(** The network as it is built, on a batch of two pairs of 32 x 32 frames:
    flows of 16 x 16. *)
Lemma IFNet_forward_half_resolution_witness :
  exists F1 F2 F3 F4,
    @IFNet.forward zero_numerics (IFNet.train true (fst (IFNet.init 0%nat)))
      (blank 2 6 32 32) = Ok (F4, [F1; F2; F3; F4]) /\
    Forall (fun F => shape F = mkShape 2 2 16 16) [F1; F2; F3; F4].
Proof.
  destruct (@IFNet_forward_half_resolution zero_numerics 0%nat true
              (blank 2 6 32 32)) as (Hruns & _).
  apply (Hruns 2 1 1); [ lia | lia | reflexivity | lia ].
Defined.

(** X7: [IFNet()] is built in training mode, and [RIFE.__init__] puts its
    flow estimator in evaluation mode.  The network as it is built raises
    [ValueError] on every single frame pair with extents from 16 to 47: the
    first block resizes it to one or two rows and columns, and the batch
    normalisation after its first convolution finds a single value per
    channel.  The flow estimator of [RIFE] returns on a single pair of
    32 x 32 frames. *)
Theorem IFNet_training_single_raises {numerics : Numerics} (n : nat)
        (device : string) (x : Tensor) :
  (batch (shape x) = 1 -> channels (shape x) = 6 ->
   16 <= height (shape x) <= 47 -> 16 <= width (shape x) <= 47 ->
   IFNet.forward (fst (IFNet.init n)) x = Raise ValueError) /\
  (shape x = mkShape 1 6 32 32 ->
   exists r, IFNet.forward (RIFE.flownet (fst (RIFE.init device n))) x = Ok r).
Proof.
  split.
  - intros Eb Ec Hh Hw.
    destruct (IFNet.init n) as [self n'] eqn:E. cbn [fst].
    cbv [IFNet.init then_ unit_] in E. name_ifblocks E.
    apply pair_equal_spec in E. destruct E as [<- <-].
    unfold IFNet.forward. cbn [IFNet.block0].
    assert (Ex' : exists x',
               interpolate x (1 # 2) = Ok x' /\
               batch (shape x') = 1 /\ channels (shape x') = 6 /\
               8 <= height (shape x') < 3 * 8 /\
               8 <= width (shape x') < 3 * 8).
    { apply returns_ex. eapply returns_weaken.
      - apply interpolate_returns; rewrite ?resized_half;
          try lia; Z.div_mod_to_equations; lia.
      - cbv beta. intros y Sy. rewrite Sy, !resized_half.
        cbn [batch channels height width].
        repeat split; try assumption; Z.div_mod_to_equations; lia. }
    destruct Ex' as (x' & -> & Eb' & Ec' & Hh' & Hw'). cbn [bind].
    rewrite (IFBlock_single_raises _ _ _ _ _ _ _ B ltac:(lia) ltac:(lia)
               Eb' Ec' Hh' Hw').
    reflexivity.
  - intros Sx.
    cbv [RIFE.init then_ unit_].
    destruct (IFNet.init n) as [fl k0] eqn:Efl.
    destruct (ContextNet.init 32 k0) as [cx k1].
    destruct (FusionNet.init 32 k1) as [fu k2].
    cbn [fst RIFE.flownet]. unfold IFNet.eval.
    pose proof (IFNet_forward_returns _ _ _ Efl false 1 1 1 x ltac:(lia)
                  ltac:(lia) Sx ltac:(discriminate)) as Hrun.
    apply returns_ex in Hrun. destruct Hrun as (r & Er & _). eauto.
Qed.

(** A single pair of blank 32 x 32 frames: refused by the network as it is
    built. *)
Lemma IFNet_training_single_raises_witness :
  @IFNet.forward zero_numerics (fst (IFNet.init 0%nat)) (blank 1 6 32 32)
    = Raise ValueError.
Proof.
  destruct (@IFNet_training_single_raises zero_numerics 0%nat "cpu"
              (blank 1 6 32 32)) as (Hraises & _).
  apply Hraises; cbn; try reflexivity; lia.
Defined.

(** ** ContextNet *)

(** X8: the pyramid of [ContextNet].  On an image of 3 channels whose
    extents are positive multiples of 32, with a flow of 2 channels of half
    its resolution, [forward] returns four levels of [c], [2 c], [4 c] and
    [8 c] channels at a quarter, an eighth, a sixteenth and a thirty-second
    of the resolution of the image.  The network has no batch normalisation,
    so [train] and [eval] leave it as it is; and it returns on no image that
    has another number of channels than 3. *)
Theorem ContextNet_forward_shapes {numerics : Numerics} (c : Z) (n : nat)
        (x flow : Tensor) :
  0 < c ->
  let self := fst (ContextNet.init c n) in
  (forall N h w,
     0 < h -> 0 < w ->
     shape x = mkShape N 3 (32 * h) (32 * w) ->
     shape flow = mkShape N 2 (16 * h) (16 * w) ->
     exists f1 f2 f3 f4,
       ContextNet.forward self x flow = Ok [f1; f2; f3; f4] /\
       shape f1 = mkShape N c (8 * h) (8 * w) /\
       shape f2 = mkShape N (2 * c) (4 * h) (4 * w) /\
       shape f3 = mkShape N (4 * c) (2 * h) (2 * w) /\
       shape f4 = mkShape N (8 * c) h w) /\
  (forall tr, ContextNet.train tr self = self) /\
  (forall fs, ContextNet.forward self x flow = Ok fs ->
              channels (shape x) = 3).
Proof.
  intros _. cbv zeta.
  destruct (ContextNet.init c n) as [self n'] eqn:E. cbn [fst].
  repeat match goal with |- _ /\ _ => split end.
  - intros N h w Hh Hw Sx Sflow.
    pose proof (ContextNet_forward_returns _ _ _ _ E true N 2 h w x flow
                  Hh Hw ltac:(lia) Sx Sflow) as Hrun.
    rewrite (ContextNet_train_any _ _ _ _ true E) in Hrun.
    apply returns_ex in Hrun.
    destruct Hrun as (fs & Er & f1 & f2 & f3 & f4 & -> & Hshapes).
    exists f1, f2, f3, f4. split; [ exact Er | exact Hshapes ].
  - intros tr. exact (ContextNet_train_any _ _ _ _ tr E).
  - intros fs Hrun. unfold ContextNet.forward in Hrun. bind_inv Hrun.
    cbv [ContextNet.init then_ unit_ fresh conv new_Conv2d new_PReLU mode_is]
      in E.
    cbn [String.eqb Ascii.eqb Bool.eqb] in E.
    name_blocks E. apply pair_equal_spec in E. destruct E as [<- <-].
    cbn [ContextNet.conv0 call] in E0.
    eapply run_seq_Conv2d_inv. exact E0.
Qed.

(** The network of [RIFE], of width 32, on a blank 64 x 32 image. *)
Lemma ContextNet_forward_shapes_witness :
  exists f1 f2 f3 f4,
    @ContextNet.forward zero_numerics (fst (ContextNet.init 32 0%nat))
      (blank 1 3 64 32) (blank 1 2 32 16) = Ok [f1; f2; f3; f4] /\
    shape f1 = mkShape 1 32 16 8 /\ shape f2 = mkShape 1 64 8 4 /\
    shape f3 = mkShape 1 128 4 2 /\ shape f4 = mkShape 1 256 2 1.
Proof.
  destruct (@ContextNet_forward_shapes zero_numerics 32 0%nat
              (blank 1 3 64 32) (blank 1 2 32 16) ltac:(lia)) as (Hruns & _).
  apply (Hruns 1 2 1); [ lia | lia | reflexivity | reflexivity ].
Defined.

(** ** FusionNet *)

(** X9: the fusion network restores the resolution of the images.  On two
    images of 3 channels whose extents are positive multiples of 32, a flow
    of 2 channels of their resolution, two context pyramids of the shapes
    that [ContextNet] of the same width returns, and no ground-truth flow or
    one of 4 channels and of the resolution of the images, [forward] returns
    a refine output of 4 channels with the height and the width of the
    images and the two warped images with the shape of the images, and, for
    a ground-truth flow, two ground-truth outputs of the shape of the
    images.  The network has no batch normalisation, so [train] and [eval]
    leave it as it is. *)
Theorem FusionNet_forward_shapes {numerics : Numerics} (c : Z) (n : nat)
        (img0 img1 flow : Tensor) (c0 c1 : list Tensor)
        (flow_gt : option Tensor) :
  0 < c ->
  let self := fst (FusionNet.init c n) in
  (forall N h w,
     0 < h -> 0 < w ->
     shape img0 = mkShape N 3 (32 * h) (32 * w) ->
     shape img1 = mkShape N 3 (32 * h) (32 * w) ->
     shape flow = mkShape N 2 (32 * h) (32 * w) ->
     pyramid_shapes c0 N c h w -> pyramid_shapes c1 N c h w ->
     (forall g, flow_gt = Some g -> shape g = mkShape N 4 (32 * h) (32 * w)) ->
     exists o,
       FusionNet.forward self img0 img1 flow c0 c1 flow_gt = Ok o /\
       shape (FusionNet.refine_output o) = mkShape N 4 (32 * h) (32 * w) /\
       shape (FusionNet.warped_img0 o) = shape img0 /\
       shape (FusionNet.warped_img1 o) = shape img1 /\
       (forall g, flow_gt = Some g ->
          exists g0 g1,
            FusionNet.warped_img0_gt o = Some g0 /\
            FusionNet.warped_img1_gt o = Some g1 /\
            shape g0 = shape img0 /\ shape g1 = shape img1)) /\
  (forall tr, FusionNet.train tr self = self).
Proof.
  intros _. cbv zeta.
  destruct (FusionNet.init c n) as [self n'] eqn:E. cbn [fst].
  split.
  - intros N h w Hh Hw S0 S1 Sflow P0 P1 Hgt.
    assert (Hfits : flow_gt_fits flow_gt N (32 * h) (32 * w)).
    { destruct flow_gt as [g|]; [ | exact I ].
      cbn [flow_gt_fits]. rewrite (Hgt g eq_refl). repeat split. }
    pose proof (FusionNet_forward_returns _ _ _ _ E true N h w img0 img1 flow
                  c0 c1 flow_gt Hh Hw S0 S1 Sflow P0 P1 Hfits) as Hrun.
    rewrite (FusionNet_train_any _ _ _ _ true E) in Hrun.
    apply returns_ex in Hrun. destruct Hrun as (o & Er & So & Sw0 & Sw1).
    exists o. repeat match goal with |- _ /\ _ => split end;
      try assumption; try congruence.
    intros g ->.
    destruct (FusionNet_forward_inv _ _ _ _ _ _ _ _ Er)
      as (_ & _ & (g0 & g1 & E0 & E1 & G0 & G1) & _).
    pose proof (Hgt g eq_refl) as Sg.
    apply warp_matched in E0, E1;
      try (cbn [shape slice_channels batch height width];
           rewrite Sg, ?S0, ?S1; reflexivity).
    exists g0, g1. intuition.
  - intros tr. exact (FusionNet_train_any _ _ _ _ tr E).
Qed.

(** The network of [RIFE] on blank 32 x 32 images with a ground-truth flow. *)
Lemma FusionNet_forward_shapes_witness :
  exists o,
    @FusionNet.forward zero_numerics (fst (FusionNet.init 32 0%nat))
      (blank 1 3 32 32) (blank 1 3 32 32) (blank 1 2 32 32)
      blank_pyramid blank_pyramid (Some (blank 1 4 32 32)) = Ok o /\
    shape (FusionNet.refine_output o) = mkShape 1 4 32 32.
Proof.
  destruct (@FusionNet_forward_shapes zero_numerics 32 0%nat
              (blank 1 3 32 32) (blank 1 3 32 32) (blank 1 2 32 32)
              blank_pyramid blank_pyramid (Some (blank 1 4 32 32))
              ltac:(lia)) as (Hruns & _).
  destruct (Hruns 1 1 1 ltac:(lia) ltac:(lia) eq_refl eq_refl eq_refl
              blank_pyramid_shapes blank_pyramid_shapes)
    as (o & Hrun & So & _).
  - intros g [= <-]. reflexivity.
  - exists o. auto.
Defined.

Lemma item_Ok_length {A : Type} (xs : list A) (i : nat) (a : A) :
  item xs i = Ok a -> (i < List.length xs)%nat.
Proof.
  unfold item. destruct (nth_error xs i) eqn:E; [ | discriminate ].
  intros _. apply nth_error_Some. congruence.
Qed.

Lemma item_app {A : Type} (xs ys : list A) (i : nat) :
  (i < List.length xs)%nat -> item (xs ++ ys) i = item xs i.
Proof. intros H. unfold item. rewrite nth_error_app1 by exact H. reflexivity. Qed.

Lemma cat2_inv (x y z : Tensor) :
  cat2 x y = Ok z ->
  batch (shape y) = batch (shape x) /\
  height (shape y) = height (shape x) /\
  width (shape y) = width (shape x) /\
  shape z = mkShape (batch (shape x)) (channels (shape x) + channels (shape y))
                    (height (shape x)) (width (shape x)).
Proof.
  unfold cat2.
  destruct (batch (shape x) =? batch (shape y)) eqn:En; [ | discriminate ].
  destruct (height (shape x) =? height (shape y)) eqn:Eh; [ | discriminate ].
  destruct (width (shape x) =? width (shape y)) eqn:Ew; [ | discriminate ].
  cbn [andb]. intros [= <-].
  apply Z.eqb_eq in En, Eh, Ew. cbn [shape]. auto.
Qed.

Section FusionNetRuns.

Context {numerics : Numerics}.

(** The pyramid levels that a successful run has read, and the input of
    the first convolution. *)
Lemma FusionNet_forward_reads (self : FusionNet.t) (img0 img1 flow : Tensor)
      (c0 c1 : list Tensor) (flow_gt : option Tensor) (o : FusionNet.output) :
  FusionNet.forward self img0 img1 flow c0 c1 flow_gt = Ok o ->
  (4 <= List.length c0)%nat /\ (4 <= List.length c1)%nat /\
  exists i x,
    call (Some (FusionNet.conv0 self)) i = Ok x /\
    channels (shape i)
      = channels (shape img0) + channels (shape img1) + channels (shape flow).
Proof.
  intros H. unfold FusionNet.forward in H.
  bind_inv H. rename v into w0, E into Ew0.
  bind_inv H. rename v into w1, E into Ew1.
  bind_inv H. clear E. destruct v as [gt0 gt1].
  bind_inv H. rename v into i, E into Ei.
  bind_inv H. rename v into x, E into Ex.
  cbn [cat cat_from] in Ei. bind_inv Ei. rename E into E01.
  bind_inv Ei. injection Ei as <-.
  apply cat2_inv in E01. destruct E01 as (_ & _ & _ & S1).
  apply cat2_inv in E. destruct E as (_ & _ & _ & S2).
  apply warp_inv in Ew0, Ew1.
  repeat bind_inv H.
  repeat match goal with
         | E : item _ 3 = Ok _ |- _ => apply item_Ok_length in E
         end.
  repeat split; try lia.
  eexists. exists x. split; [ exact Ex | ].
  rewrite S2, S1. cbn [channels]. rewrite Ew0, Ew1. reflexivity.
Qed.

(** Steps through a run [H] of [forward] and through the run in the goal,
    which read the same operations. *)
Ltac same_steps H :=
  repeat match type of H with
         | bind ?m _ = Ok _ =>
             destruct m; cbn [bind] in H |- *; [ | discriminate H ]
         end.

(** A run with a ground-truth flow, without it. *)
Lemma FusionNet_forward_without_gt (self : FusionNet.t)
      (img0 img1 flow : Tensor) (c0 c1 : list Tensor) (g : Tensor)
      (o : FusionNet.output) :
  FusionNet.forward self img0 img1 flow c0 c1 (Some g) = Ok o ->
  FusionNet.forward self img0 img1 flow c0 c1 None
    = Ok (FusionNet.mkOutput (FusionNet.refine_output o)
            (FusionNet.warped_img0 o) (FusionNet.warped_img1 o) None None).
Proof.
  intros H. unfold FusionNet.forward in *.
  destruct (warp img0 flow) as [w0|]; [ | discriminate H ].
  destruct (warp img1 (neg flow)) as [w1|]; [ | discriminate H ].
  cbn [bind] in H |- *.
  destruct (warp img0 (slice_channels g 0 (Some 2))) as [g0|];
    [ | discriminate H ].
  destruct (warp img1 (slice_channels g 2 (Some 4))) as [g1|];
    [ | discriminate H ].
  cbn [bind] in H. same_steps H.
  injection H as <-. reflexivity.
Qed.

(** A run without a ground-truth flow, with one that the two images can be
    warped by. *)
Lemma FusionNet_forward_with_gt (self : FusionNet.t)
      (img0 img1 flow : Tensor) (c0 c1 : list Tensor) (g g0 g1 : Tensor)
      (o : FusionNet.output) :
  FusionNet.forward self img0 img1 flow c0 c1 None = Ok o ->
  warp img0 (slice_channels g 0 (Some 2)) = Ok g0 ->
  warp img1 (slice_channels g 2 (Some 4)) = Ok g1 ->
  FusionNet.forward self img0 img1 flow c0 c1 (Some g)
    = Ok (FusionNet.mkOutput (FusionNet.refine_output o)
            (FusionNet.warped_img0 o) (FusionNet.warped_img1 o)
            (Some g0) (Some g1)).
Proof.
  intros H E0 E1. unfold FusionNet.forward in *. rewrite E0, E1.
  destruct (warp img0 flow) as [w0|]; [ | discriminate H ].
  destruct (warp img1 (neg flow)) as [w1|]; [ | discriminate H ].
  cbn [bind] in H |- *. same_steps H.
  injection H as <-. reflexivity.
Qed.

End FusionNetRuns.

(** X10: what [FusionNet.forward] reads of its arguments.  It returns only
    when each of the two context pyramids has at least four levels and the
    two images and the flow have 8 channels together, which the first
    convolution expects; and it reads no level after the fourth: further
    levels change nothing, not even the exception. *)
Theorem FusionNet_forward_reads_four_levels {numerics : Numerics} (c : Z)
        (n : nat) (img0 img1 flow : Tensor) (c0 c1 : list Tensor)
        (flow_gt : option Tensor) :
  0 < c ->
  let self := fst (FusionNet.init c n) in
  (forall o,
     FusionNet.forward self img0 img1 flow c0 c1 flow_gt = Ok o ->
     (4 <= List.length c0)%nat /\ (4 <= List.length c1)%nat /\
     channels (shape img0) + channels (shape img1) + channels (shape flow) = 8) /\
  (forall more0 more1,
     (4 <= List.length c0)%nat -> (4 <= List.length c1)%nat ->
     FusionNet.forward self img0 img1 flow (c0 ++ more0) (c1 ++ more1) flow_gt
       = FusionNet.forward self img0 img1 flow c0 c1 flow_gt).
Proof.
  intros _. cbv zeta. split.
  - intros o Hrun.
    destruct (FusionNet_forward_reads _ _ _ _ _ _ _ _ Hrun)
      as (L0 & L1 & i & x & Ex & Si).
    repeat split; try assumption. rewrite <- Si.
    destruct (FusionNet.init c n) as [self n'] eqn:E. cbn [fst] in Ex.
    cbv [FusionNet.init then_ unit_ fresh conv deconv new_Conv2d
         new_ConvTranspose2d new_PReLU mode_is] in E.
    cbn [String.eqb Ascii.eqb Bool.eqb] in E.
    name_blocks E. apply pair_equal_spec in E. destruct E as [<- <-].
    cbn [FusionNet.conv0 call] in Ex.
    eapply run_seq_Conv2d_inv. exact Ex.
  - intros more0 more1 L0 L1. unfold FusionNet.forward.
    rewrite !item_app by lia. reflexivity.
Qed.

(** Blank pyramids of four levels, and with a fifth level each. *)
Lemma FusionNet_forward_reads_four_levels_witness :
  @FusionNet.forward zero_numerics (fst (FusionNet.init 32 0%nat))
    (blank 1 3 32 32) (blank 1 3 32 32) (blank 1 2 32 32)
    (blank_pyramid ++ [blank 1 1 1 1]) (blank_pyramid ++ [blank 7 7 7 7]) None
  = @FusionNet.forward zero_numerics (fst (FusionNet.init 32 0%nat))
      (blank 1 3 32 32) (blank 1 3 32 32) (blank 1 2 32 32)
      blank_pyramid blank_pyramid None.
Proof.
  destruct (@FusionNet_forward_reads_four_levels zero_numerics 32 0%nat
              (blank 1 3 32 32) (blank 1 3 32 32) (blank 1 2 32 32)
              blank_pyramid blank_pyramid None ltac:(lia)) as (_ & Hmore).
  apply Hmore; cbn; lia.
Defined.

(** X11: the ground-truth flow reaches the two ground-truth outputs only.
    When a run of [FusionNet.forward] with a ground-truth flow returns, the
    run without it returns the same refine output and the same warped
    images, with [None] for the ground-truth outputs; and when the run
    without it returns and the two images can be warped by the channels of a
    ground-truth flow, the run with that flow returns the same, with the two
    warped images as ground-truth outputs. *)
Theorem FusionNet_forward_gt_independent {numerics : Numerics}
        (self : FusionNet.t) (img0 img1 flow : Tensor) (c0 c1 : list Tensor)
        (g : Tensor) :
  (forall o,
     FusionNet.forward self img0 img1 flow c0 c1 (Some g) = Ok o ->
     FusionNet.forward self img0 img1 flow c0 c1 None
       = Ok (FusionNet.mkOutput (FusionNet.refine_output o)
               (FusionNet.warped_img0 o) (FusionNet.warped_img1 o)
               None None)) /\
  (forall o g0 g1,
     FusionNet.forward self img0 img1 flow c0 c1 None = Ok o ->
     warp img0 (slice_channels g 0 (Some 2)) = Ok g0 ->
     warp img1 (slice_channels g 2 (Some 4)) = Ok g1 ->
     FusionNet.forward self img0 img1 flow c0 c1 (Some g)
       = Ok (FusionNet.mkOutput (FusionNet.refine_output o)
               (FusionNet.warped_img0 o) (FusionNet.warped_img1 o)
               (Some g0) (Some g1))).
Proof.
  split.
  - intros o. apply FusionNet_forward_without_gt.
  - intros o g0 g1. apply FusionNet_forward_with_gt.
Qed.

(** ** RIFE *)

Section RIFERuns.

Context {numerics : Numerics}.

(** The flow estimator returns on inputs of 6 channels only. *)
Lemma IFNet_forward_channels (n n' : nat) (self : IFNet.t) (tr : bool)
      (x : Tensor) (r : Tensor * list Tensor) :
  IFNet.init n = (self, n') ->
  IFNet.forward (IFNet.train tr self) x = Ok r ->
  channels (shape x) = 6.
Proof.
  intros E Er. destruct r as [F4 Fs].
  destruct (IFNet_forward_inv _ _ _ _ Er)
    as (x' & flow0 & _ & _ & _ & _ & _ & _ & _ & _ & Ex' & E0 & _).
  cbv [IFNet.init then_ unit_] in E. name_ifblocks E.
  apply pair_equal_spec in E. destruct E as [<- <-].
  cbn [IFNet.train IFNet.block0] in E0.
  destruct (IFBlock_forward_inv _ _ _ _ _ _ _ _ _ B E0) as (_ & Ec & _).
  apply interpolate_inv in Ex'. destruct Ex' as (Sx' & _).
  rewrite Sx' in Ec. exact Ec.
Qed.

(** A training run on well-shaped frames, with the shapes of what it
    returns. *)
Lemma RIFE_forward_training_returns (device : string) (n n' : nat)
      (self : RIFE.t) :
  RIFE.init device n = (self, n') ->
  forall (N h w : Z) (img0 img1 : Tensor) (imgs flow : option Tensor)
         (flow_gt : option Tensor),
  0 < h -> 0 < w ->
  shape img0 = mkShape N 3 (32 * h) (32 * w) ->
  shape img1 = mkShape N 3 (32 * h) (32 * w) ->
  flow_gt_fits flow_gt N (32 * h) (32 * w) ->
  returns (RIFE.forward self (Some img0) (Some img1) imgs flow true flow_gt)
    (fun out =>
       exists pred mask merged w0 w1 g0 g1,
         out = RIFE.Training pred mask merged w0 w1 g0 g1 /\
         shape pred = mkShape N 3 (32 * h) (32 * w) /\
         shape mask = mkShape N 1 (32 * h) (32 * w) /\
         shape merged = mkShape N 3 (32 * h) (32 * w) /\
         shape w0 = mkShape N 3 (32 * h) (32 * w) /\
         shape w1 = mkShape N 3 (32 * h) (32 * w) /\
         match flow_gt with
         | None => g0 = None /\ g1 = None
         | Some g =>
             exists t0 t1,
               g0 = Some t0 /\ g1 = Some t1 /\
               shape t0 = mkShape N 3 (32 * h) (32 * w) /\
               shape t1 = mkShape N 3 (32 * h) (32 * w)
         end).
Proof.
  intros E N h w img0 img1 imgs flow flow_gt Hh Hw S0 S1 Hgt.
  cbv [RIFE.init then_ unit_] in E.
  destruct (IFNet.init n) as [fl k0] eqn:Efl.
  destruct (ContextNet.init 32 k0) as [cx k1] eqn:Ecx.
  destruct (FusionNet.init 32 k1) as [fu k2] eqn:Efu.
  apply pair_equal_spec in E. destruct E as [<- <-].
  unfold RIFE.forward, IFNet.eval, ContextNet.eval, FusionNet.eval.
  cbn [RIFE.flownet RIFE.contextnet RIFE.fusionnet].
  next cat_pair_returns imgs' Eimgs Simgs.
  next (IFNet_forward_returns _ _ _ Efl false N h w) r Er Sr.
  next (ContextNet_forward_returns _ _ _ _ Ecx false N 2 h w) pyr0 Epyr0 Spyr0.
  next (ContextNet_forward_returns _ _ _ _ Ecx false N 2 h w) pyr1 Epyr1 Spyr1.
  next interpolate_returns flow' Eflow Sflow;
    try (rewrite resized_double; lia).
  rewrite !resized_double in Sflow.
  eapply returns_bind;
    [ eapply (FusionNet_forward_returns _ _ _ _ Efu false N h w);
      try eassumption; side | ].
  cbv beta. intros o Eo (So & Sw0 & Sw1).
  next pointwise2_returns a Ea Sa.
  next pointwise2_returns b Eb Sb.
  next pointwise2_returns merged Emerged Smerged.
  next pointwise2_returns s Es Ss.
  cbn [returns].
  exists (clamp s 0%R 1%R),
    (sigmoid (slice_channels (FusionNet.refine_output o) 3 (Some 4))),
    merged, (FusionNet.warped_img0 o), (FusionNet.warped_img1 o),
    (FusionNet.warped_img0_gt o), (FusionNet.warped_img1_gt o).
  split; [ reflexivity | ].
  split; [ exact Ss | ].
  split; [ cbn [sigmoid pointwise shape slice_channels]; rewrite So;
           reflexivity | ].
  split; [ exact Smerged | ].
  split; [ exact Sw0 | ].
  split; [ exact Sw1 | ].
  destruct (FusionNet_forward_inv _ _ _ _ _ _ _ _ Eo) as (_ & _ & Hg & _).
  destruct flow_gt as [g|]; [ | exact Hg ].
  destruct Hg as (t0 & t1 & E0 & E1 & G0 & G1).
  destruct Hgt as (Gb & Gh & Gw).
  apply warp_matched in E0, E1;
    try (cbn [shape slice_channels batch height width];
         rewrite Simgs, ?Gb, ?Gh, ?Gw; reflexivity).
  cbn [shape slice_channels] in E0, E1.
  rewrite Simgs in E0, E1. cbn [batch channels height width] in E0, E1.
  exists t0, t1. repeat split; assumption.
Qed.

End RIFERuns.

(** X12: the ground-truth flow never reaches the prediction.  When a run of
    [RIFE.forward] with a ground-truth flow returns, the run on the same
    arguments without it returns the same prediction: in inference mode the
    same result, in training mode the same prediction, mask, blend and warped
    images, with [None] for the two ground-truth outputs. *)
Theorem RIFE_forward_gt_independent {numerics : Numerics} (self : RIFE.t)
        (img0 img1 imgs flow : option Tensor) (training : bool)
        (g : Tensor) (out : RIFE.output) :
  RIFE.forward self img0 img1 imgs flow training (Some g) = Ok out ->
  RIFE.forward self img0 img1 imgs flow training None
    = Ok match out with
         | RIFE.Training pred mask merged_img warped_img0 warped_img1 _ _ =>
             RIFE.Training pred mask merged_img warped_img0 warped_img1
                           None None
         | RIFE.Inference pred => RIFE.Inference pred
         end.
Proof.
  intros H. unfold RIFE.forward in *.
  repeat match type of H with
         | bind (FusionNet.forward _ _ _ _ _ _ _) _ = Ok _ => fail 1
         | bind ?m _ = Ok _ =>
             destruct m; cbn [bind] in H |- *; [ | discriminate H ]
         end.
  match type of H with
  | bind ?m _ = Ok _ => destruct m as [o|] eqn:Eo; [ | discriminate H ]
  end.
  rewrite (FusionNet_forward_without_gt _ _ _ _ _ _ _ _ Eo).
  cbn [bind FusionNet.refine_output FusionNet.warped_img0
       FusionNet.warped_img1 FusionNet.warped_img0_gt
       FusionNet.warped_img1_gt] in H |- *.
  repeat match type of H with
         | bind ?m _ = Ok _ =>
             destruct m; cbn [bind] in H |- *; [ | discriminate H ]
         end.
  destruct training; injection H as <-; reflexivity.
Qed.

(** An inference run on blank 32 x 32 frames with a ground-truth flow. *)
Lemma RIFE_forward_gt_independent_witness :
  exists out,
    @RIFE.forward zero_numerics (fst (RIFE.init "cpu" 0%nat))
      (Some (blank 1 3 32 32)) (Some (blank 1 3 32 32)) None None false
      (Some (blank 1 4 32 32)) = Ok out /\
    @RIFE.forward zero_numerics (fst (RIFE.init "cpu" 0%nat))
      (Some (blank 1 3 32 32)) (Some (blank 1 3 32 32)) None None false
      None = Ok (RIFE.Inference (prediction out)).
Proof.
  destruct (RIFE.init "cpu" 0%nat) as [self n'] eqn:E. cbn [fst].
  pose proof (@RIFE_forward_returns zero_numerics _ _ _ _ E 1 1 1
                (blank 1 3 32 32) (blank 1 3 32 32) None None false
                (Some (blank 1 4 32 32)) ltac:(lia) ltac:(lia) eq_refl eq_refl
                (conj eq_refl (conj eq_refl eq_refl))) as Hrun.
  apply returns_ex in Hrun. destruct Hrun as (out & Er & Ht & _).
  exists out. split; [ exact Er | ].
  rewrite (@RIFE_forward_gt_independent zero_numerics _ _ _ _ _ _ _ _ Er).
  destruct out; [ discriminate Ht | reflexivity ].
Defined.

(** X13: what [RIFE.forward] needs of its two frames.  Called without
    [img0] or without [img1], whose defaults are [None], it raises
    [TypeError].  When it returns, both were given, with one batch size,
    height and width, and with 6 channels together, which are split again
    after the first three; and the result has the seven components of
    training mode exactly when [training] is set. *)
Theorem RIFE_forward_needs_two_frames {numerics : Numerics} (device : string)
        (n : nat) (img0 img1 imgs flow : option Tensor) (training : bool)
        (flow_gt : option Tensor) :
  let self := fst (RIFE.init device n) in
  (img0 = None \/ img1 = None ->
   RIFE.forward self img0 img1 imgs flow training flow_gt = Raise TypeError) /\
  (forall out,
     RIFE.forward self img0 img1 imgs flow training flow_gt = Ok out ->
     exists a b,
       img0 = Some a /\ img1 = Some b /\
       batch (shape b) = batch (shape a) /\
       height (shape b) = height (shape a) /\
       width (shape b) = width (shape a) /\
       channels (shape a) + channels (shape b) = 6 /\
       is_training out = training).
Proof.
  cbv zeta. split.
  - intros [-> | ->]; unfold RIFE.forward;
      [ | destruct img0 ]; reflexivity.
  - intros out H.
    destruct (RIFE.init device n) as [self n'] eqn:E. cbn [fst] in H.
    cbv [RIFE.init then_ unit_] in E.
    destruct (IFNet.init n) as [fl k0] eqn:Efl.
    destruct (ContextNet.init 32 k0) as [cx k1].
    destruct (FusionNet.init 32 k1) as [fu k2].
    apply pair_equal_spec in E. destruct E as [<- <-].
    unfold RIFE.forward, IFNet.eval in H. cbn [RIFE.flownet] in H.
    bind_inv H. rename v into both, E into Eboth.
    bind_inv H. rename v into r, E into Er.
    destruct img0 as [a|]; [ | discriminate Eboth ].
    destruct img1 as [b|]; [ | discriminate Eboth ].
    cbn [cat cat_from] in Eboth. bind_inv Eboth. injection Eboth as <-.
    apply cat2_inv in E. destruct E as (Eb & Eh & Ew & Sboth).
    pose proof (IFNet_forward_channels _ _ _ _ _ _ Efl Er) as Ec.
    rewrite Sboth in Ec. cbn [channels] in Ec.
    exists a, b. repeat split; try assumption.
    repeat bind_inv H. destruct training; injection H as <-; reflexivity.
Qed.

(** X14: what a training run of [RIFE.forward] returns.  On two frames of 3
    channels whose extents are positive multiples of 32, with no
    ground-truth flow or one of 4 channels and of the resolution of the
    frames, it returns seven components: the prediction, the blend and the
    two warped frames have the shape of the frames, the mask has one channel
    and their resolution, and the two ground-truth outputs are [None]
    without a ground-truth flow and tensors of the shape of the frames with
    one. *)
Theorem RIFE_forward_training_outputs {numerics : Numerics} (device : string)
        (n : nat) (img0 img1 : Tensor) (imgs flow flow_gt : option Tensor)
        (N h w : Z) :
  let self := fst (RIFE.init device n) in
  let frame := mkShape N 3 (32 * h) (32 * w) in
  0 < h -> 0 < w ->
  shape img0 = frame -> shape img1 = frame ->
  (forall g, flow_gt = Some g -> shape g = mkShape N 4 (32 * h) (32 * w)) ->
  exists pred mask merged_img warped_img0 warped_img1
         warped_img0_gt warped_img1_gt,
    RIFE.forward self (Some img0) (Some img1) imgs flow true flow_gt
      = Ok (RIFE.Training pred mask merged_img warped_img0 warped_img1
                          warped_img0_gt warped_img1_gt) /\
    shape pred = frame /\
    shape mask = mkShape N 1 (32 * h) (32 * w) /\
    shape merged_img = frame /\
    shape warped_img0 = frame /\ shape warped_img1 = frame /\
    (flow_gt = None -> warped_img0_gt = None /\ warped_img1_gt = None) /\
    (forall g, flow_gt = Some g ->
       exists t0 t1,
         warped_img0_gt = Some t0 /\ warped_img1_gt = Some t1 /\
         shape t0 = frame /\ shape t1 = frame).
Proof.
  cbv zeta. intros Hh Hw S0 S1 Hgt.
  destruct (RIFE.init device n) as [self n'] eqn:E. cbn [fst].
  assert (Hfits : flow_gt_fits flow_gt N (32 * h) (32 * w)).
  { destruct flow_gt as [g|]; [ | exact I ].
    cbn [flow_gt_fits]. rewrite (Hgt g eq_refl). repeat split. }
  pose proof (RIFE_forward_training_returns _ _ _ _ E N h w img0 img1 imgs
                flow flow_gt Hh Hw S0 S1 Hfits) as Hrun.
  apply returns_ex in Hrun.
  destruct Hrun
    as (out & Er & pred & mask & merged & w0 & w1 & g0 & g1 & ->
        & Spred & Smask & Smerged & Sw0 & Sw1 & Hg).
  exists pred, mask, merged, w0, w1, g0, g1.
  repeat match goal with |- _ /\ _ => split end; try assumption.
  - intros ->. exact Hg.
  - intros g ->. exact Hg.
Qed.

(** A training run on blank 32 x 32 frames with a ground-truth flow. *)
Lemma RIFE_forward_training_outputs_witness :
  exists pred mask merged_img warped_img0 warped_img1 t0 t1,
    @RIFE.forward zero_numerics (fst (RIFE.init "cpu" 0%nat))
      (Some (blank 1 3 32 32)) (Some (blank 1 3 32 32)) None None true
      (Some (blank 1 4 32 32))
      = Ok (RIFE.Training pred mask merged_img warped_img0 warped_img1
                          (Some t0) (Some t1)) /\
    shape mask = mkShape 1 1 32 32.
Proof.
  destruct (@RIFE_forward_training_outputs zero_numerics "cpu" 0%nat
              (blank 1 3 32 32) (blank 1 3 32 32) None None
              (Some (blank 1 4 32 32)) 1 1 1 ltac:(lia) ltac:(lia)
              eq_refl eq_refl)
    as (pred & mask & merged & w0 & w1 & g0 & g1 & Hrun & _ & Smask & _ & _
        & _ & _ & Hg).
  - intros g [= <-]. reflexivity.
  - destruct (Hg _ eq_refl) as (t0 & t1 & -> & -> & _).
    exists pred, mask, merged, w0, w1, t0, t1. auto.
Defined.

(** X15: the flag [training] selects what is returned and nothing else.
    When a run of [RIFE.forward] returns, in either mode, the run on the same
    arguments in inference mode returns its prediction; and when a run in
    inference mode returns a prediction, the run in training mode returns
    that prediction with six more components. *)
Theorem RIFE_forward_training_flag {numerics : Numerics} (self : RIFE.t)
        (img0 img1 imgs flow flow_gt : option Tensor) :
  (forall training out,
     RIFE.forward self img0 img1 imgs flow training flow_gt = Ok out ->
     RIFE.forward self img0 img1 imgs flow false flow_gt
       = Ok (RIFE.Inference (prediction out))) /\
  (forall pred,
     RIFE.forward self img0 img1 imgs flow false flow_gt
       = Ok (RIFE.Inference pred) ->
     exists mask merged_img warped_img0 warped_img1
            warped_img0_gt warped_img1_gt,
       RIFE.forward self img0 img1 imgs flow true flow_gt
         = Ok (RIFE.Training pred mask merged_img warped_img0 warped_img1
                             warped_img0_gt warped_img1_gt)).
Proof.
  split.
  - intros training out H. unfold RIFE.forward in *.
    repeat match type of H with
           | bind ?m _ = Ok _ =>
               destruct m; cbn [bind] in H |- *; [ | discriminate H ]
           end.
    destruct training; injection H as <-; reflexivity.
  - intros pred H. unfold RIFE.forward in *.
    repeat match type of H with
           | bind ?m _ = Ok _ =>
               destruct m; cbn [bind] in H |- *; [ | discriminate H ]
           end.
    injection H as <-. do 6 eexists. reflexivity.
Qed.
